(** * Custom-resource lifecycle handlers of the bottling-line demo

    A shallow embedding of the four CloudFormation custom-resource Lambda
    handlers ([role-alias-fn.ts], [thing-cert-policy-fn.ts],
    [thing-group-fn.ts], [greengrass-v2-deployment-fn.ts]) and of
    [GreengrassV2Deployment.addComponent], followed by the properties of the
    specification that were checked against them.

    The handlers are sequential programs that talk to AWS through an SDK
    client.  They are embedded in a small monad that threads the local
    variables, the trace of SDK commands sent so far and [process.exitCode],
    and that propagates JavaScript exceptions, so that [try]/[catch] keeps the
    assignments and the calls made before the exception was raised.  The
    exceptions are those of the SDK calls and the [TypeError]s of the
    language itself: reading a member of [undefined], iterating what is not
    iterable, and converting to a string, in a template literal, an object
    that has no string conversion. *)

From stdpp Require Import base option list strings gmap.

#[local] Set Warnings "-register-all".

(** ** JavaScript values *)

(** The values the handlers see: resource properties arrive as JSON
    (strings, lists, nested maps, and booleans or [null] for flags), and SDK
    responses are JSON-like objects as well.  A missing member reads as
    [undefined].  Numbers are left out: no property or response member the
    handlers read is numeric. *)
Inductive JsVal : Type :=
  | JUndefined
  | JNull
  | JBool (b : bool)
  | JStr (s : string)
  | JList (l : list JsVal)
  | JObj (o : gmap string JsVal).

(** [ToBoolean]: the test of [if], [!] and [??]'s result. *)
Definition truthy (v : JsVal) : bool :=
  match v with
  | JUndefined | JNull => false
  | JBool b => b
  | JStr s => negb (String.eqb s "")
  | JList _ | JObj _ => true
  end.

(** [a ?? b] *)
Definition nullish (a b : JsVal) : JsVal :=
  match a with
  | JUndefined | JNull => b
  | _ => a
  end.

(** A [string] holds the UTF-8 encoding of a JavaScript string.  A byte
    [10xxxxxx] continues the code point of the byte before it. *)
Definition is_continuation (a : Ascii.ascii) : bool :=
  match a with
  | Ascii.Ascii _ _ _ _ _ _ b6 b7 => b7 && negb b6
  end.

(** The code points of a string, each as a string of its own. *)
Fixpoint code_points (s : string) : list string :=
  match s with
  | EmptyString => []
  | String a s' =>
      match s' with
      | String b _ =>
          if is_continuation b then
            match code_points s' with
            | cp :: rest => String a cp :: rest
            | [] => [String a EmptyString]
            end
          else String a EmptyString :: code_points s'
      | EmptyString => [String a EmptyString]
      end
  end.

(** Iteration protocol of [for (const x of v)]: arrays yield their elements,
    strings their code points; anything else is not iterable. *)
Definition iterate (v : JsVal) : option (list JsVal) :=
  match v with
  | JList l => Some l
  | JStr s => Some (JStr <$> code_points s)
  | JUndefined | JNull | JBool _ | JObj _ => None
  end.

(** [ToString], as applied by template literals; [None] when the conversion
    throws a [TypeError].  Arrays join their elements with a comma, printing
    [undefined] and [null] elements as nothing.  A plain object prints as
    ["[object Object]"] through [Object.prototype.toString], unless it has a
    member [toString] of its own: that member, a JSON value, is not
    callable, [valueOf] gives no primitive either, and the conversion
    throws. *)
Fixpoint ToString (v : JsVal) : option string :=
  match v with
  | JUndefined => Some "undefined"
  | JNull => Some "null"
  | JBool true => Some "true"
  | JBool false => Some "false"
  | JStr s => Some s
  | JList l =>
      String.concat "," <$>
        (fix join (l : list JsVal) : option (list string) :=
           match l with
           | [] => Some []
           | x :: l' =>
               match (match x with
                      | JUndefined | JNull => Some EmptyString
                      | _ => ToString x
                      end), join l' with
               | Some s, Some ss => Some (s :: ss)
               | _, _ => None
               end
           end) l
  | JObj o =>
      if bool_decide (is_Some (o !! "toString")) then None
      else Some "[object Object]"
  end.

(** Property names every plain object inherits from [Object.prototype]; the
    [in] operator answers [true] for them whatever the object holds. *)
Definition object_prototype_keys : list string :=
  [ "constructor"; "hasOwnProperty"; "isPrototypeOf"; "propertyIsEnumerable";
    "toLocaleString"; "toString"; "valueOf"; "__proto__";
    "__defineGetter__"; "__defineSetter__"; "__lookupGetter__"; "__lookupSetter__" ].

(** [key in o] for a plain object [o] given by its own properties. *)
Definition js_in (key : string) (o : gmap string JsVal) : bool :=
  bool_decide (is_Some (o !! key)) || bool_decide (key ∈ object_prototype_keys).

(** ** SDK commands and the external client *)

(** One constructor per SDK command class the handlers instantiate, with the
    members of its [input]. *)
Inductive Command : Type :=
  (* @aws-sdk/client-iot *)
  | CreateRoleAliasCommand (roleAlias roleArn : JsVal)
  | DeleteRoleAliasCommand (roleAlias : JsVal)
  | CreateThingCommand (thingName : JsVal)
  | CreateKeysAndCertificateCommand (setAsActive : bool)
  | CreatePolicyCommand (policyDocument policyName : JsVal)
  | AttachPolicyCommand (policyName target : JsVal)
  | AttachThingPrincipalCommand (thingName principal : JsVal)
  | DescribeEndpointCommand (endpointType : string)
  | ListPolicyVersionsCommand (policyName : JsVal)
  | DeletePolicyVersionCommand (policyName policyVersionId : JsVal)
  | ListTargetsForPolicyCommand (policyName : JsVal)
  | DetachPolicyCommand (policyName target : JsVal)
  | DeletePolicyCommand (policyName : JsVal)
  | ListPrincipalThingsCommand (principal : JsVal)
  | DetachThingPrincipalCommand (thingName principal : JsVal)
  | ListAttachedPoliciesCommand (target : JsVal)
  | UpdateCertificateCommand (certificateId : JsVal) (newStatus : string)
  | DeleteCertificateCommand (certificateId : JsVal)
  | ListThingPrincipalsCommand (thingName : JsVal)
  | DeleteThingCommand (thingName : JsVal)
  | CreateThingGroupCommand (thingGroupName thingGroupDescription : JsVal)
  | AddThingToThingGroupCommand (thingGroupName thingArn : JsVal)
  | DeleteThingGroupCommand (thingGroupName : JsVal)
  (* @aws-sdk/client-ssm *)
  | PutParameterCommand (Name Description : string) (Value : JsVal) (Type_ Tier : string)
  | DeleteParametersCommand (Names : list string)
  (* @aws-sdk/client-greengrassv2 *)
  | CreateDeploymentCommand (targetArn deploymentName components : JsVal)
  | CancelDeploymentCommand (deploymentId : JsVal).

(** What a [client.send(command)] promise settles to: the command's output
    object, every member of which is optional, or a rejection with the
    service exception. *)
Inductive Outcome : Type :=
  | Ok (response : gmap string JsVal)
  | Fail (name message : string).

(** The external system, as seen by one invocation: the answer to a command
    may depend on every command sent before it. *)
Definition Client : Type := list Command → Command → Outcome.

(** ** Exceptions, state and the handler monad *)

Inductive Exn : Type :=
  | Error (message : string)
  | TypeError (message : string)
  | ServiceException (name message : string).

(** [Error.prototype.toString]: the name and the message, or the one of
    them that is not empty. *)
Definition Error_toString (name message : string) : string :=
  if String.eqb name "" then message
  else if String.eqb message "" then name
  else name +:+ ": " +:+ message.

(** [`${error}`] *)
Definition exn_to_string (e : Exn) : string :=
  match e with
  | Error m => Error_toString "Error" m
  | TypeError m => Error_toString "TypeError" m
  | ServiceException n m => Error_toString n m
  end.

Inductive Result (A : Type) : Type :=
  | Ret (a : A)
  | Thrown (e : Exn).
Arguments Ret {A} a.
Arguments Thrown {A} e.

(** [vars] holds the [let] variables of the running function, [trace] the
    commands sent so far (oldest first), [exitCode] the value of
    [process.exitCode]. *)
Record State : Type := mkState {
  vars : gmap string JsVal;
  trace : list Command;
  exitCode : option nat
}.

Definition init : State := mkState ∅ [] None.

Definition M (A : Type) : Type := Client → State → Result A * State.

Definition ret {A} (a : A) : M A := fun _ st => (Ret a, st).

Definition bind {A B} (m : M A) (f : A → M B) : M B :=
  fun c st =>
    match m c st with
    | (Ret a, st') => f a c st'
    | (Thrown e, st') => (Thrown e, st')
    end.

Definition throw {A} (e : Exn) : M A := fun _ st => (Thrown e, st).

(** [try { m } catch (error) { h error }]: the state reached when the
    exception was raised is the one the handler starts from. *)
Definition try_catch {A} (m : M A) (h : Exn → M A) : M A :=
  fun c st =>
    match m c st with
    | (Ret a, st') => (Ret a, st')
    | (Thrown e, st') => h e c st'
    end.

Declare Scope js_scope.
Delimit Scope js_scope with js.
Bind Scope js_scope with M.

Notation "x <- m ;; k" := (bind m (fun x => k))
  (at level 100, m at next level, right associativity) : js_scope.
Notation "m ;; k" := (bind m (fun _ => k))
  (at level 100, right associativity) : js_scope.
Notation "'try' m 'catch' h" := (try_catch m h)
  (at level 60, m at level 200, h at level 9) : js_scope.

Open Scope js_scope.

(** [await client.send(command)]: the command joins the trace whether or not
    the call succeeds. *)
Definition send (cmd : Command) : M JsVal :=
  fun c st =>
    let st' := mkState (vars st) (trace st ++ [cmd]) (exitCode st) in
    match c (trace st) cmd with
    | Ok response => (Ret (JObj response), st')
    | Fail n m => (Thrown (ServiceException n m), st')
    end.

(** Reading a variable that was declared but never assigned gives
    [undefined]. *)
Definition var (x : string) : M JsVal :=
  fun _ st => (Ret (default JUndefined (vars st !! x)), st).

Definition assign (x : string) (v : JsVal) : M unit :=
  fun _ st => (Ret tt, mkState (<[x := v]> (vars st)) (trace st) (exitCode st)).

Notation "x ::= v" := (assign x v) (at level 59, no associativity) : js_scope.

(** [process.exitCode = n] *)
Definition set_exitCode (n : nat) : M unit :=
  fun _ st => (Ret tt, mkState (vars st) (trace st) (Some n)).

(** A function call: the body runs with its own variables, and the caller's
    are back when it returns or throws. *)
Definition call {A} (body : M A) : M A :=
  fun c st =>
    let (r, st') := body c (mkState ∅ (trace st) (exitCode st)) in
    (r, mkState (vars st) (trace st') (exitCode st')).

(** [v.f]: a [TypeError] on [undefined] and [null], the own property of an
    object, [undefined] when there is none.  None of the names the handlers
    read is inherited from a prototype. *)
Definition member (v : JsVal) (f : string) : M JsVal :=
  match v with
  | JUndefined =>
      throw (TypeError ("Cannot read properties of undefined (reading '" +:+ f +:+ "')"))
  | JNull =>
      throw (TypeError ("Cannot read properties of null (reading '" +:+ f +:+ "')"))
  | JObj o => ret (default JUndefined (o !! f))
  | JBool _ | JStr _ | JList _ => ret JUndefined
  end.

Fixpoint for_each (l : list JsVal) (body : JsVal → M unit) : M unit :=
  match l with
  | [] => ret tt
  | x :: l' => body x ;; for_each l' body
  end.

(** [for (const x of v) { body x }]; [source] is the text of the expression
    [v] stands for, which the error message quotes. *)
Definition for_of (source : string) (v : JsVal) (body : JsVal → M unit) : M unit :=
  match iterate v with
  | Some l => for_each l body
  | None => throw (TypeError (source +:+ " is not iterable"))
  end.

(** A template literal: its text, and the values it substitutes. *)
Inductive Piece : Type :=
  | Lit (s : string)
  | Subst (v : JsVal).

(** The string a template literal evaluates to; [None] when a substituted
    value has no string conversion. *)
Fixpoint render (pieces : list Piece) : option string :=
  match pieces with
  | [] => Some EmptyString
  | Lit s :: rest =>
      match render rest with
      | Some r => Some (s +:+ r)
      | None => None
      end
  | Subst v :: rest =>
      match ToString v, render rest with
      | Some s, Some r => Some (s +:+ r)
      | _, _ => None
      end
  end.

Definition template (pieces : list Piece) : M string :=
  match render pieces with
  | Some s => ret s
  | None => throw (TypeError "Cannot convert object to primitive value")
  end.

(** [console.info], [console.warn] and [console.error]: what they print is
    not part of the state.  The handlers' console calls are embedded where
    their message is a template literal, whose evaluation may throw; the
    other arguments of a console call are printed by inspection, which
    converts nothing to a string. *)
Definition console_info (message : string) : M unit := ret tt.
Definition console_warn (message : string) : M unit := ret tt.
Definition console_error (message : string) : M unit := ret tt.

(** ** Lifecycle events and results *)

Module CfnEvent.
(** [CloudFormationCustomResourceEvent]; [PhysicalResourceId] is
    [undefined] on Create. *)
Record t : Type := mk {
  RequestType : string;
  ResourceProperties : gmap string JsVal;
  PhysicalResourceId : JsVal
}.
End CfnEvent.

Module CfnResult.
Record t : Type := mk {
  PhysicalResourceId : JsVal;
  Data : gmap string JsVal
}.
End CfnResult.

(** [event.ResourceProperties.k] *)
Definition prop (event : CfnEvent.t) (k : string) : JsVal :=
  default JUndefined (CfnEvent.ResourceProperties event !! k).

(** ** The handlers

    Each handler file exports [handler] and keeps [onCreate], [onUpdate] and
    [onDelete] private.  [handler] hands the promise of the function it
    dispatches to back to its caller, so its own promise settles the way that
    one does. *)

(** *** [iot-role-alias/assets/role-alias-fn.ts] *)
Module RoleAliasFn.

Definition onCreate (event : CfnEvent.t) : M CfnResult.t :=
  call (
    (* Check if we're failing Creates *)
    if truthy (nullish (prop event "FailCreate") (JBool false)) then
      throw (Error "Create failure requested, logging")
    else
      let role_alias := prop event "IotRoleAliasName" in
      let role_arn := prop event "IamRoleArn" in
      "physical_resource_id" ::= JStr "" ;;
      (* Create AWS IoT role alias *)
      (try (
         response <- send (CreateRoleAliasCommand role_alias role_arn) ;;
         v <- member response "roleAliasArn" ;;
         "role_alias_arn" ::= v ;;
         v <- member response "roleAlias" ;;
         "physical_resource_id" ::= v
       ) catch (fun error => set_exitCode 1)) ;;
      physical_resource_id <- var "physical_resource_id" ;;
      role_alias_arn <- var "role_alias_arn" ;;
      ret (CfnResult.mk physical_resource_id {[ "RoleAliasArn" := role_alias_arn ]})).

Definition onUpdate (event : CfnEvent.t) : M CfnResult.t :=
  call (
    let role_alias := prop event "IotRoleAliasName" in
    let physical_resource_id := CfnEvent.PhysicalResourceId event in
    ret (CfnResult.mk physical_resource_id ∅)).

Definition onDelete (event : CfnEvent.t) : M CfnResult.t :=
  call (
    let role_alias := prop event "IotRoleAliasName" in
    let physical_resource_id := CfnEvent.PhysicalResourceId event in
    (* Delete AWS IoT role alias *)
    (try (
       _ <- send (DeleteRoleAliasCommand role_alias) ;;
       ret tt
     ) catch (fun error => ret tt)) ;;
    ret (CfnResult.mk physical_resource_id ∅)).

Definition handler (event : CfnEvent.t) : M CfnResult.t :=
  let request_type := CfnEvent.RequestType event in
  if String.eqb request_type "Create" then onCreate event
  else if String.eqb request_type "Update" then onUpdate event
  else if String.eqb request_type "Delete" then onDelete event
  else throw (Error "Invalid request type").

End RoleAliasFn.

(** *** [iot-thing-group/assets/thing-group-fn.ts] *)
Module ThingGroupFn.

Definition onCreate (event : CfnEvent.t) : M CfnResult.t :=
  call (
    (* Check if we're failing Creates *)
    if truthy (nullish (prop event "FailCreate") (JBool false)) then
      throw (Error "Create failure requested, logging")
    else
      let group_name := prop event "ThingGroupName" in
      let group_description := prop event "ThingGroupDescription" in
      let thing_list := prop event "ThingArnList" in
      "physical_resource_id" ::= JStr "" ;;
      (* Create AWS IoT thing group, and add any listed things to it *)
      (try (
         response <- send (CreateThingGroupCommand group_name group_description) ;;
         v <- member response "thingGroupArn" ;;
         "group_arn" ::= v ;;
         v <- member response "thingGroupId" ;;
         "group_id" ::= v ;;
         group_id <- var "group_id" ;;
         "physical_resource_id" ::= group_id
       ) catch (fun error => set_exitCode 1)) ;;
      (* Add things to group *)
      (try (
         for_of "thing_list" thing_list (fun thing =>
           _ <- send (AddThingToThingGroupCommand group_name thing) ;;
           ret tt)
       ) catch (fun error =>
         message <- template [ Lit "Error adding things "; Subst thing_list;
                               Lit " to thing group "; Subst group_name; Lit ": " ] ;;
         console_error message ;;
         set_exitCode 1)) ;;
      physical_resource_id <- var "physical_resource_id" ;;
      group_arn <- var "group_arn" ;;
      group_id <- var "group_id" ;;
      ret (CfnResult.mk physical_resource_id
             {[ "ThingGroupName" := group_name;
                "ThingGroupArn" := group_arn;
                "ThingGroupId" := group_id ]})).

Definition onUpdate (event : CfnEvent.t) : M CfnResult.t :=
  call (
    let group_name := prop event "ThingGroupName" in
    let physical_resource_id := CfnEvent.PhysicalResourceId event in
    ret (CfnResult.mk physical_resource_id ∅)).

Definition onDelete (event : CfnEvent.t) : M CfnResult.t :=
  call (
    (* Delete thing group - No need to remove things first *)
    let group_name := prop event "ThingGroupName" in
    let physical_resource_id := CfnEvent.PhysicalResourceId event in
    (try (
       _ <- send (DeleteThingGroupCommand group_name) ;;
       ret tt
     ) catch (fun error =>
       message <- template [ Lit "Unable to delete thing group "; Subst group_name;
                             Lit ": " ] ;;
       console_error message)) ;;
    ret (CfnResult.mk physical_resource_id ∅)).

Definition handler (event : CfnEvent.t) : M CfnResult.t :=
  let request_type := CfnEvent.RequestType event in
  if String.eqb request_type "Create" then onCreate event
  else if String.eqb request_type "Update" then onUpdate event
  else if String.eqb request_type "Delete" then onDelete event
  else throw (Error "Invalid request type").

End ThingGroupFn.

(** *** [greengrass-v2-deployment/assets/greengrass-v2-deployment-fn.ts] *)
Module GreengrassV2DeploymentFn.

Definition onCreate (event : CfnEvent.t) : M CfnResult.t :=
  call (
    (* Check if we're failing Creates *)
    if truthy (nullish (prop event "FailCreate") (JBool false)) then
      throw (Error "Create failure requested, logging")
    else
      let target_arn := prop event "TargetArn" in
      let deployment_name := prop event "DeploymentName" in
      let components := prop event "Components" in
      "physical_resource_id" ::= JStr "" ;;
      (* Create deployment *)
      (try (
         response <- send (CreateDeploymentCommand target_arn deployment_name components) ;;
         v <- member response "deploymentId" ;;
         "deployment_id" ::= v ;;
         v <- member response "iotJobId" ;;
         "iot_job_id" ::= v ;;
         v <- member response "iotJobArn" ;;
         "iot_job_arn" ::= v ;;
         v <- member response "deploymentId" ;;
         "physical_resource_id" ::= v
       ) catch (fun error =>
         message <- template [ Lit "Error calling create_deployment for target ";
                               Subst target_arn; Lit ", error: ";
                               Lit (exn_to_string error) ] ;;
         throw (Error message))) ;;
      physical_resource_id <- var "physical_resource_id" ;;
      deployment_id <- var "deployment_id" ;;
      iot_job_id <- var "iot_job_id" ;;
      iot_job_arn <- var "iot_job_arn" ;;
      ret (CfnResult.mk physical_resource_id
             {[ "DeploymentId" := deployment_id;
                "IotJobId" := iot_job_id;
                "IotJobArn" := iot_job_arn ]})).

Definition onUpdate (event : CfnEvent.t) : M CfnResult.t :=
  call (
    let deployment_id := prop event "DeploymentId" in
    let physical_resource_id := CfnEvent.PhysicalResourceId event in
    ret (CfnResult.mk physical_resource_id ∅)).

Definition onDelete (event : CfnEvent.t) : M CfnResult.t :=
  call (
    let deployment_id := prop event "DeploymentId" in
    let physical_resource_id := CfnEvent.PhysicalResourceId event in
    (* Cancel the deployment *)
    (try (
       response <- send (CancelDeploymentCommand deployment_id) ;;
       message <- template [ Lit "Successfully canceled Greengrass deployment ";
                             Subst deployment_id; Lit ", response was: " ] ;;
       console_info message
     ) catch (fun error =>
       message <- template
                    [ Lit "Error calling greengrassv2.CancelDeploymentCommand() for deployment id ";
                      Subst deployment_id; Lit ", error:" ] ;;
       console_warn message)) ;;
    message <- template [ Lit "Delete Request: Greengrass deployment ";
                          Subst deployment_id; Lit " successfully cancelled" ] ;;
    console_info message ;;
    ret (CfnResult.mk physical_resource_id ∅)).

Definition handler (event : CfnEvent.t) : M CfnResult.t :=
  let request_type := CfnEvent.RequestType event in
  if String.eqb request_type "Create" then onCreate event
  else if String.eqb request_type "Update" then onUpdate event
  else if String.eqb request_type "Delete" then onDelete event
  else throw (Error "Invalid request type").

End GreengrassV2DeploymentFn.

(** *** [iot-thing-cert-policy/assets/thing-cert-policy-fn.ts]

    (The file that follows [role-alias-fn.ts] in the source tree at hand.)
    [onCreate] and [onDelete] are sequences of [try]/[catch] blocks; each
    block is given a name here, taken from the comment that introduces it in
    the source. *)
Module ThingCertPolicyFn.

Definition sentinel : string := "stack_error: see log files".

(** [`/${stack_name}/${thing_name}/private_key`] and
    [`/${stack_name}/${thing_name}/certificate_pem`] *)
Definition parameter_private_key_literal (stack_name thing_name : JsVal) : list Piece :=
  [ Lit "/"; Subst stack_name; Lit "/"; Subst thing_name; Lit "/private_key" ].
Definition parameter_certificate_pem_literal (stack_name thing_name : JsVal) : list Piece :=
  [ Lit "/"; Subst stack_name; Lit "/"; Subst thing_name; Lit "/certificate_pem" ].

Section Create.
Variables (thing_name policy_name policy_document : JsVal).
Variables (parameter_private_key parameter_certificate_pem : string).

(* Create IoT thing *)
Definition create_thing : M unit :=
  try (
    response <- send (CreateThingCommand thing_name) ;;
    v <- member response "thingArn" ;;
    "thing_arn" ::= v
  ) catch (fun error => set_exitCode 1).

(* Create IoT certificate and keys *)
Definition create_keys_and_certificate : M unit :=
  try (
    response <- send (CreateKeysAndCertificateCommand true) ;;
    v <- member response "certificateArn" ;;
    "certificate_arn" ::= v ;;
    v <- member response "certificatePem" ;;
    "certificate_pem" ::= v ;;
    v <- member response "certificateId" ;;
    "physical_resource_id" ::= v ;;
    key_pair <- member response "keyPair" ;;
    v <- member key_pair "PrivateKey" ;;
    "private_key" ::= v
  ) catch (fun error => set_exitCode 1).

(* Create IoT policy *)
Definition create_policy : M unit :=
  try (
    response <- send (CreatePolicyCommand policy_document policy_name) ;;
    v <- member response "policyArn" ;;
    "policy_arn" ::= v
  ) catch (fun error => set_exitCode 1).

(* Attach certificate and policy *)
Definition attach_policy : M unit :=
  try (
    certificate_arn <- var "certificate_arn" ;;
    _ <- send (AttachPolicyCommand policy_name certificate_arn) ;;
    ret tt
  ) catch (fun error =>
    certificate_arn <- var "certificate_arn" ;;
    message <- template [ Lit "Error attaching certificate: "; Subst certificate_arn;
                          Lit " to policy: "; Subst policy_name; Lit ": " ] ;;
    console_error message ;;
    set_exitCode 1).

(* Attach thing and certificate *)
Definition attach_thing_principal : M unit :=
  try (
    certificate_arn <- var "certificate_arn" ;;
    _ <- send (AttachThingPrincipalCommand thing_name certificate_arn) ;;
    ret tt
  ) catch (fun error =>
    certificate_arn <- var "certificate_arn" ;;
    message <- template [ Lit "Error attaching certificate: "; Subst certificate_arn;
                          Lit " to thing: "; Subst thing_name; Lit ": " ] ;;
    console_error message ;;
    set_exitCode 1).

(* Store certificate and private key in SSM param store *)
Definition put_parameters : M unit :=
  try (
    (* Private key *)
    description <- template [ Lit "Certificate private key for IoT thing ";
                              Subst thing_name ] ;;
    private_key <- var "private_key" ;;
    _ <- send (PutParameterCommand parameter_private_key description
                 private_key "SecureString" "Advanced") ;;
    (* Certificate pem *)
    description <- template [ Lit "Certificate PEM for IoT thing "; Subst thing_name ] ;;
    certificate_pem <- var "certificate_pem" ;;
    _ <- send (PutParameterCommand parameter_certificate_pem description
                 certificate_pem "String" "Advanced") ;;
    ret tt
  ) catch (fun error => set_exitCode 1).

(* Get the IoT-Data endpoint *)
Definition data_ats_endpoint : M unit :=
  try (
    response <- send (DescribeEndpointCommand "iot:Data-ATS") ;;
    v <- member response "endpointAddress" ;;
    "data_ats_endpoint_address" ::= v
  ) catch (fun error => "data_ats_endpoint_address" ::= JStr sentinel).

(* Get the Credential Provider endpoint *)
Definition credential_provider_endpoint : M unit :=
  try (
    response <- send (DescribeEndpointCommand "iot:CredentialProvider") ;;
    v <- member response "endpointAddress" ;;
    "credential_provider_endpoint_address" ::= v
  ) catch (fun error => "credential_provider_endpoint_address" ::= JStr sentinel).

Definition create_result : M CfnResult.t :=
  physical_resource_id <- var "physical_resource_id" ;;
  thing_arn <- var "thing_arn" ;;
  certificate_arn <- var "certificate_arn" ;;
  policy_arn <- var "policy_arn" ;;
  data_ats_endpoint_address <- var "data_ats_endpoint_address" ;;
  credential_provider_endpoint_address <- var "credential_provider_endpoint_address" ;;
  ret (CfnResult.mk physical_resource_id
         {[ "ThingArn" := thing_arn;
            "ThingName" := thing_name;
            "CertificateArn" := certificate_arn;
            "IotPolicyArn" := policy_arn;
            "PrivateKeySecretParameter" := JStr parameter_private_key;
            "CertificatePemParameter" := JStr parameter_certificate_pem;
            "DataAtsEndpointAddress" := data_ats_endpoint_address;
            "CredentialProviderEndpointAddress" := credential_provider_endpoint_address ]}).

(** The eight blocks of [onCreate] and its [return]. *)
Definition create_blocks : M CfnResult.t :=
  create_thing ;;
  create_keys_and_certificate ;;
  create_policy ;;
  attach_policy ;;
  attach_thing_principal ;;
  put_parameters ;;
  (* Additional data - these calls and responses are used in other
     constructs or external applications *)
  data_ats_endpoint ;;
  credential_provider_endpoint ;;
  create_result.
End Create.

Definition onCreate (event : CfnEvent.t) : M CfnResult.t :=
  call (
    (* Check if we're failing Creates *)
    if truthy (nullish (prop event "FailCreate") (JBool false)) then
      throw (Error "Create failure requested, logging")
    else
      let thing_name := prop event "ThingName" in
      let policy_name := prop event "IotPolicyName" in
      let policy_document := prop event "IotPolicy" in
      let stack_name := prop event "StackName" in
      "physical_resource_id" ::= JStr "" ;;
      parameter_private_key <-
        template (parameter_private_key_literal stack_name thing_name) ;;
      parameter_certificate_pem <-
        template (parameter_certificate_pem_literal stack_name thing_name) ;;
      create_blocks thing_name policy_name policy_document
        parameter_private_key parameter_certificate_pem).

Definition onUpdate (event : CfnEvent.t) : M CfnResult.t :=
  call (
    let thing_name := prop event "ThingName" in
    let physical_resource_id := CfnEvent.PhysicalResourceId event in
    ret (CfnResult.mk physical_resource_id ∅)).

Section Delete.
Variables (certificate_arn thing_name policy_name : JsVal).
Variables (parameter_private_key parameter_certificate_pem : string).
Variable physical_resource_id : JsVal.

(* Delete certificate and private key from SSM param store *)
Definition delete_parameters : M unit :=
  try (
    _ <- send (DeleteParametersCommand
                 [parameter_private_key; parameter_certificate_pem]) ;;
    ret tt
  ) catch (fun error => ret tt).

(* Delete all non active policy versions *)
Definition delete_policy_versions : M unit :=
  try (
    response <- send (ListPolicyVersionsCommand policy_name) ;;
    policyVersions <- member response "policyVersions" ;;
    for_of "response.policyVersions" policyVersions (fun version =>
      isDefaultVersion <- member version "isDefaultVersion" ;;
      if negb (truthy isDefaultVersion) then
        versionId <- member version "versionId" ;;
        _ <- send (DeletePolicyVersionCommand policy_name versionId) ;;
        ret tt
      else ret tt)
  ) catch (fun error =>
    message <- template [ Lit "Unable to delete policy versions for policy ";
                          Subst policy_name; Lit ": " ] ;;
    console_error message).

(* Detach any principals *)
Definition detach_targets : M unit :=
  try (
    response <- send (ListTargetsForPolicyCommand policy_name) ;;
    targets <- member response "targets" ;;
    for_of "response.targets" targets (fun target =>
      _ <- send (DetachPolicyCommand policy_name target) ;;
      ret tt)
  ) catch (fun error =>
    message <- template [ Lit "Unable to detach targets from policy ";
                          Subst policy_name; Lit ": " ] ;;
    console_error message).

(* Delete policy *)
Definition delete_policy : M unit :=
  try (
    _ <- send (DeletePolicyCommand policy_name) ;;
    ret tt
  ) catch (fun error =>
    message <- template [ Lit "Unable to delete policy "; Subst policy_name; Lit ": " ] ;;
    console_error message).

(* Detach all policies and things from cert *)
Definition detach_certificate : M unit :=
  try (
    response <- send (ListPrincipalThingsCommand certificate_arn) ;;
    things <- member response "things" ;;
    for_of "response.things" things (fun thing =>
      _ <- send (DetachThingPrincipalCommand thing_name certificate_arn) ;;
      ret tt) ;;
    response <- send (ListAttachedPoliciesCommand certificate_arn) ;;
    policies <- member response "policies" ;;
    for_of "response.policies" policies (fun policy =>
      policyName <- member policy "policyName" ;;
      _ <- send (DetachPolicyCommand policyName certificate_arn) ;;
      ret tt)
  ) catch (fun error =>
    message <- template
                 [ Lit "Unable to list or detach things or policies from certificate ";
                   Subst certificate_arn; Lit ": " ] ;;
    console_error message).

(* Delete cert *)
Definition delete_certificate : M unit :=
  try (
    _ <- send (UpdateCertificateCommand physical_resource_id "REVOKED") ;;
    _ <- send (DeleteCertificateCommand physical_resource_id) ;;
    ret tt
  ) catch (fun error =>
    message <- template [ Lit "Unable to delete certificate "; Subst certificate_arn;
                          Lit ": " ] ;;
    console_error message).

(* Check and detach principals attached to thing *)
Definition detach_thing_principals : M unit :=
  try (
    response <- send (ListThingPrincipalsCommand thing_name) ;;
    principals <- member response "principals" ;;
    for_of "response.principals" principals (fun principal =>
      _ <- send (DetachThingPrincipalCommand thing_name principal) ;;
      ret tt)
  ) catch (fun error =>
    message <- template [ Lit "Unable to list or detach principals from ";
                          Subst thing_name; Lit ": " ] ;;
    console_error message).

(* Delete thing *)
Definition delete_thing : M unit :=
  try (
    _ <- send (DeleteThingCommand thing_name) ;;
    ret tt
  ) catch (fun error =>
    message <- template [ Lit "Error calling iot.DeleteThingCommand() for thing ";
                          Subst thing_name; Lit ": " ] ;;
    console_error message).

(** The eight blocks of [onDelete] and its [return]. *)
Definition delete_blocks : M CfnResult.t :=
  delete_parameters ;;
  delete_policy_versions ;;
  detach_targets ;;
  delete_policy ;;
  detach_certificate ;;
  delete_certificate ;;
  detach_thing_principals ;;
  delete_thing ;;
  ret (CfnResult.mk physical_resource_id ∅).
End Delete.

Definition onDelete (event : CfnEvent.t) : M CfnResult.t :=
  call (
    (* Delete thing, certificate, and policy in reverse order. *)
    let certificate_arn := prop event "CertificateArn" in
    let thing_name := prop event "ThingName" in
    let policy_name := prop event "IotPolicyName" in
    let stack_name := prop event "StackName" in
    let physical_resource_id := CfnEvent.PhysicalResourceId event in
    parameter_private_key <-
      template (parameter_private_key_literal stack_name thing_name) ;;
    parameter_certificate_pem <-
      template (parameter_certificate_pem_literal stack_name thing_name) ;;
    delete_blocks certificate_arn thing_name policy_name
      parameter_private_key parameter_certificate_pem physical_resource_id).

Definition handler (event : CfnEvent.t) : M CfnResult.t :=
  let request_type := CfnEvent.RequestType event in
  if String.eqb request_type "Create" then onCreate event
  else if String.eqb request_type "Update" then onUpdate event
  else if String.eqb request_type "Delete" then onDelete event
  else throw (Error "Invalid request type").

End ThingCertPolicyFn.

(** *** [greengrass-v2-deployment/greengrass-v2-deployment.ts] *)
Module GreengrassV2Deployment.

(** The construct's [componentList], with [process.exitCode] next to it. *)
Record t : Type := mk {
  componentList : gmap string JsVal;
  process_exitCode : option nat
}.

(** [Object.keys(o)]: the own keys of [o], each once.  What [addComponent]
    builds does not depend on their order. *)
Definition Object_keys (o : gmap string JsVal) : list string :=
  (map_to_list o).*1.

(** The callback of [forEach]. *)
Definition addComponent_key (component : gmap string JsVal) (this : t) (key : string) : t :=
  if js_in key (componentList this) then
    mk (componentList this) (Some 1)
  else
    mk (<[key := default JUndefined (component !! key)]> (componentList this))
       (process_exitCode this).

Definition addComponent (this : t) (component : gmap string JsVal) : t :=
  foldl (addComponent_key component) this (Object_keys component).

End GreengrassV2Deployment.


(** ** Resource kinds *)

(** The four kinds of compound resource, one per handler file. *)
Inductive Kind : Type :=
  | CredentialExchangeBinding   (* role-alias-fn.ts *)
  | DeviceIdentityBundle        (* thing-cert-policy-fn.ts *)
  | DeviceGroupMembership       (* thing-group-fn.ts *)
  | FleetDeployment.            (* greengrass-v2-deployment-fn.ts *)

#[global] Instance Kind_eq_dec : EqDecision Kind.
Proof. solve_decision. Defined.

Definition handle (k : Kind) : CfnEvent.t → M CfnResult.t :=
  match k with
  | CredentialExchangeBinding => RoleAliasFn.handler
  | DeviceIdentityBundle => ThingCertPolicyFn.handler
  | DeviceGroupMembership => ThingGroupFn.handler
  | FleetDeployment => GreengrassV2DeploymentFn.handler
  end.

Definition create (k : Kind) : CfnEvent.t → M CfnResult.t :=
  match k with
  | CredentialExchangeBinding => RoleAliasFn.onCreate
  | DeviceIdentityBundle => ThingCertPolicyFn.onCreate
  | DeviceGroupMembership => ThingGroupFn.onCreate
  | FleetDeployment => GreengrassV2DeploymentFn.onCreate
  end.

Definition update (k : Kind) : CfnEvent.t → M CfnResult.t :=
  match k with
  | CredentialExchangeBinding => RoleAliasFn.onUpdate
  | DeviceIdentityBundle => ThingCertPolicyFn.onUpdate
  | DeviceGroupMembership => ThingGroupFn.onUpdate
  | FleetDeployment => GreengrassV2DeploymentFn.onUpdate
  end.

Definition delete (k : Kind) : CfnEvent.t → M CfnResult.t :=
  match k with
  | CredentialExchangeBinding => RoleAliasFn.onDelete
  | DeviceIdentityBundle => ThingCertPolicyFn.onDelete
  | DeviceGroupMembership => ThingGroupFn.onDelete
  | FleetDeployment => GreengrassV2DeploymentFn.onDelete
  end.

(** ** Vocabulary of the statements *)

(** The force-fail flag, as every [onCreate] tests it. *)
Definition force_fail (event : CfnEvent.t) : bool :=
  truthy (nullish (prop event "FailCreate") (JBool false)).

Definition recognized_intent (event : CfnEvent.t) : bool :=
  String.eqb (CfnEvent.RequestType event) "Create"
  || String.eqb (CfnEvent.RequestType event) "Update"
  || String.eqb (CfnEvent.RequestType event) "Delete".

Definition is_thrown {A} (r : Result A) : bool :=
  match r with Ret _ => false | Thrown _ => true end.

Definition failed (o : Outcome) : bool :=
  match o with Ok _ => false | Fail _ _ => true end.

(** Member [f] of an output object, [undefined] when it is absent. *)
Definition field (o : gmap string JsVal) (f : string) : JsVal :=
  default JUndefined (o !! f).

(** Member [f] of the output of a call, [dflt] when the call failed. *)
Definition field_or (dflt : JsVal) (f : string) (o : Outcome) : JsVal :=
  match o with
  | Ok response => field response f
  | Fail _ _ => dflt
  end.

(** The elements a [for ... of] loop visits; none when the value is not
    iterable. *)
Definition elements (v : JsVal) : list JsVal := default [] (iterate v).

(** The calls of a loop that sends [mk x] for each [x] and stops at the first
    call that fails: every call up to and including that one. *)
Fixpoint until_failure (c : Client) (h : list Command)
    (mk : JsVal → Command) (l : list JsVal) : list Command :=
  match l with
  | [] => []
  | x :: l' =>
      mk x :: (if failed (c h (mk x)) then []
               else until_failure c (h ++ [mk x]) mk l')
  end.

(** [n]-th call of a trace failed, given the calls before it. *)
Definition failed_at (c : Client) (tr : list Command) (n : nat) : bool :=
  match tr !! n with
  | Some cmd => failed (c (take n tr) cmd)
  | None => false
  end.

Definition is_DeleteThing (cmd : Command) : bool :=
  match cmd with DeleteThingCommand _ => true | _ => false end.

Definition is_detach (cmd : Command) : bool :=
  match cmd with
  | DetachPolicyCommand _ _ | DetachThingPrincipalCommand _ _ => true
  | _ => false
  end.

Definition is_DescribeEndpoint (cmd : Command) : bool :=
  match cmd with DescribeEndpointCommand _ => true | _ => false end.

(** The value a variable reads as. *)
Definition read (st : State) (x : string) : JsVal := default JUndefined (vars st !! x).

Definition not_DeleteThing (cmd : Command) : bool := negb (is_DeleteThing cmd).

(** ** The calls of Create, in closed form *)

(** The one call of [RoleAliasFn.onCreate]. *)
Definition role_alias_create_command (event : CfnEvent.t) : Command :=
  CreateRoleAliasCommand (prop event "IotRoleAliasName") (prop event "IamRoleArn").

(** The one call of [GreengrassV2DeploymentFn.onCreate]. *)
Definition deployment_create_command (event : CfnEvent.t) : Command :=
  CreateDeploymentCommand (prop event "TargetArn") (prop event "DeploymentName")
    (prop event "Components").

(** The calls of [ThingGroupFn.onCreate]. *)
Definition group_create_command (event : CfnEvent.t) : Command :=
  CreateThingGroupCommand (prop event "ThingGroupName") (prop event "ThingGroupDescription").

Definition group_add_command (event : CfnEvent.t) (thing : JsVal) : Command :=
  AddThingToThingGroupCommand (prop event "ThingGroupName") thing.

(** A value that has a string conversion. *)
Definition printable (v : JsVal) : bool :=
  match ToString v with Some _ => true | None => false end.

Definition all_printable (vs : list JsVal) : bool := forallb printable vs.

(** What a template literal evaluates to when every value it substitutes
    has a string conversion. *)
Definition rendered (pieces : list Piece) : string := default EmptyString (render pieces).

(** The names of the two SSM parameters of a thing. *)
Definition private_key_parameter (event : CfnEvent.t) : string :=
  rendered (ThingCertPolicyFn.parameter_private_key_literal
              (prop event "StackName") (prop event "ThingName")).

Definition certificate_pem_parameter (event : CfnEvent.t) : string :=
  rendered (ThingCertPolicyFn.parameter_certificate_pem_literal
              (prop event "StackName") (prop event "ThingName")).

(** The two calls of [ThingCertPolicyFn.put_parameters], given the value
    they store. *)
Definition put_private_key (event : CfnEvent.t) (v : JsVal) : Command :=
  PutParameterCommand (private_key_parameter event)
    (rendered [Lit "Certificate private key for IoT thing "; Subst (prop event "ThingName")])
    v "SecureString" "Advanced".

Definition put_certificate_pem (event : CfnEvent.t) (v : JsVal) : Command :=
  PutParameterCommand (certificate_pem_parameter event)
    (rendered [Lit "Certificate PEM for IoT thing "; Subst (prop event "ThingName")])
    v "String" "Advanced".

Module BundleCreate.

(** What Create of a device identity bundle sends and returns, for a client
    [c] that has seen the calls [h] before. *)
Section ClosedForm.
Variables (event : CfnEvent.t) (c : Client) (h : list Command).

Definition create_thing_command : Command := CreateThingCommand (prop event "ThingName").
Definition create_keys_command : Command := CreateKeysAndCertificateCommand true.
Definition create_policy_command : Command :=
  CreatePolicyCommand (prop event "IotPolicy") (prop event "IotPolicyName").

Definition thing_outcome : Outcome := c h create_thing_command.
Definition keys_outcome : Outcome := c (h ++ [create_thing_command]) create_keys_command.
Definition policy_outcome : Outcome :=
  c (h ++ [create_thing_command; create_keys_command]) create_policy_command.

Definition certificate_arn : JsVal := field_or JUndefined "certificateArn" keys_outcome.
Definition certificate_pem : JsVal := field_or JUndefined "certificatePem" keys_outcome.
Definition private_key : JsVal :=
  match keys_outcome with
  | Ok r => match field r "keyPair" with
            | JObj key_pair => field key_pair "PrivateKey"
            | _ => JUndefined
            end
  | Fail _ _ => JUndefined
  end.

(** The calls of the first five blocks: one each, whatever failed. *)
Definition first_calls : list Command :=
  [ create_thing_command; create_keys_command; create_policy_command;
    AttachPolicyCommand (prop event "IotPolicyName") certificate_arn;
    AttachThingPrincipalCommand (prop event "ThingName") certificate_arn ].

Definition put_private_key_command : Command := put_private_key event private_key.
Definition put_certificate_pem_command : Command := put_certificate_pem event certificate_pem.

(** The calls of the sixth block: the second parameter is stored only
    when storing the first one succeeded. *)
Definition put_calls : list Command :=
  put_private_key_command ::
    (if failed (c (h ++ first_calls) put_private_key_command) then []
     else [put_certificate_pem_command]).

Definition data_ats_command : Command := DescribeEndpointCommand "iot:Data-ATS".
Definition credential_provider_command : Command :=
  DescribeEndpointCommand "iot:CredentialProvider".

Definition create_calls : list Command :=
  first_calls ++ put_calls ++ [data_ats_command; credential_provider_command].

Definition data_ats_outcome : Outcome :=
  c (h ++ first_calls ++ put_calls) data_ats_command.
Definition credential_provider_outcome : Outcome :=
  c (h ++ first_calls ++ put_calls ++ [data_ats_command]) credential_provider_command.

Definition create_outputs : CfnResult.t :=
  CfnResult.mk (field_or (JStr "") "certificateId" keys_outcome)
    {[ "ThingArn" := field_or JUndefined "thingArn" thing_outcome;
       "ThingName" := prop event "ThingName";
       "CertificateArn" := certificate_arn;
       "IotPolicyArn" := field_or JUndefined "policyArn" policy_outcome;
       "PrivateKeySecretParameter" := JStr (private_key_parameter event);
       "CertificatePemParameter" := JStr (certificate_pem_parameter event);
       "DataAtsEndpointAddress" :=
         field_or (JStr ThingCertPolicyFn.sentinel) "endpointAddress" data_ats_outcome;
       "CredentialProviderEndpointAddress" :=
         field_or (JStr ThingCertPolicyFn.sentinel) "endpointAddress" credential_provider_outcome ]}.
End ClosedForm.

End BundleCreate.

(** ** The values the handlers convert to strings

    A template literal that is evaluated outside every [try] block, or in
    a [catch] handler, raises a [TypeError] out of the handler when a value
    it substitutes has no string conversion.  These are the values such
    literals substitute: properties of the event and, for Create of a
    device identity bundle, the certificate ARN that the call creating the
    keys returned. *)
Definition create_interpolates (k : Kind) (event : CfnEvent.t)
    (c : Client) (h : list Command) : list JsVal :=
  match k with
  | CredentialExchangeBinding => []
  | DeviceIdentityBundle =>
      [ prop event "StackName"; prop event "ThingName"; prop event "IotPolicyName";
        BundleCreate.certificate_arn event c h ]
  | DeviceGroupMembership => [ prop event "ThingArnList"; prop event "ThingGroupName" ]
  | FleetDeployment => [ prop event "TargetArn" ]
  end.

Definition delete_interpolates (k : Kind) (event : CfnEvent.t) : list JsVal :=
  match k with
  | CredentialExchangeBinding => []
  | DeviceIdentityBundle =>
      [ prop event "StackName"; prop event "ThingName"; prop event "IotPolicyName";
        prop event "CertificateArn" ]
  | DeviceGroupMembership => [ prop event "ThingGroupName" ]
  | FleetDeployment => [ prop event "DeploymentId" ]
  end.

(** No [onUpdate] has a template literal. *)
Definition interpolates (k : Kind) (event : CfnEvent.t)
    (c : Client) (h : list Command) : list JsVal :=
  if String.eqb (CfnEvent.RequestType event) "Create" then create_interpolates k event c h
  else if String.eqb (CfnEvent.RequestType event) "Delete" then delete_interpolates k event
  else [].

(** ** The properties of the specification, as stated *)

(** The abort property of the specification: a call that fails is the last
    call of the invocation. *)
Definition stops_at_first_failure (c : Client) (tr : list Command) : Prop :=
  ∀ n, failed_at c tr n = true → length tr = S n.

(** The contract of the specification: the handler raises only on an
    unrecognized intent or on a Create with the force-fail flag. *)
Definition fails_only_on_bad_request (k : Kind) (event : CfnEvent.t)
    (c : Client) (st : State) : Prop :=
  is_thrown (handle k event c st).1 = true →
  recognized_intent event = false ∨
  (CfnEvent.RequestType event = "Create" ∧ force_fail event = true).

(** [c'] answers every command but [DescribeEndpoint] as [c] does. *)
Definition agree_except_endpoints (c c' : Client) : Prop :=
  ∀ h cmd, is_DescribeEndpoint cmd = false → c' h cmd = c h cmd.

(** Two outcomes of a Create that differ at most in the two endpoint
    outputs: both raise, or both return, with the same identity token and
    the same other outputs. *)
Definition same_but_endpoints (x y : Result CfnResult.t * State) : Prop :=
  match x.1, y.1 with
  | Ret result, Ret result' =>
      CfnResult.PhysicalResourceId result' = CfnResult.PhysicalResourceId result ∧
      ∀ key, key ≠ "DataAtsEndpointAddress" → key ≠ "CredentialProviderEndpointAddress" →
             CfnResult.Data result' !! key = CfnResult.Data result !! key
  | Thrown _, Thrown _ => True
  | _, _ => False
  end.

(** The claim about Delete of the specification: it returns the prior
    identity and no outputs. *)
Definition returns_prior_identity (k : Kind) (event : CfnEvent.t)
    (c : Client) (st : State) : Prop :=
  ∃ st', handle k event c st
         = (Ret (CfnResult.mk (CfnEvent.PhysicalResourceId event) ∅), st').

(** The claim about the teardown order of the specification: the deletion
    of the thing is attempted, as the last call. *)
Definition attempts_thing_deletion_last (event : CfnEvent.t)
    (c : Client) (st : State) : Prop :=
  ∃ pre, trace (handle DeviceIdentityBundle event c st).2
         = trace st ++ pre ++ [DeleteThingCommand (prop event "ThingName")].

(** ** Sample inputs *)

(** A client every call of which fails. *)
Definition unavailable : Client :=
  fun _ _ => Fail "ServiceUnavailableException" "Service unavailable".

(** A client every call of which succeeds, with the members the handlers
    read. *)
Definition healthy : Client :=
  fun _ cmd =>
    match cmd with
    | CreateRoleAliasCommand (JStr a) _ =>
        Ok {[ "roleAlias" := JStr a; "roleAliasArn" := JStr ("arn:rolealias/" +:+ a) ]}
    | CreateThingCommand (JStr t) => Ok {[ "thingArn" := JStr ("arn:thing/" +:+ t) ]}
    | CreateKeysAndCertificateCommand _ =>
        Ok {[ "certificateArn" := JStr "arn:cert/c1"; "certificateId" := JStr "c1";
              "certificatePem" := JStr "PEM";
              "keyPair" := JObj {[ "PrivateKey" := JStr "KEY" ]} ]}
    | CreatePolicyCommand _ (JStr p) => Ok {[ "policyArn" := JStr ("arn:policy/" +:+ p) ]}
    | DescribeEndpointCommand t => Ok {[ "endpointAddress" := JStr (t +:+ ".example.com") ]}
    | CreateThingGroupCommand (JStr g) _ =>
        Ok {[ "thingGroupArn" := JStr ("arn:thinggroup/" +:+ g); "thingGroupId" := JStr "g-1" ]}
    | CreateDeploymentCommand _ _ _ =>
        Ok {[ "deploymentId" := JStr "d-1"; "iotJobId" := JStr "j-1";
              "iotJobArn" := JStr "arn:job/j-1" ]}
    | ListPolicyVersionsCommand _ => Ok {[ "policyVersions" := JList [] ]}
    | ListTargetsForPolicyCommand _ => Ok {[ "targets" := JList [] ]}
    | ListPrincipalThingsCommand _ => Ok {[ "things" := JList [] ]}
    | ListAttachedPoliciesCommand _ => Ok {[ "policies" := JList [] ]}
    | ListThingPrincipalsCommand _ => Ok {[ "principals" := JList [] ]}
    | _ => Ok ∅
    end.

Definition bundle_event : CfnEvent.t :=
  CfnEvent.mk "Create"
    {[ "ThingName" := JStr "my-thing"; "IotPolicyName" := JStr "my-policy";
       "IotPolicy" := JStr "{}"; "StackName" := JStr "stack" ]} JUndefined.

Definition group_event : CfnEvent.t :=
  CfnEvent.mk "Create"
    {[ "ThingGroupName" := JStr "G1";
       "ThingArnList" := JList [JStr "arn:a"; JStr "arn:b"] ]} JUndefined.

Definition deployment_event : CfnEvent.t :=
  CfnEvent.mk "Create"
    {[ "TargetArn" := JStr "arn:target"; "DeploymentName" := JStr "d1";
       "Components" := JObj ∅ ]} JUndefined.

(** The certificate is attached to a thing other than the one of the
    resource (the attachment was changed after Create), and to one policy. *)
Definition attached_elsewhere : Client :=
  fun h cmd =>
    match cmd with
    | ListPrincipalThingsCommand _ => Ok {[ "things" := JList [JStr "other-thing"] ]}
    | ListAttachedPoliciesCommand _ =>
        Ok {[ "policies" := JList [JObj {[ "policyName" := JStr "other-policy" ]}] ]}
    | _ => healthy h cmd
    end.

Definition bundle_delete_event : CfnEvent.t :=
  CfnEvent.mk "Delete"
    {[ "CertificateArn" := JStr "arn:cert/c1"; "ThingName" := JStr "my-thing";
       "IotPolicyName" := JStr "my-policy"; "StackName" := JStr "stack" ]} (JStr "c1").

(** A JSON map with a member [toString]: a value that has no string
    conversion. *)
Definition unprintable : JsVal := JObj {[ "toString" := JStr "x" ]}.

(** A Delete event whose [ThingName] is such a map. *)
Definition unprintable_delete_event : CfnEvent.t :=
  CfnEvent.mk "Delete"
    {[ "CertificateArn" := JStr "arn:cert/c1"; "ThingName" := unprintable;
       "IotPolicyName" := JStr "my-policy"; "StackName" := JStr "stack" ]} (JStr "c1").

(** A Delete event whose [IotPolicyName] is such a map. *)
Definition unprintable_policy_event : CfnEvent.t :=
  CfnEvent.mk "Delete"
    {[ "CertificateArn" := JStr "arn:cert/c1"; "ThingName" := JStr "my-thing";
       "IotPolicyName" := unprintable; "StackName" := JStr "stack" ]} (JStr "c1").

(** The endpoint lookups fail and every other call succeeds. *)
Definition no_endpoints : Client :=
  fun h cmd =>
    match cmd with
    | DescribeEndpointCommand _ => Fail "InternalFailureException" "no endpoint"
    | _ => healthy h cmd
    end.

(** ** The constructs that declare the resources

    Each construct creates a [CustomResource] whose [properties] reach the
    handler as [event.ResourceProperties], grants the handler's role the
    actions of a few policy statements, and reads attributes of the resource
    with [getAttString].  These three parts of each constructor are embedded
    here; the CDK objects themselves are not. *)

(** [a || b] *)
Definition js_or (a b : JsVal) : JsVal := if truthy a then a else b.

(** The [ResourceProperties] of an event for a [CustomResource]: its
    [properties] and the service token. *)
Definition resource_properties (serviceToken : string)
    (properties : gmap string JsVal) : gmap string JsVal :=
  <["ServiceToken" := JStr serviceToken]> properties.

(** *** [iot-role-alias/iot-role-alias.ts] *)
Module IotRoleAlias.

Definition properties (stackName iotRoleAliasName iamRoleArn : string) : gmap string JsVal :=
  {[ "StackName" := JStr stackName;
     "IotRoleAliasName" := JStr iotRoleAliasName;
     "IamRoleArn" := JStr iamRoleArn ]}.

(** The actions of the statements added to [provider.onEventHandler.role]. *)
Definition actions : list string :=
  [ "iam:CreateRole"; "iam:DeleteRole"; "iam:DeleteRolePolicy"; "iam:DetachRolePolicy";
    "iam:ListAttachedRolePolicies"; "iam:ListRolePolicies"; "iam:PassRole";
    "iam:PutRolePolicy" ]
  ++ [ "iot:CreateRoleAlias"; "iot:DeleteRoleAlias" ].

(** The names passed to [customResource.getAttString]. *)
Definition attributes : list string := [ "RoleAliasArn" ].

End IotRoleAlias.

(** *** [iot-thing-cert-policy/iot-thing-cert-policy.ts] *)
Module IotThingCertPolicy.

(** [iotPolicy] is the policy document the lodash template rendered. *)
Definition properties (stackName thingName iotPolicy iotPolicyName : string)
    : gmap string JsVal :=
  {[ "StackName" := JStr stackName;
     "ThingName" := JStr thingName;
     "IotPolicy" := JStr iotPolicy;
     "IotPolicyName" := JStr iotPolicyName ]}.

Definition actions : list string :=
  [ "iot:CreateThing"; "iot:DeleteThing" ]
  ++ [ "iot:CreatePolicy"; "iot:DeletePolicy"; "iot:DeletePolicyVersion";
       "iot:ListPolicyVersions"; "iot:ListTargetsForPolicy" ]
  ++ [ "ssm:DeleteParameters"; "ssm:PutParameter" ]
  ++ [ "iot:AttachPolicy"; "iot:AttachThingPrincipal"; "iot:CreateKeysAndCertificate";
       "iot:DeleteCertificate"; "iot:DescribeEndpoint"; "iot:DetachPolicy";
       "iot:DetachThingPrincipal"; "iot:ListAttachedPolicies"; "iot:ListPrincipalThings";
       "iot:ListThingPrincipals"; "iot:UpdateCertificate" ].

Definition attributes : list string :=
  [ "CertificatePemParameter"; "PrivateKeySecretParameter"; "ThingArn"; "IotPolicyArn";
    "CertificateArn"; "DataAtsEndpointAddress"; "CredentialProviderEndpointAddress" ].

End IotThingCertPolicy.

(** *** [iot-thing-group/iot-thing-group.ts] *)
Module IotThingGroup.

(** The construct's [thingArnList].  The array itself is what [properties]
    holds, so things added after the constructor ran are in the properties
    when the stack is synthesized. *)
Record t : Type := mk {
  thingArnList : list string
}.

(** [private thingArnList: Array<string> = []] *)
Definition new : t := mk [].

Definition addThing (this : t) (thingArn : string) : t :=
  mk (thingArnList this ++ [thingArn]).

(** [thingGroupDescription] is optional: [undefined] when it is not
    given. *)
Definition properties (stackName thingGroupName : string) (thingGroupDescription : JsVal)
    (this : t) : gmap string JsVal :=
  {[ "StackName" := JStr stackName;
     "ThingGroupName" := JStr thingGroupName;
     "ThingGroupDescription" :=
       js_or thingGroupDescription (JStr "CloudFormation generated group");
     "ThingArnList" := JList (JStr <$> thingArnList this) ]}.

Definition actions : list string :=
  [ "iot:CreateThingGroup"; "iot:DeleteThingGroup" ] ++ [ "iot:AddThingToThingGroup" ].

Definition attributes : list string :=
  [ "ThingGroupName"; "ThingGroupArn"; "ThingGroupId" ].

End IotThingGroup.

(** *** [greengrass-v2-deployment/greengrass-v2-deployment.ts], the
    constructor *)
Module GreengrassV2DeploymentConstruct.

(** [Components] is the construct's [componentList] object itself, so
    components added by [addComponent] are in the properties when the stack
    is synthesized.  The three optional props are [undefined] when they are
    not given. *)
Definition properties (stackName targetArn deploymentName : string)
    (iotJobConfiguration deploymentPolicies tags : JsVal)
    (this : GreengrassV2Deployment.t) : gmap string JsVal :=
  {[ "StackName" := JStr stackName;
     "TargetArn" := JStr targetArn;
     "DeploymentName" := JStr deploymentName;
     "Components" := JObj (GreengrassV2Deployment.componentList this);
     "IotJobExecution" := js_or iotJobConfiguration (JObj ∅);
     "DeploymentPolicies" := js_or deploymentPolicies (JObj ∅);
     "Tags" := js_or tags (JObj ∅) ]}.

Definition actions : list string :=
  [ "greengrass:CancelDeployment"; "greengrass:CreateDeployment"; "iot:CancelJob";
    "iot:CreateJob"; "iot:DeleteThingShadow"; "iot:DescribeJob"; "iot:DescribeThing";
    "iot:DescribeThingGroup"; "iot:GetThingShadow"; "iot:UpdateJob";
    "iot:UpdateThingShadow" ].

Definition attributes : list string := [ "DeploymentId"; "IotJobId"; "IotJobArn" ].

End GreengrassV2DeploymentConstruct.

(** The construct that declares the resources of a kind. *)
Definition granted_actions (k : Kind) : list string :=
  match k with
  | CredentialExchangeBinding => IotRoleAlias.actions
  | DeviceIdentityBundle => IotThingCertPolicy.actions
  | DeviceGroupMembership => IotThingGroup.actions
  | FleetDeployment => GreengrassV2DeploymentConstruct.actions
  end.

Definition attributes_read (k : Kind) : list string :=
  match k with
  | CredentialExchangeBinding => IotRoleAlias.attributes
  | DeviceIdentityBundle => IotThingCertPolicy.attributes
  | DeviceGroupMembership => IotThingGroup.attributes
  | FleetDeployment => GreengrassV2DeploymentConstruct.attributes
  end.

(** The IAM action that authorizes a command: the name of its operation in
    the namespace of its service. *)
Definition iam_action (cmd : Command) : string :=
  match cmd with
  | CreateRoleAliasCommand _ _ => "iot:CreateRoleAlias"
  | DeleteRoleAliasCommand _ => "iot:DeleteRoleAlias"
  | CreateThingCommand _ => "iot:CreateThing"
  | CreateKeysAndCertificateCommand _ => "iot:CreateKeysAndCertificate"
  | CreatePolicyCommand _ _ => "iot:CreatePolicy"
  | AttachPolicyCommand _ _ => "iot:AttachPolicy"
  | AttachThingPrincipalCommand _ _ => "iot:AttachThingPrincipal"
  | DescribeEndpointCommand _ => "iot:DescribeEndpoint"
  | ListPolicyVersionsCommand _ => "iot:ListPolicyVersions"
  | DeletePolicyVersionCommand _ _ => "iot:DeletePolicyVersion"
  | ListTargetsForPolicyCommand _ => "iot:ListTargetsForPolicy"
  | DetachPolicyCommand _ _ => "iot:DetachPolicy"
  | DeletePolicyCommand _ => "iot:DeletePolicy"
  | ListPrincipalThingsCommand _ => "iot:ListPrincipalThings"
  | DetachThingPrincipalCommand _ _ => "iot:DetachThingPrincipal"
  | ListAttachedPoliciesCommand _ => "iot:ListAttachedPolicies"
  | UpdateCertificateCommand _ _ => "iot:UpdateCertificate"
  | DeleteCertificateCommand _ => "iot:DeleteCertificate"
  | ListThingPrincipalsCommand _ => "iot:ListThingPrincipals"
  | DeleteThingCommand _ => "iot:DeleteThing"
  | CreateThingGroupCommand _ _ => "iot:CreateThingGroup"
  | AddThingToThingGroupCommand _ _ => "iot:AddThingToThingGroup"
  | DeleteThingGroupCommand _ => "iot:DeleteThingGroup"
  | PutParameterCommand _ _ _ _ _ => "ssm:PutParameter"
  | DeleteParametersCommand _ => "ssm:DeleteParameters"
  | CreateDeploymentCommand _ _ _ => "greengrass:CreateDeployment"
  | CancelDeploymentCommand _ => "greengrass:CancelDeployment"
  end.

Definition is_granted (k : Kind) (cmd : Command) : bool :=
  bool_decide (iam_action cmd ∈ granted_actions k).

(** ** More vocabulary *)

(** [v.f] when it does not throw ([v] is neither [undefined] nor
    [null]). *)
Definition member_of (v : JsVal) (f : string) : JsVal :=
  match v with
  | JObj o => field o f
  | _ => JUndefined
  end.

Definition is_nullish (v : JsVal) : bool :=
  match v with JUndefined | JNull => true | _ => false end.

(** The versions the pruning loop deletes: those whose [isDefaultVersion] is
    not truthy. *)
Definition is_non_default (version : JsVal) : bool :=
  negb (truthy (member_of version "isDefaultVersion")).

(** The values a template literal substitutes. *)
Fixpoint substituted (pieces : list Piece) : list JsVal :=
  match pieces with
  | [] => []
  | Lit _ :: rest => substituted rest
  | Subst v :: rest => v :: substituted rest
  end.

(** [m] only appends, to the trace, commands that satisfy [Q]; whether it
    returns or throws. *)
Definition sends_only (Q : Command → Prop) {A} (m : M A) : Prop :=
  ∀ c st, ∃ new, trace (m c st).2 = trace st ++ new ∧ Forall Q new.

(** [m] only appends, to the trace, commands that satisfy [Q], and then at
    most the command [last]. *)
Definition sends_then (Q : Command → Prop) (last : Command) {A} (m : M A) : Prop :=
  ∀ c st, ∃ pre,
    Forall Q pre ∧
    (trace (m c st).2 = trace st ++ pre ∨ trace (m c st).2 = trace st ++ pre ++ [last]).

(** [m] only appends to the trace, and when it throws, the commands it has
    appended satisfy [Q]. *)
Definition throws_after_only (Q : Command → Prop) {A} (m : M A) : Prop :=
  ∀ c st, ∃ new,
    trace (m c st).2 = trace st ++ new ∧
    (is_thrown (m c st).1 = true → Forall Q new).

(** What [m] returns, when it returns, satisfies [R]. *)
Definition returns_only {A} (R : A → Prop) (m : M A) : Prop :=
  ∀ c st a st', m c st = (Ret a, st') → R a.

(** [m] runs the same with two clients that answer alike the commands
    accepted by [Q]: these are the only commands it sends. *)
Definition asks_only (Q : Command → bool) {A} (m : M A) : Prop :=
  ∀ c c' st, (∀ h cmd, Q cmd = true → c' h cmd = c h cmd) → m c' st = m c st.

(** [m] leaves the state as it is, whether it returns or throws. *)
Definition silent {A} (m : M A) : Prop := ∀ c st, (m c st).2 = st.

(** [m] leaves [process.exitCode] alone. *)
Definition keeps_exitCode {A} (m : M A) : Prop :=
  ∀ c st, exitCode (m c st).2 = exitCode st.

(** What the unwind loops of a device identity bundle may send. *)
Definition pruned_version (policy_name : JsVal) (o : Outcome) (cmd : Command) : Prop :=
  ∃ response version,
    o = Ok response ∧
    version ∈ elements (field response "policyVersions") ∧
    is_non_default version = true ∧
    cmd = DeletePolicyVersionCommand policy_name (member_of version "versionId").

Definition detaches_target (policy_name : JsVal) (cmd : Command) : Prop :=
  ∃ target, cmd = DetachPolicyCommand policy_name target.

Definition detaches_certificate (thing_name certificate_arn : JsVal) (cmd : Command) : Prop :=
  cmd = DetachThingPrincipalCommand thing_name certificate_arn ∨
  cmd = ListAttachedPoliciesCommand certificate_arn ∨
  ∃ policy_name, cmd = DetachPolicyCommand policy_name certificate_arn.

Definition detaches_principal (thing_name : JsVal) (cmd : Command) : Prop :=
  ∃ principal, cmd = DetachThingPrincipalCommand thing_name principal.

Definition touches_certificate (cmd : Command) : bool :=
  match cmd with
  | UpdateCertificateCommand _ _ | DeleteCertificateCommand _ => true
  | _ => false
  end.

(** An entry whose name no object inherits. *)
Definition own_name (entry : string * JsVal) : Prop := entry.1 ∉ object_prototype_keys.

(** Some call of [new] failed, for a client that had seen [h] before the
    first of them. *)
Fixpoint some_call_failed (c : Client) (h new : list Command) : bool :=
  match new with
  | [] => false
  | cmd :: rest => failed (c h cmd) || some_call_failed c (h ++ [cmd]) rest
  end.

(** The answer to [CreateKeysAndCertificate] has no [keyPair] to read the
    private key from. *)
Definition keyPair_missing (o : Outcome) : bool :=
  match o with
  | Ok response => is_nullish (field response "keyPair")
  | Fail _ _ => false
  end.

(** The names of the SSM parameters of a thing. *)
Definition parameter_names (event : CfnEvent.t) : list string :=
  [ private_key_parameter event; certificate_pem_parameter event ].

(** A deployment with no component yet, and one component to add. *)
Definition empty_deployment : GreengrassV2Deployment.t :=
  GreengrassV2Deployment.mk ∅ None.

Definition publisher_component : gmap string JsVal :=
  {[ "com.example.Publisher" := JObj {[ "componentVersion" := JStr "1.0.0" ]} ]}.

(** A policy with an older version beside its default one. *)
Definition two_policy_versions : list JsVal :=
  [ JObj {[ "versionId" := JStr "2"; "isDefaultVersion" := JBool true ]};
    JObj {[ "versionId" := JStr "1"; "isDefaultVersion" := JBool false ]} ].

Definition two_versions : Client :=
  fun h cmd =>
    match cmd with
    | ListPolicyVersionsCommand _ => Ok {[ "policyVersions" := JList two_policy_versions ]}
    | _ => healthy h cmd
    end.

(** * Reasoning principles for handler programs *)

Section Rules.
Context {A B : Type}.
Implicit Types (m : M A) (f : A → M B) (h : Exn → M A).
Implicit Types (Q : Command → Prop) (P : Command → bool).

Lemma bind_Ret m f c st a st' :
  m c st = (Ret a, st') → bind m f c st = f a c st'.
Proof. intros H. unfold bind. by rewrite H. Qed.

Lemma bind_Thrown m f c st e st' :
  m c st = (Thrown e, st') → bind m f c st = (Thrown e, st').
Proof. intros H. unfold bind. by rewrite H. Qed.

Lemma sends_only_ret Q (a : A) : sends_only Q (ret a).
Proof. intros c st. exists []. by rewrite app_nil_r. Qed.

Lemma sends_only_throw Q e : sends_only Q (throw (A:=A) e).
Proof. intros c st. exists []. by rewrite app_nil_r. Qed.

Lemma sends_only_bind Q m f :
  sends_only Q m → (∀ a, sends_only Q (f a)) → sends_only Q (bind m f).
Proof.
  intros Hm Hf c st. unfold bind.
  destruct (Hm c st) as (new & Ht & HQ).
  destruct (m c st) as [[a|e] st']; simpl in *; [|by eauto].
  destruct (Hf a c st') as (new' & Ht' & HQ').
  exists (new ++ new'). rewrite Ht', Ht, (assoc_L (++)).
  split; [done|]. by apply Forall_app.
Qed.

Lemma sends_only_try Q m h :
  sends_only Q m → (∀ e, sends_only Q (h e)) → sends_only Q (try_catch m h).
Proof.
  intros Hm Hh c st. unfold try_catch.
  destruct (Hm c st) as (new & Ht & HQ).
  destruct (m c st) as [[a|e] st']; simpl in *; [by eauto|].
  destruct (Hh e c st') as (new' & Ht' & HQ').
  exists (new ++ new'). rewrite Ht', Ht, (assoc_L (++)).
  split; [done|]. by apply Forall_app.
Qed.

Lemma sends_only_call Q m : sends_only Q m → sends_only Q (call m).
Proof.
  intros Hm c st. unfold call.
  destruct (Hm c (mkState ∅ (trace st) (exitCode st))) as (new & Ht & HQ).
  destruct (m c _) as [r st']. by exists new.
Qed.

Lemma sends_then_bind Q last m f :
  sends_only Q m → (∀ a, sends_then Q last (f a)) → sends_then Q last (bind m f).
Proof.
  intros Hm Hf c st. unfold bind.
  destruct (Hm c st) as (new & Ht & HQ).
  destruct (m c st) as [[a|e] st']; simpl in *; [|by eauto].
  destruct (Hf a c st') as (pre & HQ' & Ht').
  exists (new ++ pre). split; [by apply Forall_app|].
  rewrite Ht in Ht'. rewrite <- !(assoc_L (++)) in *. done.
Qed.

Lemma sends_then_call Q last m : sends_then Q last m → sends_then Q last (call m).
Proof.
  intros Hm c st. unfold call.
  destruct (Hm c (mkState ∅ (trace st) (exitCode st))) as (pre & HQ & Ht).
  destruct (m c _) as [r st']. by exists pre.
Qed.

Lemma throws_after_only_sends Q m : sends_only Q m → throws_after_only Q m.
Proof. intros Hm c st. destruct (Hm c st) as (new & Ht & HQ). eauto. Qed.

Lemma throws_after_only_bind Q m f :
  sends_only Q m → (∀ a, throws_after_only Q (f a)) → throws_after_only Q (bind m f).
Proof.
  intros Hm Hf c st. unfold bind.
  destruct (Hm c st) as (new & Ht & HQ).
  destruct (m c st) as [[a|e] st']; simpl in *; [|by eauto].
  destruct (Hf a c st') as (new' & Ht' & HQ').
  exists (new ++ new'). rewrite Ht', Ht, (assoc_L (++)).
  split; [done|]. intros Hthrown. apply Forall_app. auto.
Qed.

Lemma throws_after_only_call Q m : throws_after_only Q m → throws_after_only Q (call m).
Proof.
  intros Hm c st. unfold call.
  destruct (Hm c (mkState ∅ (trace st) (exitCode st))) as (new & Ht & HQ).
  destruct (m c _) as [r st']. by exists new.
Qed.

Lemma keeps_exitCode_ret (a : A) : keeps_exitCode (ret a).
Proof. done. Qed.

Lemma keeps_exitCode_throw e : keeps_exitCode (throw (A:=A) e).
Proof. done. Qed.

Lemma keeps_exitCode_bind m f :
  keeps_exitCode m → (∀ a, keeps_exitCode (f a)) → keeps_exitCode (bind m f).
Proof.
  intros Hm Hf c st. unfold bind. specialize (Hm c st).
  destruct (m c st) as [[a|e] st']; simpl in *; [|done].
  by rewrite Hf.
Qed.

Lemma keeps_exitCode_try m h :
  keeps_exitCode m → (∀ e, keeps_exitCode (h e)) → keeps_exitCode (try_catch m h).
Proof.
  intros Hm Hh c st. unfold try_catch. specialize (Hm c st).
  destruct (m c st) as [[a|e] st']; simpl in *; [done|].
  by rewrite Hh.
Qed.

Lemma keeps_exitCode_call m : keeps_exitCode m → keeps_exitCode (call m).
Proof.
  intros Hm c st. unfold call.
  specialize (Hm c (mkState ∅ (trace st) (exitCode st))).
  by destruct (m c _) as [r st'].
Qed.

(** A function call gives the caller its variables back. *)
Lemma call_vars m c st : vars (call m c st).2 = vars st.
Proof. unfold call. by destruct (m c _). Qed.

Lemma returns_only_ret (R : A → Prop) (a : A) : R a → returns_only R (ret a).
Proof. intros HR c st a' st' [= <- _]. done. Qed.

Lemma returns_only_throw (R : A → Prop) e : returns_only R (throw e).
Proof. by intros c st a st'. Qed.

Lemma returns_only_bind (R : B → Prop) m f :
  (∀ a, returns_only R (f a)) → returns_only R (bind m f).
Proof.
  intros Hf c st b st'. unfold bind.
  destruct (m c st) as [[a|e] st1]; [apply Hf|done].
Qed.

Lemma returns_only_call (R : A → Prop) m : returns_only R m → returns_only R (call m).
Proof.
  intros Hm c st a st'. unfold call.
  destruct (m c _) as [r st1] eqn:Hr. intros [= -> _]. by eapply Hm.
Qed.

Lemma asks_only_bind P m f :
  asks_only P m → (∀ a, asks_only P (f a)) → asks_only P (bind m f).
Proof.
  intros Hm Hf c c' st Hc. unfold bind. rewrite (Hm c c' st Hc).
  destruct (m c st) as [[a|e] st']; [by apply Hf|done].
Qed.

Lemma asks_only_try P m h :
  asks_only P m → (∀ e, asks_only P (h e)) → asks_only P (try_catch m h).
Proof.
  intros Hm Hh c c' st Hc. unfold try_catch. rewrite (Hm c c' st Hc).
  destruct (m c st) as [[a|e] st']; [done|by apply Hh].
Qed.

Lemma asks_only_call P m : asks_only P m → asks_only P (call m).
Proof. intros Hm c c' st Hc. unfold call. by rewrite (Hm c c' _ Hc). Qed.

(** A program that does not look at the client. *)
Lemma asks_only_pure P m : (∀ c c' st, m c' st = m c st) → asks_only P m.
Proof. intros H c c' st _. apply H. Qed.
End Rules.

(** ** Template literals *)

Lemma printable_Some v : printable v = true → ∃ s, ToString v = Some s.
Proof. unfold printable. destruct (ToString v); [by eexists|done]. Qed.

Lemma render_rendered pieces :
  all_printable (substituted pieces) = true → render pieces = Some (rendered pieces).
Proof.
  unfold rendered. induction pieces as [|[s|v] pieces IH]; simpl; [done| |].
  - intros H. by rewrite (IH H).
  - intros H. apply andb_prop in H as [Hv H].
    destruct (printable_Some v Hv) as [s ->]. by rewrite (IH H).
Qed.

Lemma render_None pieces :
  all_printable (substituted pieces) = false → render pieces = None.
Proof.
  induction pieces as [|[s|v] pieces IH]; simpl; [done| |].
  - intros H. by rewrite (IH H).
  - unfold printable at 1. destruct (ToString v); simpl; [|done].
    intros H. by rewrite (IH H).
Qed.

Lemma template_run pieces c st :
  all_printable (substituted pieces) = true →
  template pieces c st = (Ret (rendered pieces), st).
Proof. intros H. unfold template. by rewrite (render_rendered pieces H). Qed.

Lemma template_throws pieces c st :
  all_printable (substituted pieces) = false →
  template pieces c st
  = (Thrown (TypeError "Cannot convert object to primitive value"), st).
Proof. intros H. unfold template. by rewrite (render_None pieces H). Qed.

Lemma template_silent pieces : silent (template pieces).
Proof. intros c st. unfold template. by destruct (render pieces). Qed.

Lemma sends_only_template (Q : Command → Prop) pieces : sends_only Q (template pieces).
Proof.
  intros c st. exists []. by rewrite template_silent, app_nil_r.
Qed.

Lemma keeps_exitCode_template pieces : keeps_exitCode (template pieces).
Proof. intros c st. by rewrite template_silent. Qed.

Lemma asks_only_template P pieces : asks_only P (template pieces).
Proof. apply asks_only_pure. intros c c' st. unfold template. by destruct (render pieces). Qed.

(** A strings-only list has a string conversion. *)
Lemma printable_strings (l : list string) : printable (JList (JStr <$> l)) = true.
Proof.
  unfold printable. cbn [ToString].
  match goal with |- context [fmap _ (?join (JStr <$> l))] =>
    assert (H : ∃ ss, join (JStr <$> l) = Some ss) end.
  { induction l as [|s l [ss IH]]; [by eexists|].
    cbn [fmap list_fmap]. cbn [fmap list_fmap] in IH. rewrite IH. by eexists. }
  destruct H as [ss ->]. done.
Qed.

(** ** The other primitives *)

Lemma sends_only_send (Q : Command → Prop) cmd : Q cmd → sends_only Q (send cmd).
Proof.
  intros HQ c st. unfold send. exists [cmd].
  destruct (c (trace st) cmd); by repeat constructor.
Qed.

Lemma sends_only_var Q x : sends_only Q (var x).
Proof. intros c st. exists []. by rewrite app_nil_r. Qed.

Lemma sends_only_assign Q x v : sends_only Q (assign x v).
Proof. intros c st. exists []. by rewrite app_nil_r. Qed.

Lemma sends_only_set_exitCode Q n : sends_only Q (set_exitCode n).
Proof. intros c st. exists []. by rewrite app_nil_r. Qed.

Lemma sends_only_member Q v f : sends_only Q (member v f).
Proof. destruct v; first [apply sends_only_ret | apply sends_only_throw]. Qed.

Lemma sends_only_for_each Q (l : list JsVal) body :
  (∀ x, x ∈ l → sends_only Q (body x)) → sends_only Q (for_each l body).
Proof.
  induction l as [|x l IH]; intros Hb; simpl.
  - apply sends_only_ret.
  - apply sends_only_bind; [apply Hb; by left|intros _].
    apply IH. intros y Hy. apply Hb. by right.
Qed.

Lemma sends_only_for_of Q source v body :
  (∀ x, x ∈ elements v → sends_only Q (body x)) → sends_only Q (for_of source v body).
Proof.
  intros Hb. unfold for_of, elements in *. destruct (iterate v); simpl in *.
  - by apply sends_only_for_each.
  - apply sends_only_throw.
Qed.

Lemma sends_only_weaken (Q Q' : Command → Prop) {A} (m : M A) :
  (∀ cmd, Q cmd → Q' cmd) → sends_only Q m → sends_only Q' m.
Proof.
  intros HQ Hm c st. destruct (Hm c st) as (new & Ht & Hn).
  exists new. split; [done|]. by eapply Forall_impl.
Qed.

Lemma sends_only_bind_throw (Q : Command → Prop) {A B} e (f : A → M B) :
  sends_only Q (bind (throw e) f).
Proof. intros c st. exists []. by rewrite app_nil_r. Qed.

Lemma sends_only_bind_ret (Q : Command → Prop) {A B} (a : A) (f : A → M B) :
  sends_only Q (f a) → sends_only Q (bind (ret a) f).
Proof. intros H c st. exact (H c st). Qed.

Lemma keeps_exitCode_send cmd : keeps_exitCode (send cmd).
Proof. intros c st. unfold send. by destruct (c _ _). Qed.

Lemma keeps_exitCode_member v f : keeps_exitCode (member v f).
Proof. by destruct v. Qed.

Lemma keeps_exitCode_for_each l body :
  (∀ x, keeps_exitCode (body x)) → keeps_exitCode (for_each l body).
Proof.
  intros Hb. induction l as [|x l IH]; simpl; [done|].
  apply keeps_exitCode_bind; [apply Hb|by intros _].
Qed.

Lemma keeps_exitCode_for_of source v body :
  (∀ x, keeps_exitCode (body x)) → keeps_exitCode (for_of source v body).
Proof.
  intros Hb. unfold for_of. destruct (iterate v); [by apply keeps_exitCode_for_each|done].
Qed.

Lemma asks_only_send (P : Command → bool) cmd : P cmd = true → asks_only P (send cmd).
Proof. intros HP c c' st Hc. unfold send. by rewrite (Hc _ _ HP). Qed.

Lemma asks_only_member P v f : asks_only P (member v f).
Proof. apply asks_only_pure. intros c c' st. by destruct v. Qed.

Lemma asks_only_for_each P l body :
  (∀ x, asks_only P (body x)) → asks_only P (for_each l body).
Proof.
  intros Hb. induction l as [|x l IH]; simpl.
  - by apply asks_only_pure.
  - apply asks_only_bind; [apply Hb|by intros _].
Qed.

Lemma asks_only_for_of P source v body :
  (∀ x, asks_only P (body x)) → asks_only P (for_of source v body).
Proof.
  intros Hb. unfold for_of. destruct (iterate v).
  - by apply asks_only_for_each.
  - by apply asks_only_pure.
Qed.

Ltac solve_elem := apply (bool_decide_unpack _); by vm_compute.

(** Steps through a program that sends commands; [tac] shows that a command
    sent is an allowed one. *)
Ltac sends_step tac :=
  lazymatch goal with
  | |- sends_only _ (ret _) => apply sends_only_ret
  | |- sends_only _ (throw _) => apply sends_only_throw
  | |- sends_only _ (bind _ _) => apply sends_only_bind; [|intros ?]
  | |- sends_only _ (try_catch _ _) => apply sends_only_try; [|intros ?]
  | |- sends_only _ (call _) => apply sends_only_call
  | |- sends_only _ (send _) => apply sends_only_send; tac
  | |- sends_only _ (var _) => apply sends_only_var
  | |- sends_only _ (assign _ _) => apply sends_only_assign
  | |- sends_only _ (set_exitCode _) => apply sends_only_set_exitCode
  | |- sends_only _ (member _ _) => apply sends_only_member
  | |- sends_only _ (template _) => apply sends_only_template
  | |- sends_only _ (console_info _) => apply sends_only_ret
  | |- sends_only _ (console_warn _) => apply sends_only_ret
  | |- sends_only _ (console_error _) => apply sends_only_ret
  | |- sends_only _ (for_of _ _ _) => apply sends_only_for_of; intros ? ?
  | |- sends_only _ (if ?b then _ else _) => destruct b
  end.

Ltac solve_sends tac := repeat sends_step tac.

Ltac keeps_step :=
  lazymatch goal with
  | |- keeps_exitCode (ret _) => apply keeps_exitCode_ret
  | |- keeps_exitCode (throw _) => apply keeps_exitCode_throw
  | |- keeps_exitCode (bind _ _) => apply keeps_exitCode_bind; [|intros ?]
  | |- keeps_exitCode (try_catch _ _) => apply keeps_exitCode_try; [|intros ?]
  | |- keeps_exitCode (call _) => apply keeps_exitCode_call
  | |- keeps_exitCode (send _) => apply keeps_exitCode_send
  | |- keeps_exitCode (var _) => done
  | |- keeps_exitCode (assign _ _) => done
  | |- keeps_exitCode (member _ _) => apply keeps_exitCode_member
  | |- keeps_exitCode (template _) => apply keeps_exitCode_template
  | |- keeps_exitCode (console_info _) => done
  | |- keeps_exitCode (console_warn _) => done
  | |- keeps_exitCode (console_error _) => done
  | |- keeps_exitCode (for_of _ _ _) => apply keeps_exitCode_for_of; intros ?
  | |- keeps_exitCode (if ?b then _ else _) => destruct b
  end.

Ltac solve_keeps := repeat keeps_step.

Ltac asks_step :=
  lazymatch goal with
  | |- asks_only _ (bind _ _) => apply asks_only_bind; [|intros ?]
  | |- asks_only _ (try_catch _ _) => apply asks_only_try; [|intros ?]
  | |- asks_only _ (call _) => apply asks_only_call
  | |- asks_only _ (send _) => apply asks_only_send; reflexivity
  | |- asks_only _ (member _ _) => apply asks_only_member
  | |- asks_only _ (template _) => apply asks_only_template
  | |- asks_only _ (for_of _ _ _) => apply asks_only_for_of; intros ?
  | |- asks_only _ (if ?b then _ else _) => destruct b
  | |- asks_only _ _ => by apply asks_only_pure
  end.

Ltac solve_asks := repeat asks_step.

Ltac returns_step :=
  lazymatch goal with
  | |- returns_only _ (bind _ _) => apply returns_only_bind; intros ?
  | |- returns_only _ (call _) => apply returns_only_call
  | |- returns_only _ (throw _) => apply returns_only_throw
  | |- returns_only _ (if ?b then _ else _) => destruct b
  end.

Ltac solve_returns := repeat returns_step.

(** Splits a hypothesis [all_printable [v1; ...; vn] = true]. *)
Ltac split_printable H :=
  unfold all_printable in H; simpl in H;
  repeat (let H' := fresh "Hp" in apply andb_prop in H as [H' H]);
  clear H.

Ltac solve_printable :=
  unfold all_printable; simpl;
  repeat (apply andb_true_intro; split); first [assumption | reflexivity].

(** ** Blocks that log what they catch *)

Lemma log_silent pieces :
  silent (message <- template pieces ;; console_error message).
Proof.
  intros c st. unfold bind, template, console_error. by destruct (render pieces).
Qed.

Lemma log_run pieces c st :
  all_printable (substituted pieces) = true →
  (message <- template pieces ;; console_error message) c st = (Ret tt, st).
Proof. intros H. unfold bind. by rewrite template_run. Qed.

(** A block [try { response = send(cmd); rest } catch { h }] whose handler
    leaves the state alone: the call is sent, and what follows it in the
    trace comes from [rest], which only runs on the answer of a successful
    call.  The block returns when its handler does. *)
Lemma list_block_run (Q : Command → Prop) cmd (rest : JsVal → M unit) h c st :
  (∀ response, c (trace st) cmd = Ok response → sends_only Q (rest (JObj response))) →
  (∀ e, silent (h e)) →
  ∃ r st' xs,
    try_catch (bind (send cmd) rest) h c st = (r, st') ∧
    trace st' = trace st ++ cmd :: xs ∧ Forall Q xs ∧
    ((∀ e c st, h e c st = (Ret tt, st)) → r = Ret tt).
Proof.
  intros Hrest Hh. unfold try_catch, bind, send.
  destruct (c (trace st) cmd) as [response|n msg] eqn:Ho; simpl.
  - destruct (Hrest response eq_refl c (mkState (vars st) (trace st ++ [cmd]) (exitCode st)))
      as (xs & Ht & HQ).
    destruct (rest _ c _) as [[[]|e] st'] eqn:Hr; simpl in *.
    + exists (Ret tt), st', xs. rewrite Ht, <- (assoc_L (++)). done.
    + pose proof (Hh e c st') as Hs.
      destruct (h e c st') as [r st''] eqn:Hhe. simpl in Hs. subst st''.
      exists r, st', xs. rewrite Ht, <- (assoc_L (++)).
      repeat split; try done. intros Hret. rewrite Hret in Hhe. by injection Hhe as <-.
  - pose proof (Hh (ServiceException n msg) c
                  (mkState (vars st) (trace st ++ [cmd]) (exitCode st))) as Hs.
    destruct (h _ c _) as [r st''] eqn:Hhe. simpl in Hs. subst st''.
    exists r, (mkState (vars st) (trace st ++ [cmd]) (exitCode st)), [].
    repeat split; try done. intros Hret. rewrite Hret in Hhe. by injection Hhe as <-.
Qed.

(** A block [try { send(cmd) } catch { h }]. *)
Lemma single_call_block_run cmd h c st :
  (∀ e, silent (h e)) →
  ∃ r st',
    try_catch (bind (send cmd) (fun _ => ret tt)) h c st = (r, st') ∧
    trace st' = trace st ++ [cmd] ∧
    ((∀ e c st, h e c st = (Ret tt, st)) → r = Ret tt).
Proof.
  intros Hh.
  destruct (list_block_run (λ _, False) cmd (fun _ => ret tt) h c st)
    as (r & st' & xs & Hr & Ht & HQ & Hret); [|done|].
  { intros response _ c' st'. exists []. by rewrite app_nil_r. }
  destruct xs as [|x xs]; [|by apply Forall_cons in HQ as [[] _]].
  by exists r, st'.
Qed.

(** ** Update *)

Lemma update_run k event c st :
  update k event c st = (Ret (CfnResult.mk (CfnEvent.PhysicalResourceId event) ∅), st).
Proof. by destruct k, st. Qed.

(** ** Delete of a device identity bundle, block by block *)

Section BundleUnwind.
Import ThingCertPolicyFn.

Section UnwindBlocks.
Variables (certificate_arn thing_name policy_name pid : JsVal).
Variables (c : Client) (st : State).

Lemma delete_parameters_run names1 names2 :
  ∃ st',
    delete_parameters names1 names2 c st = (Ret tt, st') ∧
    trace st' = trace st ++ [DeleteParametersCommand [names1; names2]].
Proof.
  unfold delete_parameters, try_catch, bind, send, ret. destruct (c (trace st) _); eauto.
Qed.

Lemma delete_policy_versions_run :
  let cmd := ListPolicyVersionsCommand policy_name in
  ∃ r st' vs,
    delete_policy_versions policy_name c st = (r, st') ∧
    trace st' = trace st ++ cmd :: vs ∧
    Forall (pruned_version policy_name (c (trace st) cmd)) vs ∧
    (printable policy_name = true → r = Ret tt).
Proof.
  intros cmd.
  destruct (list_block_run (pruned_version policy_name (c (trace st) cmd)) cmd
              (fun response =>
                 policyVersions <- member response "policyVersions" ;;
                 for_of "response.policyVersions" policyVersions (fun version =>
                   isDefaultVersion <- member version "isDefaultVersion" ;;
                   if negb (truthy isDefaultVersion) then
                     versionId <- member version "versionId" ;;
                     _ <- send (DeletePolicyVersionCommand policy_name versionId) ;;
                     ret tt
                   else ret tt))
              (fun error =>
                 message <- template [ Lit "Unable to delete policy versions for policy ";
                                       Subst policy_name; Lit ": " ] ;;
                 console_error message) c st)
    as (r & st' & vs & Hr & Ht & HQ & Hret).
  - intros response Ho. simpl.
    apply sends_only_bind_ret.
    apply sends_only_for_of. intros version Hv.
    assert (Hsend : is_non_default version = true →
                    sends_only (pruned_version policy_name (c (trace st) cmd))
                      (_ <- send (DeletePolicyVersionCommand policy_name
                                    (member_of version "versionId")) ;; ret tt)).
    { intros Hd. apply sends_only_bind; [|intros _; apply sends_only_ret].
      apply sends_only_send. by exists response, version. }
    destruct version as [| |b|s|l|o]; simpl.
    + apply sends_only_bind_throw.
    + apply sends_only_bind_throw.
    + apply sends_only_bind_ret; simpl. apply sends_only_bind_ret. by apply Hsend.
    + apply sends_only_bind_ret; simpl. apply sends_only_bind_ret. by apply Hsend.
    + apply sends_only_bind_ret; simpl. apply sends_only_bind_ret. by apply Hsend.
    + apply sends_only_bind_ret.
      unfold is_non_default in Hsend. simpl in Hsend. unfold field in Hsend.
      destruct (truthy (default JUndefined (o !! "isDefaultVersion"))); simpl.
      * apply sends_only_ret.
      * apply sends_only_bind_ret. by apply Hsend.
  - intros e. apply log_silent.
  - exists r, st', vs. repeat split; try done.
    intros Hp. apply Hret. intros e c' st''. apply log_run. solve_printable.
Qed.

Lemma detach_targets_run :
  let cmd := ListTargetsForPolicyCommand policy_name in
  ∃ r st' ts,
    detach_targets policy_name c st = (r, st') ∧
    trace st' = trace st ++ cmd :: ts ∧
    Forall (detaches_target policy_name) ts ∧
    (printable policy_name = true → r = Ret tt).
Proof.
  intros cmd. unfold detach_targets.
  match goal with |- context [try_catch (bind (send _) ?rest) ?h] =>
    destruct (list_block_run (detaches_target policy_name) cmd rest h c st)
      as (r & st' & ts & Hr & Ht & HQ & Hret) end.
  - intros response Ho. solve_sends ltac:(by eexists).
  - intros e. apply log_silent.
  - exists r, st', ts. repeat split; try done.
    intros Hp. apply Hret. intros e c' st''. apply log_run. solve_printable.
Qed.

Lemma delete_policy_run :
  ∃ r st',
    delete_policy policy_name c st = (r, st') ∧
    trace st' = trace st ++ [DeletePolicyCommand policy_name] ∧
    (printable policy_name = true → r = Ret tt).
Proof.
  unfold delete_policy.
  match goal with |- context [try_catch _ ?h] =>
    destruct (single_call_block_run (DeletePolicyCommand policy_name) h c st)
      as (r & st' & Hr & Ht & Hret) end.
  - intros e. apply log_silent.
  - exists r, st'. repeat split; try done.
    intros Hp. apply Hret. intros e c' st''. apply log_run. solve_printable.
Qed.

Lemma detach_certificate_run :
  let cmd := ListPrincipalThingsCommand certificate_arn in
  ∃ r st' ds,
    detach_certificate certificate_arn thing_name c st = (r, st') ∧
    trace st' = trace st ++ cmd :: ds ∧
    Forall (detaches_certificate thing_name certificate_arn) ds ∧
    (printable certificate_arn = true → r = Ret tt).
Proof.
  intros cmd. unfold detach_certificate.
  match goal with |- context [try_catch (bind (send _) ?rest) ?h] =>
    destruct (list_block_run (detaches_certificate thing_name certificate_arn) cmd rest h c st)
      as (r & st' & ds & Hr & Ht & HQ & Hret) end.
  - intros response Ho.
    solve_sends ltac:(first [by left | by right; left | by right; right; eexists]).
  - intros e. apply log_silent.
  - exists r, st', ds. repeat split; try done.
    intros Hp. apply Hret. intros e c' st''. apply log_run. solve_printable.
Qed.

Lemma delete_certificate_run :
  let revoke := UpdateCertificateCommand pid "REVOKED" in
  ∃ r st',
    delete_certificate certificate_arn pid c st = (r, st') ∧
    trace st' = trace st ++ revoke ::
                  (if failed (c (trace st) revoke) then []
                   else [DeleteCertificateCommand pid]) ∧
    (printable certificate_arn = true → r = Ret tt).
Proof.
  intros revoke.
  assert (Hlog : ∀ st1, ∃ r,
    (message <- template [ Lit "Unable to delete certificate "; Subst certificate_arn;
                           Lit ": " ] ;; console_error message) c st1 = (r, st1) ∧
    (printable certificate_arn = true → r = Ret tt)).
  { intros st1. pose proof (log_silent [ Lit "Unable to delete certificate ";
                                         Subst certificate_arn; Lit ": " ] c st1) as Hs.
    destruct (bind _ _ c st1) as [r st2] eqn:Hr. simpl in Hs. subst st2.
    exists r. split; [done|]. intros Hp. rewrite log_run in Hr by solve_printable.
    by injection Hr as <-. }
  unfold delete_certificate, try_catch. unfold bind at 1. unfold send at 1. fold revoke.
  destruct (c (trace st) revoke) as [response|n msg]; simpl.
  - unfold bind at 1. unfold send at 1. simpl. rewrite <- (assoc_L (++)). simpl.
    destruct (c _ (DeleteCertificateCommand pid)); simpl.
    + unfold ret. by eexists _, _.
    + destruct (Hlog (mkState (vars st)
                        (trace st ++ [revoke; DeleteCertificateCommand pid]) (exitCode st)))
        as (r & -> & Hret).
      by eexists _, _.
  - destruct (Hlog (mkState (vars st) (trace st ++ [revoke]) (exitCode st)))
      as (r & -> & Hret).
    by eexists _, _.
Qed.

Lemma detach_thing_principals_run :
  let cmd := ListThingPrincipalsCommand thing_name in
  ∃ r st' ps,
    detach_thing_principals thing_name c st = (r, st') ∧
    trace st' = trace st ++ cmd :: ps ∧
    Forall (detaches_principal thing_name) ps ∧
    (printable thing_name = true → r = Ret tt).
Proof.
  intros cmd. unfold detach_thing_principals.
  match goal with |- context [try_catch (bind (send _) ?rest) ?h] =>
    destruct (list_block_run (detaches_principal thing_name) cmd rest h c st)
      as (r & st' & ps & Hr & Ht & HQ & Hret) end.
  - intros response Ho. solve_sends ltac:(by eexists).
  - intros e. apply log_silent.
  - exists r, st', ps. repeat split; try done.
    intros Hp. apply Hret. intros e c' st''. apply log_run. solve_printable.
Qed.

Lemma delete_thing_run :
  ∃ r st',
    delete_thing thing_name c st = (r, st') ∧
    trace st' = trace st ++ [DeleteThingCommand thing_name] ∧
    (printable thing_name = true → r = Ret tt).
Proof.
  unfold delete_thing.
  match goal with |- context [try_catch _ ?h] =>
    destruct (single_call_block_run (DeleteThingCommand thing_name) h c st)
      as (r & st' & Hr & Ht & Hret) end.
  - intros e. apply log_silent.
  - exists r, st'. repeat split; try done.
    intros Hp. apply Hret. intros e c' st''. apply log_run. solve_printable.
Qed.
End UnwindBlocks.

(** [onDelete] evaluates the two parameter names first, and goes on to its
    blocks when they have a value. *)
Lemma bundle_onDelete_unfold event c st :
  onDelete event c st
  = if all_printable [prop event "StackName"; prop event "ThingName"]
    then call (delete_blocks (prop event "CertificateArn") (prop event "ThingName")
                 (prop event "IotPolicyName")
                 (private_key_parameter event) (certificate_pem_parameter event)
                 (CfnEvent.PhysicalResourceId event)) c st
    else (Thrown (TypeError "Cannot convert object to primitive value"), st).
Proof.
  unfold onDelete, call, all_printable. simpl forallb. rewrite andb_true_r.
  destruct (printable (prop event "StackName")) eqn:Hs;
    [destruct (printable (prop event "ThingName")) eqn:Ht|]; simpl.
  - unfold bind at 1. rewrite template_run by solve_printable.
    unfold bind at 1. rewrite template_run by solve_printable. done.
  - unfold bind at 1. rewrite template_throws; [by destruct st|].
    unfold all_printable. simpl. by rewrite Hs, Ht.
  - unfold bind at 1. rewrite template_throws; [by destruct st|].
    unfold all_printable. simpl. by rewrite Hs.
Qed.

(** Delete of a device identity bundle, when the values it converts to
    strings can be: the eight blocks run in the order of the source, each
    sends its first call, and the loops send what they discovered. *)
Lemma bundle_unwind event c st :
  all_printable (delete_interpolates DeviceIdentityBundle event) = true →
  let thing_name := prop event "ThingName" in
  let policy_name := prop event "IotPolicyName" in
  let certificate_arn := prop event "CertificateArn" in
  let pid := CfnEvent.PhysicalResourceId event in
  let revoke := UpdateCertificateCommand pid "REVOKED" in
  let h1 := trace st ++ [DeleteParametersCommand (parameter_names event)] in
  ∃ st' vs ts ds ps,
    let h2 := h1 ++ ListPolicyVersionsCommand policy_name :: vs
                 ++ ListTargetsForPolicyCommand policy_name :: ts
                 ++ DeletePolicyCommand policy_name
                 :: ListPrincipalThingsCommand certificate_arn :: ds in
    onDelete event c st = (Ret (CfnResult.mk pid ∅), st') ∧
    trace st' = h2 ++ revoke ::
                  (if failed (c h2 revoke) then [] else [DeleteCertificateCommand pid])
                  ++ ListThingPrincipalsCommand thing_name :: ps
                  ++ [DeleteThingCommand thing_name] ∧
    Forall (pruned_version policy_name (c h1 (ListPolicyVersionsCommand policy_name))) vs ∧
    Forall (detaches_target policy_name) ts ∧
    Forall (detaches_certificate thing_name certificate_arn) ds ∧
    Forall (detaches_principal thing_name) ps.
Proof.
  intros Hp thing_name policy_name certificate_arn pid revoke h1.
  split_printable Hp.
  rewrite bundle_onDelete_unfold.
  assert (all_printable [prop event "StackName"; prop event "ThingName"] = true) as ->
    by solve_printable.
  unfold call, delete_blocks.
  fold thing_name policy_name certificate_arn pid.
  set (st0 := mkState ∅ (trace st) (exitCode st)).
  destruct (delete_parameters_run c st0 (private_key_parameter event)
              (certificate_pem_parameter event)) as (st1 & R1 & T1).
  rewrite (bind_Ret _ _ _ _ _ _ R1).
  destruct (delete_policy_versions_run policy_name c st1)
    as (r2 & st2 & vs & R2 & T2 & Q2 & H2).
  rewrite (H2 ltac:(assumption)) in R2. rewrite (bind_Ret _ _ _ _ _ _ R2).
  destruct (detach_targets_run policy_name c st2) as (r3 & st3 & ts & R3 & T3 & Q3 & H3).
  rewrite (H3 ltac:(assumption)) in R3. rewrite (bind_Ret _ _ _ _ _ _ R3).
  destruct (delete_policy_run policy_name c st3) as (r4 & st4 & R4 & T4 & H4).
  rewrite (H4 ltac:(assumption)) in R4. rewrite (bind_Ret _ _ _ _ _ _ R4).
  destruct (detach_certificate_run certificate_arn thing_name c st4)
    as (r5 & st5 & ds & R5 & T5 & Q5 & H5).
  rewrite (H5 ltac:(assumption)) in R5. rewrite (bind_Ret _ _ _ _ _ _ R5).
  destruct (delete_certificate_run certificate_arn pid c st5) as (r6 & st6 & R6 & T6 & H6).
  rewrite (H6 ltac:(assumption)) in R6. rewrite (bind_Ret _ _ _ _ _ _ R6).
  destruct (detach_thing_principals_run thing_name c st6)
    as (r7 & st7 & ps & R7 & T7 & Q7 & H7).
  rewrite (H7 ltac:(assumption)) in R7. rewrite (bind_Ret _ _ _ _ _ _ R7).
  destruct (delete_thing_run thing_name c st7) as (r8 & st8 & R8 & T8 & H8).
  rewrite (H8 ltac:(assumption)) in R8. rewrite (bind_Ret _ _ _ _ _ _ R8).
  change (trace st0) with (trace st) in T1.
  change (DeleteParametersCommand _) with (DeleteParametersCommand (parameter_names event)) in T1.
  fold h1 in T1. rewrite T1 in *.
  assert (E5 : trace st5 = h1 ++ ListPolicyVersionsCommand policy_name :: vs
                 ++ ListTargetsForPolicyCommand policy_name :: ts
                 ++ DeletePolicyCommand policy_name
                 :: ListPrincipalThingsCommand certificate_arn :: ds).
  { rewrite T5, T4, T3, T2. by simplify_list_eq. }
  rewrite E5 in T6.
  exists (mkState (vars st) (trace st8) (exitCode st8)), vs, ts, ds, ps.
  split; [done|]. split; [|done]. simpl.
  rewrite T8, T7, T6. fold revoke. by simplify_list_eq.
Qed.
End BundleUnwind.

(** ** Delete, whatever the properties are *)

Section BundleDeleteSafety.
Import ThingCertPolicyFn.

(** A [DeletePolicyVersion] call of a Delete is one of the pruning loop. *)
Lemma bundle_delete_prunes event c st :
  let policy_name := prop event "IotPolicyName" in
  ∃ new,
    trace (onDelete event c st).2 = trace st ++ new ∧
    ∀ cmd, cmd ∈ new → (∃ p v, cmd = DeletePolicyVersionCommand p v) →
      pruned_version policy_name
        (c (trace st ++ [DeleteParametersCommand (parameter_names event)])
           (ListPolicyVersionsCommand policy_name)) cmd.
Proof.
  intros policy_name. rewrite bundle_onDelete_unfold.
  destruct (all_printable _); [|exists []; split; [by rewrite app_nil_r|]];
    [|by intros cmd Hin%elem_of_nil].
  unfold call, delete_blocks. fold policy_name.
  set (st0 := mkState ∅ (trace st) (exitCode st)).
  destruct (delete_parameters_run c st0 (private_key_parameter event)
              (certificate_pem_parameter event)) as (st1 & R1 & T1).
  rewrite (bind_Ret _ _ _ _ _ _ R1).
  change (trace st0) with (trace st) in T1.
  change (DeleteParametersCommand _) with (DeleteParametersCommand (parameter_names event)) in T1.
  destruct (delete_policy_versions_run policy_name c st1)
    as (r2 & st2 & vs & R2 & T2 & Q2 & _).
  rewrite T1 in Q2.
  assert (Hcases : ∃ rest,
    trace (bind (delete_policy_versions policy_name)
             (fun _ =>
                detach_targets policy_name ;;
                delete_policy policy_name ;;
                detach_certificate (prop event "CertificateArn") (prop event "ThingName") ;;
                delete_certificate (prop event "CertificateArn")
                  (CfnEvent.PhysicalResourceId event) ;;
                detach_thing_principals (prop event "ThingName") ;;
                delete_thing (prop event "ThingName") ;;
                ret (CfnResult.mk (CfnEvent.PhysicalResourceId event) ∅)) c st1).2
      = trace st2 ++ rest ∧
    Forall (λ cmd, ¬ ∃ p v, cmd = DeletePolicyVersionCommand p v) rest).
  { destruct r2 as [[]|e].
    - rewrite (bind_Ret _ _ _ _ _ _ R2).
      match goal with |- context [trace (?m c st2).2] =>
        assert (Hm : sends_only (λ cmd, ¬ ∃ p v, cmd = DeletePolicyVersionCommand p v) m) end.
      { unfold detach_targets, delete_policy, detach_certificate, delete_certificate,
          detach_thing_principals, delete_thing.
        solve_sends ltac:(by intros (? & ? & ?)). }
      exact (Hm c st2).
    - rewrite (bind_Thrown _ _ _ _ _ _ R2). exists []. by rewrite app_nil_r. }
  destruct Hcases as (rest & Hrest & Qrest).
  destruct (bind _ _ c st1) as [r st']. simpl in *.
  exists (DeleteParametersCommand (parameter_names event)
          :: ListPolicyVersionsCommand policy_name :: vs ++ rest).
  split.
  { rewrite Hrest, T2, T1. by simplify_list_eq. }
  intros cmd Hin Hcmd.
  apply elem_of_cons in Hin as [->|Hin]; [by destruct Hcmd as (? & ? & ?)|].
  apply elem_of_cons in Hin as [->|Hin]; [by destruct Hcmd as (? & ? & ?)|].
  apply elem_of_app in Hin as [Hin|Hin].
  - rewrite Forall_forall in Q2. by apply Q2.
  - rewrite Forall_forall in Qrest. by destruct (Qrest _ Hin).
Qed.

(** The deletion of the thing is sent last, if it is sent. *)
Lemma bundle_delete_thing_last event :
  sends_then (λ cmd, is_DeleteThing cmd = false)
    (DeleteThingCommand (prop event "ThingName")) (onDelete event).
Proof.
  intros c st. rewrite bundle_onDelete_unfold.
  destruct (all_printable _);
    [|exists []; split; [done|]; left; by rewrite app_nil_r].
  revert c st. apply sends_then_call. unfold delete_blocks.
  do 7 (apply sends_then_bind;
        [ unfold delete_parameters, delete_policy_versions, detach_targets, delete_policy,
            detach_certificate, delete_certificate, detach_thing_principals;
          solve_sends ltac:(reflexivity)
        | intros _ ]).
  intros c st.
  destruct (delete_thing_run (prop event "ThingName") c st) as (r & st' & R & T & _).
  exists []. split; [done|]. right. unfold bind. rewrite R.
  destruct r; simpl; by rewrite T.
Qed.
End BundleDeleteSafety.

Lemma delete_keeps_exitCode k event : keeps_exitCode (delete k event).
Proof.
  destruct k; simpl.
  - unfold RoleAliasFn.onDelete. solve_keeps.
  - unfold ThingCertPolicyFn.onDelete, ThingCertPolicyFn.delete_blocks,
      ThingCertPolicyFn.delete_parameters,
      ThingCertPolicyFn.delete_policy_versions, ThingCertPolicyFn.detach_targets,
      ThingCertPolicyFn.delete_policy, ThingCertPolicyFn.detach_certificate,
      ThingCertPolicyFn.delete_certificate, ThingCertPolicyFn.detach_thing_principals,
      ThingCertPolicyFn.delete_thing.
    solve_keeps.
  - unfold ThingGroupFn.onDelete. solve_keeps.
  - unfold GreengrassV2DeploymentFn.onDelete. solve_keeps.
Qed.

Lemma delete_extends_trace k event : sends_only (λ _, True) (delete k event).
Proof.
  destruct k; simpl.
  - unfold RoleAliasFn.onDelete. solve_sends ltac:(exact I).
  - unfold ThingCertPolicyFn.onDelete, ThingCertPolicyFn.delete_blocks,
      ThingCertPolicyFn.delete_parameters,
      ThingCertPolicyFn.delete_policy_versions, ThingCertPolicyFn.detach_targets,
      ThingCertPolicyFn.delete_policy, ThingCertPolicyFn.detach_certificate,
      ThingCertPolicyFn.delete_certificate, ThingCertPolicyFn.detach_thing_principals,
      ThingCertPolicyFn.delete_thing.
    solve_sends ltac:(exact I).
  - unfold ThingGroupFn.onDelete. solve_sends ltac:(exact I).
  - unfold GreengrassV2DeploymentFn.onDelete. solve_sends ltac:(exact I).
Qed.

(** The single call of the other three Deletes is sent whatever follows. *)
Lemma role_alias_onDelete_run event c st :
  ∃ st',
    RoleAliasFn.onDelete event c st
      = (Ret (CfnResult.mk (CfnEvent.PhysicalResourceId event) ∅), st') ∧
    trace st' = trace st ++ [DeleteRoleAliasCommand (prop event "IotRoleAliasName")].
Proof.
  unfold RoleAliasFn.onDelete, call, try_catch, bind, send, ret; simpl.
  destruct (c _ _); eauto.
Qed.

Lemma group_onDelete_run event c st :
  ∃ r st',
    ThingGroupFn.onDelete event c st = (r, st') ∧
    trace st' = trace st ++ [DeleteThingGroupCommand (prop event "ThingGroupName")] ∧
    (printable (prop event "ThingGroupName") = true →
     r = Ret (CfnResult.mk (CfnEvent.PhysicalResourceId event) ∅)).
Proof.
  unfold ThingGroupFn.onDelete, call. unfold bind at 1.
  match goal with |- context [try_catch _ ?h] =>
    destruct (single_call_block_run
                (DeleteThingGroupCommand (prop event "ThingGroupName")) h c
                (mkState ∅ (trace st) (exitCode st)))
      as (r & st' & Hr & Ht & Hret) end.
  { intros e. apply log_silent. }
  rewrite Hr. destruct r as [[]|e]; simpl.
  - unfold ret. eexists _, _. by repeat split.
  - eexists _, _. repeat split; [done|]. intros Hp.
    discriminate Hret. intros e' c' st''. apply log_run. solve_printable.
Qed.

Lemma deployment_onDelete_run event c st :
  ∃ r st',
    GreengrassV2DeploymentFn.onDelete event c st = (r, st') ∧
    trace st' = trace st ++ [CancelDeploymentCommand (prop event "DeploymentId")] ∧
    (printable (prop event "DeploymentId") = true →
     r = Ret (CfnResult.mk (CfnEvent.PhysicalResourceId event) ∅)).
Proof.
  unfold GreengrassV2DeploymentFn.onDelete, call.
  change console_info with console_error. change console_warn with console_error.
  destruct (printable (prop event "DeploymentId")) eqn:Hp.
  - unfold bind at 1, try_catch. unfold bind at 1. unfold send at 1. simpl.
    destruct (c _ _); simpl.
    + rewrite log_run by solve_printable.
      unfold bind at 1. rewrite template_run by solve_printable. by eexists _, _.
    + rewrite log_run by solve_printable.
      unfold bind at 1. rewrite template_run by solve_printable. by eexists _, _.
  - unfold bind at 1, try_catch. unfold bind at 1. unfold send at 1. simpl.
    destruct (c _ _); simpl.
    + unfold bind at 1.
      rewrite template_throws by (unfold all_printable; simpl; by rewrite Hp). simpl.
      unfold bind at 1.
      rewrite template_throws by (unfold all_printable; simpl; by rewrite Hp). simpl.
      by eexists _, _.
    + unfold bind at 1.
      rewrite template_throws by (unfold all_printable; simpl; by rewrite Hp). simpl.
      by eexists _, _.
Qed.

(** Delete returns when the values it converts to strings can be. *)
Lemma delete_run k event c st :
  all_printable (delete_interpolates k event) = true →
  ∃ st', delete k event c st
         = (Ret (CfnResult.mk (CfnEvent.PhysicalResourceId event) ∅), st').
Proof.
  intros Hp. destruct k; simpl.
  - destruct (role_alias_onDelete_run event c st) as (st' & -> & _). eauto.
  - destruct (bundle_unwind event c st Hp) as (st' & ? & ? & ? & ? & H & _). eauto.
  - split_printable Hp.
    destruct (group_onDelete_run event c st) as (r & st' & -> & _ & Hr).
    rewrite Hr by done. eauto.
  - split_printable Hp.
    destruct (deployment_onDelete_run event c st) as (r & st' & -> & _ & Hr).
    rewrite Hr by done. eauto.
Qed.

(** ** Create *)

Lemma create_force_fail k event c st :
  force_fail event = true →
  create k event c st = (Thrown (Error "Create failure requested, logging"), st).
Proof.
  unfold force_fail. intros H.
  destruct k, st; simpl;
    [ unfold RoleAliasFn.onCreate | unfold ThingCertPolicyFn.onCreate
    | unfold ThingGroupFn.onCreate | unfold GreengrassV2DeploymentFn.onCreate ];
    unfold call; by rewrite H.
Qed.

Lemma some_call_failed_app c h l1 l2 :
  some_call_failed c h (l1 ++ l2)
  = some_call_failed c h l1 || some_call_failed c (h ++ l1) l2.
Proof.
  revert h. induction l1 as [|cmd l1 IH]; intros h; simpl.
  - by rewrite app_nil_r.
  - rewrite IH, <- (assoc_L (++)). simpl. by rewrite orb_assoc.
Qed.

Section RoleAliasFacts.
Import RoleAliasFn.

(** Create of a role alias, in closed form. *)
Lemma role_alias_onCreate_run event c st :
  force_fail event = false →
  let o := c (trace st) (role_alias_create_command event) in
  onCreate event c st
    = (Ret (CfnResult.mk (field_or (JStr "") "roleAlias" o)
              {[ "RoleAliasArn" := field_or JUndefined "roleAliasArn" o ]}),
       mkState (vars st) (trace st ++ [role_alias_create_command event])
         (if failed o then Some 1 else exitCode st)).
Proof.
  intros H o. unfold force_fail in H.
  unfold onCreate, call. rewrite H.
  unfold try_catch, bind, send, assign, var, set_exitCode, ret; simpl.
  fold (role_alias_create_command event). fold o.
  destruct o as [response|n msg]; simpl; by simplify_map_eq.
Qed.
End RoleAliasFacts.

Section GreengrassV2DeploymentFacts.
Import GreengrassV2DeploymentFn.

(** Create of a deployment, in closed form: a failed call is thrown on, as
    an [Error] that quotes the target and the failure. *)
Lemma deployment_onCreate_run event c st :
  force_fail event = false →
  onCreate event c st
    = (match c (trace st) (deployment_create_command event) with
       | Ok response =>
           Ret (CfnResult.mk (field response "deploymentId")
                  {[ "DeploymentId" := field response "deploymentId";
                     "IotJobId" := field response "iotJobId";
                     "IotJobArn" := field response "iotJobArn" ]})
       | Fail n msg =>
           match render [ Lit "Error calling create_deployment for target ";
                          Subst (prop event "TargetArn"); Lit ", error: ";
                          Lit (exn_to_string (ServiceException n msg)) ] with
           | Some message => Thrown (Error message)
           | None => Thrown (TypeError "Cannot convert object to primitive value")
           end
       end,
       mkState (vars st) (trace st ++ [deployment_create_command event]) (exitCode st)).
Proof.
  unfold force_fail. intros H.
  unfold onCreate, call. rewrite H.
  unfold try_catch, bind, send, assign, var, throw, ret, template; simpl.
  fold (deployment_create_command event).
  destruct (c _ _) as [response|n msg]; simpl; [by simplify_map_eq|].
  by destruct (ToString (prop event "TargetArn")).
Qed.
End GreengrassV2DeploymentFacts.

Section ThingGroupFacts.
Import ThingGroupFn.

(** The add-member loop: calls up to and including the first that fails;
    variables are left alone.  It throws exactly when one of its calls
    fails. *)
Lemma add_things_run (mk : JsVal → Command) l c st :
  ∃ r, for_each l (fun thing => _ <- send (mk thing) ;; ret tt) c st
       = (r, mkState (vars st) (trace st ++ until_failure c (trace st) mk l) (exitCode st)) ∧
       is_thrown r = some_call_failed c (trace st) (until_failure c (trace st) mk l).
Proof.
  revert st. induction l as [|x l IH]; intros st; simpl.
  - exists (Ret tt). unfold ret. rewrite app_nil_r. by destruct st.
  - unfold bind at 1. unfold bind at 1. unfold send at 1, ret at 1.
    destruct (c (trace st) (mk x)) as [response|n msg]; simpl.
    + destruct (IH (mkState (vars st) (trace st ++ [mk x]) (exitCode st))) as (r & Hr & Hth).
      exists r. rewrite Hr. simpl. by rewrite <- (assoc_L (++)).
    + by eexists.
Qed.

(** The second block of [onCreate]. *)
Lemma add_things_block_run event c st :
  let thing_list := prop event "ThingArnList" in
  let group_name := prop event "ThingGroupName" in
  let adds := until_failure c (trace st) (group_add_command event) (elements thing_list) in
  ∃ r ec,
    (try (
       for_of "thing_list" thing_list (fun thing =>
         _ <- send (AddThingToThingGroupCommand group_name thing) ;;
         ret tt)
     ) catch (fun error =>
       message <- template [ Lit "Error adding things "; Subst thing_list;
                             Lit " to thing group "; Subst group_name; Lit ": " ] ;;
       console_error message ;;
       set_exitCode 1)) c st
    = (r, mkState (vars st) (trace st ++ adds) ec) ∧
    (all_printable [thing_list; group_name] = true →
     r = Ret tt ∧
     ec = if some_call_failed c (trace st) adds
             || negb (bool_decide (is_Some (iterate thing_list)))
          then Some 1 else exitCode st).
Proof.
  intros thing_list group_name adds.
  assert (Hcatch : ∀ st1, ∃ r ec,
    (message <- template [ Lit "Error adding things "; Subst thing_list;
                           Lit " to thing group "; Subst group_name; Lit ": " ] ;;
     console_error message ;; set_exitCode 1) c st1
    = (r, mkState (vars st1) (trace st1) ec) ∧
    (all_printable [thing_list; group_name] = true → r = Ret tt ∧ ec = Some 1)).
  { intros st1. unfold bind at 1.
    destruct (all_printable [thing_list; group_name]) eqn:Hp.
    - rewrite template_run by done. by eexists _, _.
    - rewrite template_throws by done. destruct st1. by eexists _, _. }
  unfold try_catch, for_of. subst adds. unfold elements.
  destruct (iterate thing_list) as [l|]; simpl.
  - destruct (add_things_run (group_add_command event) l c st) as (r & Hr & Hth).
    unfold group_add_command in Hr at 1. fold group_name in Hr. rewrite Hr.
    rewrite orb_false_r, <- Hth.
    destruct r as [[]|e]; simpl.
    + by eexists _, _.
    + match goal with |- context [bind ?m ?f c ?s] =>
        destruct (Hcatch s) as (r & ec & -> & Hret) end.
      by eexists _, _.
  - unfold throw. rewrite app_nil_r.
    destruct (Hcatch st) as (r & ec & -> & Hret). by eexists _, _.
Qed.

(** Create of a thing group: its calls, whatever the properties are, and
    its result and the failure flag when the values it converts to strings
    can be. *)
Lemma group_onCreate_run event c st :
  force_fail event = false →
  let o := c (trace st) (group_create_command event) in
  let adds := until_failure c (trace st ++ [group_create_command event])
                (group_add_command event) (elements (prop event "ThingArnList")) in
  ∃ r ec,
    onCreate event c st
      = (r, mkState (vars st) (trace st ++ group_create_command event :: adds) ec) ∧
    (all_printable (create_interpolates DeviceGroupMembership event c (trace st)) = true →
     r = Ret (CfnResult.mk (field_or (JStr "") "thingGroupId" o)
                {[ "ThingGroupName" := prop event "ThingGroupName";
                   "ThingGroupArn" := field_or JUndefined "thingGroupArn" o;
                   "ThingGroupId" := field_or JUndefined "thingGroupId" o ]}) ∧
     ec = if some_call_failed c (trace st) (group_create_command event :: adds)
             || negb (bool_decide (is_Some (iterate (prop event "ThingArnList"))))
          then Some 1 else exitCode st).
Proof.
  intros H o adds. unfold force_fail in H.
  unfold onCreate, call. rewrite H.
  unfold bind at 1. unfold assign at 1.
  unfold bind at 1. unfold try_catch at 1.
  unfold bind at 1. unfold send at 1. simpl.
  fold (group_create_command event). fold o.
  destruct o as [response|n msg] eqn:Ho; simpl.
  - unfold bind at 1.
    match goal with |- context [try_catch ?m ?h c ?s] =>
      destruct (add_things_block_run event c s) as (r & ec & Hr & Hret) end.
    simpl in Hr, Hret. fold adds in Hr, Hret. rewrite Hr.
    destruct r as [[]|e]; simpl.
    + unfold bind, var, ret; simpl. eexists _, _.
      rewrite <- (assoc_L (++)). split; [reflexivity|].
      intros Hp. destruct (Hret Hp) as [_ ->]. split; [by simplify_map_eq|done].
    + eexists _, _. rewrite <- (assoc_L (++)). split; [reflexivity|].
      intros Hp. by destruct (Hret Hp).
  - unfold bind at 1.
    match goal with |- context [try_catch ?m ?h c ?s] =>
      destruct (add_things_block_run event c s) as (r & ec & Hr & Hret) end.
    simpl in Hr, Hret. fold adds in Hr, Hret. rewrite Hr.
    destruct r as [[]|e]; simpl.
    + unfold bind, var, ret; simpl. eexists _, _.
      rewrite <- (assoc_L (++)). split; [reflexivity|].
      intros Hp. destruct (Hret Hp) as [_ ->]. split; [by simplify_map_eq|].
      by destruct (_ || _).
    + eexists _, _. rewrite <- (assoc_L (++)). split; [reflexivity|].
      intros Hp. by destruct (Hret Hp).
Qed.
End ThingGroupFacts.

(** ** Create of a device identity bundle, block by block *)

Ltac frame_tac Hx :=
  simpl; repeat (rewrite lookup_insert_ne; [|by intros <-; apply Hx; solve_elem]);
  reflexivity.

Lemma read_frame (xs : list string) st st' y :
  (∀ x, x ∉ xs → vars st' !! x = vars st !! x) → y ∉ xs → read st' y = read st y.
Proof. intros H Hy. unfold read. by rewrite H. Qed.

Lemma read_same st st' y : vars st' = vars st → read st' y = read st y.
Proof. intros H. unfold read. by rewrite H. Qed.

(** Follows a variable back through the blocks that do not assign it. *)
Ltac frame_rw :=
  repeat match goal with
  | H : ∀ x, x ∉ _ → vars ?s !! x = _ |- context [read ?s ?y] =>
      rewrite (read_frame _ _ s y H) by (apply (bool_decide_unpack _); by vm_compute)
  | H : vars ?s = _ |- context [read ?s ?y] => rewrite (read_same _ s y H)
  end.

Section ThingCertPolicyBlocks.
Import ThingCertPolicyFn.

Section Blocks.
Variables (thing_name policy_name policy_document : JsVal).
Variables (parameter_private_key parameter_certificate_pem : string).
Variables (c : Client) (st : State).

Lemma create_thing_run :
  let cmd := CreateThingCommand thing_name in
  ∃ st',
    create_thing thing_name c st = (Ret tt, st') ∧
    trace st' = trace st ++ [cmd] ∧
    (∀ x, x ∉ ["thing_arn"] → vars st' !! x = vars st !! x) ∧
    read st' "thing_arn" = field_or (read st "thing_arn") "thingArn" (c (trace st) cmd) ∧
    exitCode st' = if failed (c (trace st) cmd) then Some 1 else exitCode st.
Proof.
  intros cmd. unfold create_thing, try_catch, bind, send, member, assign, set_exitCode, ret.
  fold cmd. destruct (c (trace st) cmd) as [r|n msg]; simpl;
    (eexists; split; [reflexivity|]; split; [reflexivity|]; split;
     [intros x Hx; frame_tac Hx|]); unfold read, field; simpl; by simplify_map_eq.
Qed.

Lemma create_keys_and_certificate_run :
  let cmd := CreateKeysAndCertificateCommand true in
  let o := c (trace st) cmd in
  ∃ st',
    create_keys_and_certificate c st = (Ret tt, st') ∧
    trace st' = trace st ++ [cmd] ∧
    (∀ x, x ∉ ["certificate_arn"; "certificate_pem"; "physical_resource_id"; "private_key"] →
          vars st' !! x = vars st !! x) ∧
    read st' "certificate_arn" = field_or (read st "certificate_arn") "certificateArn" o ∧
    read st' "certificate_pem" = field_or (read st "certificate_pem") "certificatePem" o ∧
    read st' "physical_resource_id"
      = field_or (read st "physical_resource_id") "certificateId" o ∧
    read st' "private_key"
      = match o with
        | Ok r => match field r "keyPair" with
                  | JObj key_pair => field key_pair "PrivateKey"
                  | JUndefined | JNull => read st "private_key"
                  | _ => JUndefined
                  end
        | Fail _ _ => read st "private_key"
        end ∧
    exitCode st' = if failed o || keyPair_missing o then Some 1 else exitCode st.
Proof.
  intros cmd o.
  unfold create_keys_and_certificate, try_catch, bind, send, assign, set_exitCode.
  fold cmd. fold o. destruct o as [r|n msg]; simpl.
  - unfold field. destruct (default JUndefined (r !! "keyPair")); simpl;
      (eexists; split; [reflexivity|]; split; [reflexivity|]; split;
       [intros x Hx; frame_tac Hx|]); unfold read; simpl; by simplify_map_eq.
  - eexists; split; [reflexivity|]; split; [reflexivity|]; split; done.
Qed.

Lemma create_policy_run :
  let cmd := CreatePolicyCommand policy_document policy_name in
  ∃ st',
    create_policy policy_name policy_document c st = (Ret tt, st') ∧
    trace st' = trace st ++ [cmd] ∧
    (∀ x, x ∉ ["policy_arn"] → vars st' !! x = vars st !! x) ∧
    read st' "policy_arn" = field_or (read st "policy_arn") "policyArn" (c (trace st) cmd) ∧
    exitCode st' = if failed (c (trace st) cmd) then Some 1 else exitCode st.
Proof.
  intros cmd. unfold create_policy, try_catch, bind, send, member, assign, set_exitCode, ret.
  fold cmd. destruct (c (trace st) cmd) as [r|n msg]; simpl;
    (eexists; split; [reflexivity|]; split; [reflexivity|]; split;
     [intros x Hx; frame_tac Hx|]); unfold read, field; simpl; by simplify_map_eq.
Qed.

Lemma attach_policy_run :
  let cmd := AttachPolicyCommand policy_name (read st "certificate_arn") in
  printable (read st "certificate_arn") = true → printable policy_name = true →
  ∃ st',
    attach_policy policy_name c st = (Ret tt, st') ∧
    trace st' = trace st ++ [cmd] ∧
    vars st' = vars st ∧
    exitCode st' = if failed (c (trace st) cmd) then Some 1 else exitCode st.
Proof.
  intros cmd Ha Hp. unfold attach_policy, try_catch. unfold bind at 1, var at 1.
  fold (read st "certificate_arn"). unfold bind at 1, send at 1. fold cmd.
  destruct (c (trace st) cmd); simpl; [by eexists|].
  unfold bind at 1, var at 1. simpl. fold (read st "certificate_arn").
  unfold bind at 1. rewrite template_run by solve_printable.
  by eexists.
Qed.

Lemma attach_thing_principal_run :
  let cmd := AttachThingPrincipalCommand thing_name (read st "certificate_arn") in
  printable (read st "certificate_arn") = true → printable thing_name = true →
  ∃ st',
    attach_thing_principal thing_name c st = (Ret tt, st') ∧
    trace st' = trace st ++ [cmd] ∧
    vars st' = vars st ∧
    exitCode st' = if failed (c (trace st) cmd) then Some 1 else exitCode st.
Proof.
  intros cmd Ha Hp. unfold attach_thing_principal, try_catch. unfold bind at 1, var at 1.
  fold (read st "certificate_arn"). unfold bind at 1, send at 1. fold cmd.
  destruct (c (trace st) cmd); simpl; [by eexists|].
  unfold bind at 1, var at 1. simpl. fold (read st "certificate_arn").
  unfold bind at 1. rewrite template_run by solve_printable.
  by eexists.
Qed.

Lemma put_parameters_run :
  let put1 :=
    PutParameterCommand parameter_private_key
      (rendered [Lit "Certificate private key for IoT thing "; Subst thing_name])
      (read st "private_key") "SecureString" "Advanced" in
  let put2 :=
    PutParameterCommand parameter_certificate_pem
      (rendered [Lit "Certificate PEM for IoT thing "; Subst thing_name])
      (read st "certificate_pem") "String" "Advanced" in
  let puts := put1 :: (if failed (c (trace st) put1) then [] else [put2]) in
  printable thing_name = true →
  ∃ st',
    put_parameters thing_name parameter_private_key parameter_certificate_pem c st
      = (Ret tt, st') ∧
    trace st' = trace st ++ puts ∧
    vars st' = vars st ∧
    exitCode st' = if some_call_failed c (trace st) puts then Some 1 else exitCode st.
Proof.
  intros put1 put2 puts Hp. subst puts put1 put2.
  unfold put_parameters, try_catch.
  unfold bind at 1. rewrite template_run by solve_printable.
  unfold bind at 1, var at 1. fold (read st "private_key").
  unfold bind at 1, send at 1.
  destruct (c (trace st) (PutParameterCommand parameter_private_key _ _ _ _)) eqn:Ho1;
    simpl; rewrite ?Ho1; simpl; [|by eexists].
  unfold bind at 1. rewrite template_run by solve_printable.
  unfold bind at 1, var at 1. simpl. fold (read st "certificate_pem").
  unfold bind at 1, send at 1. simpl.
  rewrite <- (assoc_L (++)). simpl.
  destruct (c (trace st ++ _) (PutParameterCommand parameter_certificate_pem _ _ _ _))
    eqn:Ho2; simpl; rewrite ?Ho2; simpl; by eexists.
Qed.

Lemma data_ats_endpoint_run :
  let cmd := DescribeEndpointCommand "iot:Data-ATS" in
  ∃ st',
    data_ats_endpoint c st = (Ret tt, st') ∧
    trace st' = trace st ++ [cmd] ∧
    (∀ x, x ∉ ["data_ats_endpoint_address"] → vars st' !! x = vars st !! x) ∧
    read st' "data_ats_endpoint_address"
      = field_or (JStr sentinel) "endpointAddress" (c (trace st) cmd) ∧
    exitCode st' = exitCode st.
Proof.
  intros cmd. unfold data_ats_endpoint, try_catch, bind, send, member, assign, ret.
  fold cmd. destruct (c (trace st) cmd) as [r|n msg]; simpl;
    (eexists; split; [reflexivity|]; split; [reflexivity|]; split;
     [intros x Hx; frame_tac Hx|]); unfold read, field; simpl; by simplify_map_eq.
Qed.

Lemma credential_provider_endpoint_run :
  let cmd := DescribeEndpointCommand "iot:CredentialProvider" in
  ∃ st',
    credential_provider_endpoint c st = (Ret tt, st') ∧
    trace st' = trace st ++ [cmd] ∧
    (∀ x, x ∉ ["credential_provider_endpoint_address"] → vars st' !! x = vars st !! x) ∧
    read st' "credential_provider_endpoint_address"
      = field_or (JStr sentinel) "endpointAddress" (c (trace st) cmd) ∧
    exitCode st' = exitCode st.
Proof.
  intros cmd. unfold credential_provider_endpoint, try_catch, bind, send, member, assign, ret.
  fold cmd. destruct (c (trace st) cmd) as [r|n msg]; simpl;
    (eexists; split; [reflexivity|]; split; [reflexivity|]; split;
     [intros x Hx; frame_tac Hx|]); unfold read, field; simpl; by simplify_map_eq.
Qed.

(** The two endpoint blocks and the [return] that follows them. *)
Lemma endpoints_run :
  let lookup1 := DescribeEndpointCommand "iot:Data-ATS" in
  let lookup2 := DescribeEndpointCommand "iot:CredentialProvider" in
  (data_ats_endpoint ;; credential_provider_endpoint ;;
   create_result thing_name parameter_private_key parameter_certificate_pem) c st
  = (Ret (CfnResult.mk (read st "physical_resource_id")
            {[ "ThingArn" := read st "thing_arn";
               "ThingName" := thing_name;
               "CertificateArn" := read st "certificate_arn";
               "IotPolicyArn" := read st "policy_arn";
               "PrivateKeySecretParameter" := JStr parameter_private_key;
               "CertificatePemParameter" := JStr parameter_certificate_pem;
               "DataAtsEndpointAddress" :=
                 field_or (JStr sentinel) "endpointAddress" (c (trace st) lookup1);
               "CredentialProviderEndpointAddress" :=
                 field_or (JStr sentinel) "endpointAddress"
                   (c (trace st ++ [lookup1]) lookup2) ]}),
     mkState
       (<["credential_provider_endpoint_address" :=
            field_or (JStr sentinel) "endpointAddress" (c (trace st ++ [lookup1]) lookup2)]>
          (<["data_ats_endpoint_address" :=
               field_or (JStr sentinel) "endpointAddress" (c (trace st) lookup1)]> (vars st)))
       (trace st ++ [lookup1; lookup2]) (exitCode st)).
Proof.
  intros lookup1 lookup2.
  unfold data_ats_endpoint, credential_provider_endpoint, create_result,
    try_catch, bind, send, member, assign, var, ret, read. fold lookup1 lookup2.
  destruct (c (trace st) lookup1) as [r1|n1 m1]; simpl;
    destruct (c (trace st ++ [lookup1]) lookup2) as [r2|n2 m2]; simpl;
    rewrite <- (assoc_L (++)); simpl; f_equal; f_equal; unfold field; by simplify_map_eq.
Qed.
End Blocks.

(** [onCreate] evaluates the two parameter names first, and goes on to its
    blocks when they have a value. *)
Lemma bundle_onCreate_unfold event c st :
  force_fail event = false →
  onCreate event c st
  = if all_printable [prop event "StackName"; prop event "ThingName"]
    then call ("physical_resource_id" ::= JStr "" ;;
               create_blocks (prop event "ThingName") (prop event "IotPolicyName")
                 (prop event "IotPolicy")
                 (private_key_parameter event) (certificate_pem_parameter event)) c st
    else (Thrown (TypeError "Cannot convert object to primitive value"), st).
Proof.
  unfold force_fail. intros H.
  unfold onCreate, call, all_printable. rewrite H. simpl forallb. rewrite andb_true_r.
  unfold bind at 1. unfold assign at 1. unfold bind at 3. unfold assign at 1. simpl.
  destruct (printable (prop event "StackName")) eqn:Hs;
    [destruct (printable (prop event "ThingName")) eqn:Ht|]; simpl.
  - unfold bind at 1. rewrite template_run by solve_printable.
    unfold bind at 1. rewrite template_run by solve_printable. done.
  - unfold bind at 1. rewrite template_throws; [by destruct st|].
    unfold all_printable. simpl. by rewrite Hs, Ht.
  - unfold bind at 1. rewrite template_throws; [by destruct st|].
    unfold all_printable. simpl. by rewrite Hs.
Qed.
End ThingCertPolicyBlocks.

Section ThingCertPolicyCreate.
Import ThingCertPolicyFn BundleCreate.

(** Create of a device identity bundle, in closed form, when the values it
    converts to strings can be. *)
Lemma bundle_onCreate_run event c st :
  force_fail event = false →
  all_printable (create_interpolates DeviceIdentityBundle event c (trace st)) = true →
  onCreate event c st
    = (Ret (create_outputs event c (trace st)),
       mkState (vars st) (trace st ++ create_calls event c (trace st))
         (if some_call_failed c (trace st)
               (first_calls event c (trace st) ++ put_calls event c (trace st))
             || keyPair_missing (keys_outcome event c (trace st))
          then Some 1 else exitCode st)).
Proof.
  intros H Hp. unfold all_printable, create_interpolates in Hp. cbn [forallb] in Hp.
  apply andb_prop in Hp as [Hs Hp]. apply andb_prop in Hp as [Ht Hp].
  apply andb_prop in Hp as [Hn Hp]. apply andb_prop in Hp as [Ha _].
  rewrite bundle_onCreate_unfold by done.
  assert (all_printable [prop event "StackName"; prop event "ThingName"] = true) as ->
    by solve_printable.
  match goal with |- _ = ?closed_form => remember closed_form as target eqn:Htarget end.
  unfold call. unfold bind at 1. unfold assign at 1. simpl.
  set (st0 := mkState _ (trace st) (exitCode st)).
  assert (I0 : ∀ x, x ≠ "physical_resource_id" → read st0 x = JUndefined).
  { intros x Hx. unfold read; simpl. by rewrite lookup_insert_ne, lookup_empty. }
  assert (P0 : read st0 "physical_resource_id" = JStr "") by done.
  assert (E0 : trace st0 = trace st) by done.
  assert (X0 : exitCode st0 = exitCode st) by done.
  clearbody st0. unfold create_blocks.
  (* the first three blocks *)
  destruct (create_thing_run (prop event "ThingName") c st0)
    as (st1 & R1 & T1 & F1 & V1 & X1).
  rewrite (bind_Ret _ _ _ _ _ _ R1).
  destruct (create_keys_and_certificate_run c st1)
    as (st2 & R2 & T2 & F2 & V2a & V2b & V2c & V2d & X2).
  rewrite (bind_Ret _ _ _ _ _ _ R2).
  destruct (create_policy_run (prop event "IotPolicyName") (prop event "IotPolicy") c st2)
    as (st3 & R3 & T3 & F3 & V3 & X3).
  rewrite (bind_Ret _ _ _ _ _ _ R3).
  rewrite E0 in *.
  assert (E2 : trace st2 = trace st ++ [create_thing_command event; create_keys_command]).
  { rewrite T2, T1. by rewrite <- (assoc_L (++)). }
  rewrite I0 in V1 by done.
  change (read st1 "thing_arn"
          = field_or JUndefined "thingArn" (thing_outcome event c (trace st))) in V1.
  rewrite T1 in V2a, V2b, V2c, V2d, X2.
  change (c (trace st ++ [CreateThingCommand (prop event "ThingName")])
            (CreateKeysAndCertificateCommand true))
    with (keys_outcome event c (trace st)) in V2a, V2b, V2c, V2d, X2.
  assert (A2 : read st2 "certificate_arn" = certificate_arn event c (trace st)).
  { rewrite V2a. frame_rw. by rewrite I0. }
  assert (M2 : read st2 "certificate_pem" = certificate_pem event c (trace st)).
  { rewrite V2b. frame_rw. by rewrite I0. }
  assert (P2 : read st2 "physical_resource_id"
               = field_or (JStr "") "certificateId" (keys_outcome event c (trace st))).
  { rewrite V2c. frame_rw. by rewrite P0. }
  assert (K2 : read st2 "private_key" = private_key event c (trace st)).
  { rewrite V2d. frame_rw. rewrite I0 by done.
    unfold private_key. destruct (keys_outcome event c (trace st)) as [r|]; [|done].
    by destruct (field r "keyPair"). }
  clear V2a V2b V2c V2d.
  rewrite E2 in V3, X3.
  change (c (trace st ++ [create_thing_command event; create_keys_command])
            (CreatePolicyCommand (prop event "IotPolicy") (prop event "IotPolicyName")))
    with (policy_outcome event c (trace st)) in V3, X3.
  assert (L3 : read st3 "policy_arn"
               = field_or JUndefined "policyArn" (policy_outcome event c (trace st))).
  { rewrite V3. frame_rw. by rewrite I0. }
  clear V3.
  assert (A3 : read st3 "certificate_arn" = certificate_arn event c (trace st))
    by (frame_rw; exact A2).
  (* the two attachments and the parameters *)
  destruct (attach_policy_run (prop event "IotPolicyName") c st3)
    as (st4 & R4 & T4 & F4 & X4); [by rewrite A3|done|].
  rewrite (bind_Ret _ _ _ _ _ _ R4).
  assert (A4 : read st4 "certificate_arn" = certificate_arn event c (trace st))
    by (frame_rw; exact A2).
  destruct (attach_thing_principal_run (prop event "ThingName") c st4)
    as (st5 & R5 & T5 & F5 & X5); [by rewrite A4|done|].
  rewrite (bind_Ret _ _ _ _ _ _ R5).
  destruct (put_parameters_run (prop event "ThingName")
              (private_key_parameter event) (certificate_pem_parameter event) c st5 Ht)
    as (st6 & R6 & T6 & F6 & X6).
  rewrite (bind_Ret _ _ _ _ _ _ R6).
  assert (K5 : read st5 "private_key" = private_key event c (trace st))
    by (frame_rw; exact K2).
  assert (M5 : read st5 "certificate_pem" = certificate_pem event c (trace st))
    by (frame_rw; exact M2).
  rewrite A3 in T4, X4. rewrite A4 in T5, X5. rewrite K5, M5 in T6, X6.
  assert (E5 : trace st5 = trace st ++ first_calls event c (trace st)).
  { rewrite T5, T4, T3, E2. unfold first_calls. by rewrite <- !(assoc_L (++)). }
  rewrite E5 in T6, X6.
  change (PutParameterCommand (private_key_parameter event) _
            (private_key event c (trace st)) "SecureString" "Advanced")
    with (put_private_key_command event c (trace st)) in T6, X6.
  change (PutParameterCommand (certificate_pem_parameter event) _
            (certificate_pem event c (trace st)) "String" "Advanced")
    with (put_certificate_pem_command event c (trace st)) in T6, X6.
  change (put_private_key_command event c (trace st) :: _)
    with (put_calls event c (trace st)) in T6, X6.
  (* the endpoints and the result *)
  rewrite endpoints_run. cbv beta iota. cbn [trace exitCode vars]. rewrite T6.
  subst target. f_equal.
  - unfold create_outputs. f_equal. frame_rw.
    rewrite P2, V1, A2, L3. unfold data_ats_outcome, credential_provider_outcome.
    by rewrite <- !(assoc_L (++)).
  - f_equal.
    + unfold create_calls. by rewrite <- !(assoc_L (++)).
    + rewrite X6, X5, X4, X3, X2, X1, X0.
      rewrite some_call_failed_app.
      rewrite T4, T3, E2.
      unfold first_calls, thing_outcome, policy_outcome.
      simpl. rewrite <- !(assoc_L (++)). simpl.
      unfold keys_outcome, create_thing_command, create_keys_command,
        create_policy_command.
      repeat (match goal with
              | |- context [failed ?o] => destruct (failed o)
              | |- context [keyPair_missing ?o] => destruct (keyPair_missing o)
              | |- context [some_call_failed ?a ?b ?l] => destruct (some_call_failed a b l)
              end; simpl); done.
Qed.
End ThingCertPolicyCreate.

(** ** The dispatcher *)

Lemma handle_Create k props pid :
  handle k (CfnEvent.mk "Create" props pid) = create k (CfnEvent.mk "Create" props pid).
Proof. by destruct k. Qed.

Lemma handle_Update k props pid :
  handle k (CfnEvent.mk "Update" props pid) = update k (CfnEvent.mk "Update" props pid).
Proof. by destruct k. Qed.

Lemma handle_Delete k props pid :
  handle k (CfnEvent.mk "Delete" props pid) = delete k (CfnEvent.mk "Delete" props pid).
Proof. by destruct k. Qed.

Lemma handle_unrecognized k event c st :
  recognized_intent event = false →
  handle k event c st = (Thrown (Error "Invalid request type"), st).
Proof.
  unfold recognized_intent. intros H.
  apply orb_false_elim in H as [H HD]. apply orb_false_elim in H as [HC HU].
  destruct k; simpl;
    [ unfold RoleAliasFn.handler | unfold ThingCertPolicyFn.handler
    | unfold ThingGroupFn.handler | unfold GreengrassV2DeploymentFn.handler ];
    by rewrite HC, HU, HD.
Qed.

Lemma handle_intent k event :
  (CfnEvent.RequestType event = "Create" ∧ handle k event = create k event) ∨
  (CfnEvent.RequestType event = "Update" ∧ handle k event = update k event) ∨
  (CfnEvent.RequestType event = "Delete" ∧ handle k event = delete k event) ∨
  recognized_intent event = false.
Proof.
  destruct event as [rt props pid]. unfold recognized_intent. simpl.
  destruct (String.eqb_spec rt "Create") as [->|HC].
  { left. split; [done|apply handle_Create]. }
  destruct (String.eqb_spec rt "Update") as [->|HU].
  { right; left. split; [done|apply handle_Update]. }
  destruct (String.eqb_spec rt "Delete") as [->|HD].
  { right; right; left. split; [done|apply handle_Delete]. }
  by right; right; right.
Qed.

(** Every Create but that of a deployment returns, whatever the client
    answers, when the values it converts to strings can be. *)
Lemma create_returns k event c st :
  force_fail event = false → k ≠ FleetDeployment →
  all_printable (create_interpolates k event c (trace st)) = true →
  is_thrown (create k event c st).1 = false.
Proof.
  intros H Hk Hp. destruct k; simpl; [| | |done].
  - by rewrite role_alias_onCreate_run.
  - by rewrite bundle_onCreate_run.
  - destruct (group_onCreate_run event c st H) as (r & ec & -> & Hr).
    by destruct (Hr Hp) as [-> _].
Qed.

(** A Create that is not force-failed and has its parameter names sends
    its first call. *)
Lemma bundle_onCreate_first_call event c st :
  force_fail event = false →
  all_printable [prop event "StackName"; prop event "ThingName"] = true →
  ∃ rest,
    trace (ThingCertPolicyFn.onCreate event c st).2
    = trace st ++ CreateThingCommand (prop event "ThingName") :: rest.
Proof.
  intros H Hp. rewrite bundle_onCreate_unfold by done. rewrite Hp.
  unfold call. unfold bind at 1. unfold assign at 1. simpl.
  unfold ThingCertPolicyFn.create_blocks.
  match goal with |- context [bind _ _ c ?s] =>
    destruct (create_thing_run (prop event "ThingName") c s)
      as (st1 & R1 & T1 & _) end.
  rewrite (bind_Ret _ _ _ _ _ _ R1).
  match goal with |- context [bind ?m ?f c st1] =>
    assert (Hrest : sends_only (λ _, True) (bind m f)) end.
  { unfold ThingCertPolicyFn.create_keys_and_certificate, ThingCertPolicyFn.create_policy,
      ThingCertPolicyFn.attach_policy, ThingCertPolicyFn.attach_thing_principal,
      ThingCertPolicyFn.put_parameters, ThingCertPolicyFn.data_ats_endpoint,
      ThingCertPolicyFn.credential_provider_endpoint, ThingCertPolicyFn.create_result.
    solve_sends ltac:(exact I). }
  destruct (Hrest c st1) as (rest & Hr & _).
  destruct (bind _ _ c st1) as [r st']. simpl in *.
  exists rest. rewrite Hr, T1. simpl. by rewrite <- (assoc_L (++)).
Qed.

(** ** Create of a device identity bundle and the endpoint lookups *)

Section EndpointIndependence.
Import ThingCertPolicyFn.

Lemma same_but_endpoints_bind (b : M unit) (f : unit → M CfnResult.t) c c' st :
  asks_only (λ cmd, negb (is_DescribeEndpoint cmd)) b →
  agree_except_endpoints c c' →
  (∀ st1, same_but_endpoints (f tt c st1) (f tt c' st1)) →
  same_but_endpoints (bind b f c st) (bind b f c' st).
Proof.
  intros Hb Hc Hf. unfold bind. rewrite (Hb c c' st).
  - destruct (b c st) as [[[]|e] st1]; [apply Hf|done].
  - intros h cmd Hcmd. apply Hc. by apply negb_true_iff.
Qed.

(** What the client answers to the endpoint lookups changes neither whether
    Create raises nor, when it returns, its identity token and its other
    outputs. *)
Lemma endpoint_independence event c c' st :
  agree_except_endpoints c c' →
  same_but_endpoints (onCreate event c st) (onCreate event c' st).
Proof.
  intros Hc. destruct (force_fail event) eqn:Hff.
  { by rewrite !(create_force_fail DeviceIdentityBundle event _ st Hff). }
  rewrite !bundle_onCreate_unfold by done.
  destruct (all_printable _); [|done].
  unfold call. unfold bind at 1 2. unfold assign at 1 2. simpl.
  set (st0 := mkState _ (trace st) (exitCode st)).
  assert (Hblocks : same_but_endpoints
    (create_blocks (prop event "ThingName") (prop event "IotPolicyName") (prop event "IotPolicy")
       (private_key_parameter event) (certificate_pem_parameter event) c st0)
    (create_blocks (prop event "ThingName") (prop event "IotPolicyName") (prop event "IotPolicy")
       (private_key_parameter event) (certificate_pem_parameter event) c' st0)).
  { unfold create_blocks.
    do 6 (apply same_but_endpoints_bind;
          [ unfold create_thing, create_keys_and_certificate, create_policy, attach_policy,
              attach_thing_principal, put_parameters; solve_asks
          | done
          | intros ? ]).
    rewrite !endpoints_run. unfold same_but_endpoints. simpl. split; [done|].
    intros key Hk1 Hk2. rewrite !lookup_insert, !lookup_singleton.
    repeat case_decide; subst; done. }
  unfold same_but_endpoints in *.
  destruct (create_blocks _ _ _ _ _ c st0) as [r1 s1].
  destruct (create_blocks _ _ _ _ _ c' st0) as [r2 s2]. done.
Qed.

(** When Create returns, its last two calls are the endpoint lookups, and
    each endpoint output is the address the lookup returned, or the
    sentinel when the lookup failed. *)
Lemma endpoint_outputs event c st result st' :
  onCreate event c st = (Ret result, st') →
  let lookup1 := DescribeEndpointCommand "iot:Data-ATS" in
  let lookup2 := DescribeEndpointCommand "iot:CredentialProvider" in
  ∃ h,
    trace st' = h ++ [lookup1; lookup2] ∧
    CfnResult.Data result !! "DataAtsEndpointAddress"
      = Some (field_or (JStr sentinel) "endpointAddress" (c h lookup1)) ∧
    CfnResult.Data result !! "CredentialProviderEndpointAddress"
      = Some (field_or (JStr sentinel) "endpointAddress" (c (h ++ [lookup1]) lookup2)).
Proof.
  intros Hr lookup1 lookup2. destruct (force_fail event) eqn:Hff.
  { by rewrite (create_force_fail DeviceIdentityBundle event _ st Hff) in Hr. }
  rewrite bundle_onCreate_unfold in Hr by done.
  destruct (all_printable _); [|done].
  unfold call in Hr. unfold bind at 1 in Hr. unfold assign at 1 in Hr. simpl in Hr.
  unfold create_blocks in Hr.
  do 6 (unfold bind at 1 in Hr;
        match type of Hr with
        | context [let (_, _) := ?b c ?s in _] =>
            destruct (b c s) as [[[]|?] ?]; [|discriminate]
        | context [match ?b c ?s with _ => _ end] =>
            destruct (b c s) as [[[]|?] ?]; [|discriminate]
        end).
  rewrite endpoints_run in Hr. injection Hr as <- <-. simpl.
  eexists. split; [reflexivity|]. split; by simplify_map_eq.
Qed.

(** A Create that raises has sent no endpoint lookup: what can raise comes
    before the lookups. *)
Lemma bundle_create_throws_before_lookups event :
  throws_after_only (λ cmd, is_DescribeEndpoint cmd = false) (onCreate event).
Proof.
  unfold onCreate. apply throws_after_only_call.
  destruct (truthy _).
  { apply throws_after_only_sends, sends_only_throw. }
  apply throws_after_only_bind; [apply sends_only_assign|intros _].
  apply throws_after_only_bind; [apply sends_only_template|intros pk].
  apply throws_after_only_bind; [apply sends_only_template|intros pc].
  unfold create_blocks.
  do 6 (apply throws_after_only_bind;
        [ unfold create_thing, create_keys_and_certificate, create_policy, attach_policy,
            attach_thing_principal, put_parameters; solve_sends ltac:(reflexivity)
        | intros _ ]).
  intros c st. rewrite endpoints_run. simpl.
  eexists. split; [reflexivity|]. discriminate.
Qed.
End EndpointIndependence.

(** * The properties of the specification *)

(** ** Create: what a failing call stops *)

(** C1, as stated, fails: creating a thing group when the group-create call
    fails still goes on to the add-member calls. *)
Lemma create_continues_after_failure :
  force_fail group_event = false ∧
  trace (create DeviceGroupMembership group_event unavailable init).2
    = [ CreateThingGroupCommand (JStr "G1") JUndefined;
        AddThingToThingGroupCommand (JStr "G1") (JStr "arn:a") ] ∧
  ¬ stops_at_first_failure unavailable
      (trace (create DeviceGroupMembership group_event unavailable init).2).
Proof.
  split; [reflexivity|]. split; [by vm_compute|].
  intros H. specialize (H 0 eq_refl). vm_compute in H. discriminate.
Qed.

(** C1 (amended): in a Create that is not force-failed, a failing call stops
    the rest of its own [try] block only, and the blocks after it still
    run.  A role alias and a deployment send their single call.  A thing
    group sends the group-create call and then, whatever its outcome, the
    add-member calls in list order up to and including the first that
    fails.  A device identity bundle, when the values it converts to strings
    can be (its [StackName], [ThingName] and [IotPolicyName] and the
    certificate ARN it was given), sends the first call of each of its
    eight blocks whatever failed, and the put-parameter call for the
    certificate only if the one for the private key succeeded. *)
Theorem create_failure_stops_its_block_only event c st :
  force_fail event = false →
  trace (create CredentialExchangeBinding event c st).2
    = trace st ++ [role_alias_create_command event] ∧
  trace (create FleetDeployment event c st).2
    = trace st ++ [deployment_create_command event] ∧
  trace (create DeviceGroupMembership event c st).2
    = trace st ++ group_create_command event ::
        until_failure c (trace st ++ [group_create_command event])
          (group_add_command event) (elements (prop event "ThingArnList")) ∧
  (all_printable (create_interpolates DeviceIdentityBundle event c (trace st)) = true →
   trace (create DeviceIdentityBundle event c st).2
     = trace st ++ BundleCreate.first_calls event c (trace st)
         ++ BundleCreate.put_calls event c (trace st)
         ++ [ DescribeEndpointCommand "iot:Data-ATS";
              DescribeEndpointCommand "iot:CredentialProvider" ]).
Proof.
  intros H. simpl. repeat split.
  - by rewrite role_alias_onCreate_run.
  - by rewrite deployment_onCreate_run.
  - by destruct (group_onCreate_run event c st H) as (r & ec & -> & _).
  - intros Hp. by rewrite bundle_onCreate_run.
Qed.

(** An instance: a device identity bundle, every call of which fails. *)
Lemma create_failure_stops_its_block_only_witness :
  force_fail bundle_event = false ∧
  all_printable (create_interpolates DeviceIdentityBundle bundle_event unavailable (trace init))
    = true ∧
  trace (create DeviceIdentityBundle bundle_event unavailable init).2
  = trace init ++ BundleCreate.first_calls bundle_event unavailable (trace init)
      ++ BundleCreate.put_calls bundle_event unavailable (trace init)
      ++ [ DescribeEndpointCommand "iot:Data-ATS";
           DescribeEndpointCommand "iot:CredentialProvider" ].
Proof.
  split; [reflexivity|]. split; [reflexivity|].
  apply (create_failure_stops_its_block_only bundle_event unavailable init); reflexivity.
Defined.

(** ** Delete and Update *)

(** C2, as stated, fails: a Delete of a device identity bundle whose
    [ThingName] is a map with a member [toString] raises, before any call,
    when it builds the names of its parameters. *)
Lemma delete_raises_on_unprintable_name :
  handle DeviceIdentityBundle unprintable_delete_event healthy init
    = (Thrown (TypeError "Cannot convert object to primitive value"), init) ∧
  ¬ returns_prior_identity DeviceIdentityBundle unprintable_delete_event healthy init.
Proof.
  assert (H : handle DeviceIdentityBundle unprintable_delete_event healthy init
              = (Thrown (TypeError "Cannot convert object to primitive value"), init))
    by by vm_compute.
  split; [exact H|]. intros [st' Hr]. rewrite H in Hr. discriminate.
Qed.

(** C2 (amended): for every resource kind and every outcome of the calls
    made while unwinding, a Delete whose interpolated properties convert to
    strings returns (it does not raise) the prior identity of the event and
    no outputs; this holds for [onDelete] and for the handler dispatching a
    Delete event.  Whatever the properties are, a Delete that returns
    returns just that. *)
Theorem delete_always_returns_prior_identity k props prior c st :
  let event := CfnEvent.mk "Delete" props prior in
  (all_printable (delete_interpolates k event) = true →
   (∃ st', delete k event c st = (Ret (CfnResult.mk prior ∅), st')) ∧
   (∃ st', handle k event c st = (Ret (CfnResult.mk prior ∅), st'))) ∧
  (∀ result st', handle k event c st = (Ret result, st') → result = CfnResult.mk prior ∅).
Proof.
  intros event. subst event. rewrite handle_Delete. split.
  - intros Hp. split; by apply delete_run.
  - assert (Hr : returns_only (λ result, result = CfnResult.mk prior ∅)
                   (delete k (CfnEvent.mk "Delete" props prior))).
    { destruct k; simpl.
      + unfold RoleAliasFn.onDelete. solve_returns. by apply returns_only_ret.
      + unfold ThingCertPolicyFn.onDelete, ThingCertPolicyFn.delete_blocks.
        solve_returns. by apply returns_only_ret.
      + unfold ThingGroupFn.onDelete. solve_returns. by apply returns_only_ret.
      + unfold GreengrassV2DeploymentFn.onDelete. solve_returns. by apply returns_only_ret. }
    intros result st'. apply Hr.
Qed.

(** An instance: a device identity bundle, every call of which fails. *)
Lemma delete_always_returns_prior_identity_witness :
  all_printable (delete_interpolates DeviceIdentityBundle bundle_delete_event) = true ∧
  (∃ st', delete DeviceIdentityBundle bundle_delete_event unavailable init
          = (Ret (CfnResult.mk (JStr "c1") ∅), st')) ∧
  (∃ st', handle DeviceIdentityBundle bundle_delete_event unavailable init
          = (Ret (CfnResult.mk (JStr "c1") ∅), st')).
Proof.
  split; [reflexivity|].
  apply (delete_always_returns_prior_identity DeviceIdentityBundle
           (CfnEvent.ResourceProperties bundle_delete_event) (JStr "c1") unavailable init).
  reflexivity.
Defined.

(** C3: for every resource kind, properties and prior identity (empty or
    not), Update returns the prior identity and no outputs, and leaves the
    state as it was: no call is sent. *)
Theorem update_is_identity_preserving_noop k props prior c st :
  let event := CfnEvent.mk "Update" props prior in
  update k event c st = (Ret (CfnResult.mk prior ∅), st) ∧
  handle k event c st = (Ret (CfnResult.mk prior ∅), st) ∧
  trace (handle k event c st).2 = trace st.
Proof.
  intros event. subst event. by rewrite handle_Update, update_run.
Qed.

(** C4, as stated, fails: a Delete whose [IotPolicyName] is a map with a
    member [toString] raises when it logs the failure of its second call,
    and never gets to the deletion of the thing. *)
Lemma delete_thing_is_not_always_attempted :
  trace (handle DeviceIdentityBundle unprintable_policy_event unavailable init).2
    = [ DeleteParametersCommand
          ["/stack/my-thing/private_key"; "/stack/my-thing/certificate_pem"];
        ListPolicyVersionsCommand unprintable ] ∧
  ¬ attempts_thing_deletion_last unprintable_policy_event unavailable init.
Proof.
  assert (H : trace (handle DeviceIdentityBundle unprintable_policy_event unavailable init).2
    = [ DeleteParametersCommand
          ["/stack/my-thing/private_key"; "/stack/my-thing/certificate_pem"];
        ListPolicyVersionsCommand unprintable ]) by by vm_compute.
  split; [exact H|]. intros [pre Hpre]. rewrite H in Hpre. simpl in Hpre.
  destruct pre as [|x1 [|x2 [|x3 pre]]]; simplify_list_eq.
Qed.

(** C4 (amended): whatever the properties and the outcomes of the calls,
    deleting a device identity bundle sends no [DeleteThing] before its
    last call, so no detach call comes after it.  When the properties the
    Delete converts to strings can be, it does send [DeleteThing] for the
    thing, exactly once and as the last call of the invocation, whatever
    failed before. *)
Theorem delete_thing_is_attempted_last props prior c st :
  let event := CfnEvent.mk "Delete" props prior in
  let delete_thing := DeleteThingCommand (prop event "ThingName") in
  (∃ pre,
     Forall (λ cmd, is_DeleteThing cmd = false) pre ∧
     (trace (handle DeviceIdentityBundle event c st).2 = trace st ++ pre ∨
      trace (handle DeviceIdentityBundle event c st).2 = trace st ++ pre ++ [delete_thing])) ∧
  (all_printable (delete_interpolates DeviceIdentityBundle event) = true →
   ∃ st' pre,
     handle DeviceIdentityBundle event c st = (Ret (CfnResult.mk prior ∅), st') ∧
     trace st' = trace st ++ pre ++ [delete_thing] ∧
     Forall (λ cmd, is_DeleteThing cmd = false) pre ∧
     (∀ i cmd, (pre ++ [delete_thing]) !! i = Some cmd →
               is_detach cmd = true → i < length pre)).
Proof.
  intros event delete_thing. split.
  { subst event. rewrite handle_Delete. apply bundle_delete_thing_last. }
  intros Hp.
  destruct (bundle_unwind event c st Hp)
    as (st' & vs & ts & ds & ps & Hr & Ht & Qv & Qt & Qd & Qp).
  subst event. rewrite handle_Delete. simpl in *.
  eexists st', (_ :: _ :: vs ++ _ :: ts ++ _ :: _ :: ds ++ _ :: _ ++ _ :: ps).
  split; [exact Hr|]. split.
  { rewrite Ht. simplify_list_eq. reflexivity. }
  split.
  { repeat first [apply Forall_cons; split; [done|] | apply Forall_app; split].
    - eapply Forall_impl; [exact Qv|]. by intros cmd (? & ? & _ & _ & _ & ->).
    - eapply Forall_impl; [exact Qt|]. by intros cmd [? ->].
    - eapply Forall_impl; [exact Qd|]. by intros cmd [->|[->|[? ->]]].
    - match goal with |- context [failed ?o] => destruct (failed o) end;
        by repeat constructor.
    - eapply Forall_impl; [exact Qp|]. by intros cmd [? ->]. }
  intros i cmd Hi Hd.
  match goal with |- i < length ?pre => destruct (decide (i < length pre)) as [|Hge] end;
    [done|].
  rewrite lookup_app_r in Hi by lia.
  match type of Hi with [_] !! ?n = _ => destruct n as [|m] end; simpl in Hi;
    [|by destruct m].
  injection Hi as <-. discriminate.
Qed.

(** An instance: the sample bundle, every call of which succeeds. *)
Lemma delete_thing_is_attempted_last_witness :
  all_printable (delete_interpolates DeviceIdentityBundle bundle_delete_event) = true ∧
  ∃ st' pre,
    handle DeviceIdentityBundle bundle_delete_event healthy init
      = (Ret (CfnResult.mk (JStr "c1") ∅), st') ∧
    trace st' = trace init ++ pre
                  ++ [DeleteThingCommand (prop bundle_delete_event "ThingName")] ∧
    Forall (λ cmd, is_DeleteThing cmd = false) pre ∧
    (∀ i cmd,
       (pre ++ [DeleteThingCommand (prop bundle_delete_event "ThingName")]) !! i = Some cmd →
       is_detach cmd = true → i < length pre).
Proof.
  split; [reflexivity|].
  apply (delete_thing_is_attempted_last
           (CfnEvent.ResourceProperties bundle_delete_event) (JStr "c1") healthy init).
  reflexivity.
Defined.

(** ** The dispatcher's failures *)

(** C5, as stated, fails: the deployment handler raises on a Create with a
    recognized intent and no force-fail flag when the create-deployment call
    fails. *)
Lemma deployment_create_failure_is_raised :
  ¬ fails_only_on_bad_request FleetDeployment deployment_event unavailable init.
Proof.
  intros H. destruct (H eq_refl) as [H'|[_ H']]; vm_compute in H'; discriminate.
Qed.

Lemma interpolates_Create k event c h :
  CfnEvent.RequestType event = "Create" →
  interpolates k event c h = create_interpolates k event c h.
Proof. unfold interpolates. by intros ->. Qed.

Lemma interpolates_Delete k event c h :
  CfnEvent.RequestType event = "Delete" →
  interpolates k event c h = delete_interpolates k event.
Proof. unfold interpolates. by intros ->. Qed.

(** C5 (amended): the handler raises when the intent is not one of Create,
    Update, Delete, when the event is a Create with the force-fail flag,
    and when the event is a Create of a deployment whose create-deployment
    call fails; for an event whose interpolated values convert to strings
    it raises in no other case, whatever the calls answer.  In the first
    two cases it has changed nothing and sent no call when it raises. *)
Theorem handler_raises_exactly_when k event c st :
  (recognized_intent event = false ∨
   (CfnEvent.RequestType event = "Create" ∧ force_fail event = true) ∨
   (k = FleetDeployment ∧ CfnEvent.RequestType event = "Create" ∧
    force_fail event = false ∧
    failed (c (trace st) (deployment_create_command event)) = true) →
   is_thrown (handle k event c st).1 = true) ∧
  (all_printable (interpolates k event c (trace st)) = true →
   is_thrown (handle k event c st).1 = true →
   recognized_intent event = false ∨
   (CfnEvent.RequestType event = "Create" ∧ force_fail event = true) ∨
   (k = FleetDeployment ∧ CfnEvent.RequestType event = "Create" ∧
    force_fail event = false ∧
    failed (c (trace st) (deployment_create_command event)) = true)) ∧
  (recognized_intent event = false ∨
   (CfnEvent.RequestType event = "Create" ∧ force_fail event = true) →
   (handle k event c st).2 = st).
Proof.
  destruct (handle_intent k event) as [[Hi ->]|[[Hi ->]|[[Hi ->]|Hi]]].
  - (* Create *)
    assert (Hrec : recognized_intent event = true)
      by (unfold recognized_intent; by rewrite Hi).
    rewrite (interpolates_Create k event c (trace st) Hi).
    destruct (force_fail event) eqn:Hff.
    + rewrite (create_force_fail k event c st Hff). simpl.
      repeat split; try done. intros _ _. right; left; done.
    + split; [|split]; [| |intros [?|[_ ?]]; congruence].
      * intros [?|[[_ ?]|(-> & _ & _ & Hf)]]; [congruence..|].
        simpl. rewrite deployment_onCreate_run by done.
        destruct (c _ _); [done|]. by destruct (render _).
      * intros Hp Hthrown. destruct (decide (k = FleetDeployment)) as [->|Hk].
        -- simpl in Hthrown. rewrite deployment_onCreate_run in Hthrown by done.
           right; right. repeat split; try done. by destruct (c _ _).
        -- by rewrite (create_returns k event c st Hff Hk Hp) in Hthrown.
  - (* Update *)
    assert (Hrec : recognized_intent event = true).
    { unfold recognized_intent. rewrite Hi. done. }
    rewrite (update_run k event c st). simpl.
    split; [|split]; [| done |].
    + intros [?|[[? _]|(_ & ? & _)]]; congruence.
    + intros [?|[? _]]; congruence.
  - (* Delete *)
    assert (Hrec : recognized_intent event = true).
    { unfold recognized_intent. rewrite Hi. done. }
    rewrite (interpolates_Delete k event c (trace st) Hi).
    split; [|split].
    + intros [?|[[? _]|(_ & ? & _)]]; congruence.
    + intros Hp. by destruct (delete_run k event c st Hp) as [st' ->].
    + intros [?|[? _]]; congruence.
  - rewrite (handle_unrecognized k event c st Hi). simpl.
    repeat split; try done. intros _ _. by left.
Qed.

(** An instance: a deployment whose create-deployment call fails. *)
Lemma handler_raises_exactly_when_witness :
  all_printable (interpolates FleetDeployment deployment_event unavailable (trace init)) = true ∧
  is_thrown (handle FleetDeployment deployment_event unavailable init).1 = true ∧
  (recognized_intent deployment_event = false ∨
   (CfnEvent.RequestType deployment_event = "Create" ∧ force_fail deployment_event = true) ∨
   (FleetDeployment = FleetDeployment ∧ CfnEvent.RequestType deployment_event = "Create" ∧
    force_fail deployment_event = false ∧
    failed (unavailable (trace init) (deployment_create_command deployment_event)) = true)).
Proof.
  split; [reflexivity|]. split; [reflexivity|].
  apply (handler_raises_exactly_when FleetDeployment deployment_event unavailable init);
    reflexivity.
Defined.

(** ** Delete of a device identity bundle: the discovered edges *)

(** C6 fails on the code: the thing returned by [ListPrincipalThings] is
    ["other-thing"], and the detach call sent for it names ["my-thing"], the
    [ThingName] property, instead; no detach call names the discovered
    thing.  The loop over attached policies does name the discovered
    policy. *)
Theorem detach_names_the_property_not_the_discovered_thing :
  trace (handle DeviceIdentityBundle bundle_delete_event attached_elsewhere init).2
  = [ DeleteParametersCommand ["/stack/my-thing/private_key"; "/stack/my-thing/certificate_pem"];
      ListPolicyVersionsCommand (JStr "my-policy");
      ListTargetsForPolicyCommand (JStr "my-policy");
      DeletePolicyCommand (JStr "my-policy");
      ListPrincipalThingsCommand (JStr "arn:cert/c1");
      DetachThingPrincipalCommand (JStr "my-thing") (JStr "arn:cert/c1");
      ListAttachedPoliciesCommand (JStr "arn:cert/c1");
      DetachPolicyCommand (JStr "other-policy") (JStr "arn:cert/c1");
      UpdateCertificateCommand (JStr "c1") "REVOKED";
      DeleteCertificateCommand (JStr "c1");
      ListThingPrincipalsCommand (JStr "my-thing");
      DeleteThingCommand (JStr "my-thing") ].
Proof. by vm_compute. Qed.

(** ** Create: the identity token *)

(** C7, as stated, fails: when the create-deployment call fails, Create of a
    deployment raises instead of returning an identity token. *)
Lemma deployment_create_returns_no_token :
  force_fail deployment_event = false ∧
  failed (unavailable [] (deployment_create_command deployment_event)) = true ∧
  (create FleetDeployment deployment_event unavailable init).1
    = Thrown (Error ("Error calling create_deployment for target arn:target, error: "
                     +:+ "ServiceUnavailableException: Service unavailable")).
Proof. by vm_compute. Qed.

(** C7 (amended): a Create that is not force-failed returns whatever calls
    fail, for a role alias and, when the values it converts to strings can
    be, for a thing group and for a device identity bundle; its identity
    token is the id in the answer of the call that yields it ([roleAlias],
    [thingGroupId], [certificateId]) when that call succeeded, whatever else
    failed before or after it, and the empty string when that call failed.
    Create of a deployment returns [deploymentId] when the create-deployment
    call succeeded and raises when it failed. *)
Theorem create_identity_token event c st :
  force_fail event = false →
  (∃ data st',
     create CredentialExchangeBinding event c st
       = (Ret (CfnResult.mk
                 (field_or (JStr "") "roleAlias"
                    (c (trace st) (role_alias_create_command event))) data), st')) ∧
  (all_printable (create_interpolates DeviceGroupMembership event c (trace st)) = true →
   ∃ data st',
     create DeviceGroupMembership event c st
       = (Ret (CfnResult.mk
                 (field_or (JStr "") "thingGroupId"
                    (c (trace st) (group_create_command event))) data), st')) ∧
  (all_printable (create_interpolates DeviceIdentityBundle event c (trace st)) = true →
   ∃ data st',
     create DeviceIdentityBundle event c st
       = (Ret (CfnResult.mk
                 (field_or (JStr "") "certificateId"
                    (c (trace st ++ [CreateThingCommand (prop event "ThingName")])
                       (CreateKeysAndCertificateCommand true))) data), st')) ∧
  match c (trace st) (deployment_create_command event) with
  | Ok response =>
      ∃ data st',
        create FleetDeployment event c st
          = (Ret (CfnResult.mk (field response "deploymentId") data), st')
  | Fail _ _ => is_thrown (create FleetDeployment event c st).1 = true
  end.
Proof.
  intros H. simpl. repeat split.
  - rewrite role_alias_onCreate_run by done. by eexists _, _.
  - intros Hp. destruct (group_onCreate_run event c st H) as (r & ec & -> & Hr).
    destruct (Hr Hp) as [-> _]. by eexists _, _.
  - intros Hp. rewrite bundle_onCreate_run by done. by eexists _, _.
  - rewrite deployment_onCreate_run by done.
    destruct (c _ _); [by eexists _, _|]. by destruct (render _).
Qed.

(** An instance: a device identity bundle, every call of which succeeds. *)
Lemma create_identity_token_witness :
  force_fail bundle_event = false ∧
  all_printable (create_interpolates DeviceIdentityBundle bundle_event healthy (trace init))
    = true ∧
  ∃ data st',
    create DeviceIdentityBundle bundle_event healthy init
    = (Ret (CfnResult.mk
              (field_or (JStr "") "certificateId"
                 (healthy (trace init ++ [CreateThingCommand (prop bundle_event "ThingName")])
                    (CreateKeysAndCertificateCommand true))) data), st').
Proof.
  split; [reflexivity|]. split; [reflexivity|].
  apply (create_identity_token bundle_event healthy init); reflexivity.
Defined.

(** ** Create of a thing group: the scenario of the specification *)

(** C8: for [{ThingGroupName: "G1", ThingArnList: ["arn:a", "arn:b"]}], when
    the group-create call and the first add-member call succeed, Create
    sends one group-create call and then one add-member call for each ARN,
    in list order; the identity token is the id the group-create call
    returned, and the outputs hold the group's ARN and id. *)
Theorem create_group_G1 c st response response1 :
  let create_group := CreateThingGroupCommand (JStr "G1") JUndefined in
  let add_a := AddThingToThingGroupCommand (JStr "G1") (JStr "arn:a") in
  let add_b := AddThingToThingGroupCommand (JStr "G1") (JStr "arn:b") in
  c (trace st) create_group = Ok response →
  c (trace st ++ [create_group]) add_a = Ok response1 →
  ∃ result st',
    handle DeviceGroupMembership group_event c st = (Ret result, st') ∧
    trace st' = trace st ++ [create_group; add_a; add_b] ∧
    CfnResult.PhysicalResourceId result = field response "thingGroupId" ∧
    CfnResult.Data result !! "ThingGroupArn" = Some (field response "thingGroupArn") ∧
    CfnResult.Data result !! "ThingGroupId" = Some (field response "thingGroupId").
Proof.
  intros create_group add_a add_b H0 H1.
  unfold group_event. rewrite handle_Create. fold group_event. simpl.
  destruct (group_onCreate_run group_event c st eq_refl) as (r & ec & -> & Hr).
  destruct (Hr eq_refl) as [-> _].
  change (group_create_command group_event) with create_group.
  change (elements (prop group_event "ThingArnList")) with [JStr "arn:a"; JStr "arn:b"].
  change (prop group_event "ThingGroupName") with (JStr "G1").
  rewrite H0. eexists _, _. split; [reflexivity|]. simpl.
  change (group_add_command group_event (JStr "arn:a")) with add_a.
  change (group_add_command group_event (JStr "arn:b")) with add_b.
  rewrite H1. simpl.
  split; [by destruct (failed _)|]. split; [done|]. split; by simplify_map_eq.
Qed.

(** An instance: the client every call of which succeeds. *)
Lemma create_group_G1_witness :
  healthy (trace init) (CreateThingGroupCommand (JStr "G1") JUndefined)
    = Ok {[ "thingGroupArn" := JStr "arn:thinggroup/G1"; "thingGroupId" := JStr "g-1" ]} ∧
  healthy (trace init ++ [CreateThingGroupCommand (JStr "G1") JUndefined])
    (AddThingToThingGroupCommand (JStr "G1") (JStr "arn:a")) = Ok ∅ ∧
  ∃ result st',
    handle DeviceGroupMembership group_event healthy init = (Ret result, st') ∧
    trace st' = trace init ++ [ CreateThingGroupCommand (JStr "G1") JUndefined;
                                AddThingToThingGroupCommand (JStr "G1") (JStr "arn:a");
                                AddThingToThingGroupCommand (JStr "G1") (JStr "arn:b") ] ∧
    CfnResult.PhysicalResourceId result
      = field {[ "thingGroupArn" := JStr "arn:thinggroup/G1"; "thingGroupId" := JStr "g-1" ]}
          "thingGroupId" ∧
    CfnResult.Data result !! "ThingGroupArn"
      = Some (field {[ "thingGroupArn" := JStr "arn:thinggroup/G1";
                       "thingGroupId" := JStr "g-1" ]} "thingGroupArn") ∧
    CfnResult.Data result !! "ThingGroupId"
      = Some (field {[ "thingGroupArn" := JStr "arn:thinggroup/G1";
                       "thingGroupId" := JStr "g-1" ]} "thingGroupId").
Proof.
  split; [reflexivity|]. split; [reflexivity|].
  apply (create_group_G1 healthy init
           {[ "thingGroupArn" := JStr "arn:thinggroup/G1"; "thingGroupId" := JStr "g-1" ]} ∅);
    reflexivity.
Defined.

(** ** Create of a device identity bundle: the endpoint lookups *)

(** C9: a failed endpoint lookup does not fail Create of a device identity
    bundle.  Whatever the event and the client, a Create that has sent an
    endpoint lookup returns: neither a lookup that fails nor anything after
    it raises.  A Create that is not force-failed gets to the lookups and
    returns when the values it converts to strings can be.  When Create
    returns, each of the two endpoint outputs is the address the lookup
    returned, and ["stack_error: see log files"] when the lookup failed; the
    identity token and the other outputs are intact: they are the same for
    every client that differs only in its answers to the endpoint lookups,
    and so is whether Create raises. *)
Theorem endpoint_lookup_failure_is_not_fatal event c st :
  (∀ new,
     trace (create DeviceIdentityBundle event c st).2 = trace st ++ new →
     Exists (λ cmd, is_DescribeEndpoint cmd = true) new →
     is_thrown (create DeviceIdentityBundle event c st).1 = false) ∧
  (force_fail event = false →
   all_printable (create_interpolates DeviceIdentityBundle event c (trace st)) = true →
   is_thrown (create DeviceIdentityBundle event c st).1 = false) ∧
  (∀ result st',
     create DeviceIdentityBundle event c st = (Ret result, st') →
     ∃ h,
       trace st' = h ++ [ DescribeEndpointCommand "iot:Data-ATS";
                          DescribeEndpointCommand "iot:CredentialProvider" ] ∧
       CfnResult.Data result !! "DataAtsEndpointAddress"
         = Some (field_or (JStr "stack_error: see log files") "endpointAddress"
                   (c h (DescribeEndpointCommand "iot:Data-ATS"))) ∧
       CfnResult.Data result !! "CredentialProviderEndpointAddress"
         = Some (field_or (JStr "stack_error: see log files") "endpointAddress"
                   (c (h ++ [DescribeEndpointCommand "iot:Data-ATS"])
                      (DescribeEndpointCommand "iot:CredentialProvider")))) ∧
  (∀ c', agree_except_endpoints c c' →
     is_thrown (create DeviceIdentityBundle event c' st).1
       = is_thrown (create DeviceIdentityBundle event c st).1 ∧
     ∀ result st' result' st'',
       create DeviceIdentityBundle event c st = (Ret result, st') →
       create DeviceIdentityBundle event c' st = (Ret result', st'') →
       CfnResult.PhysicalResourceId result' = CfnResult.PhysicalResourceId result ∧
       ∀ key, key ≠ "DataAtsEndpointAddress" →
              key ≠ "CredentialProviderEndpointAddress" →
              CfnResult.Data result' !! key = CfnResult.Data result !! key).
Proof.
  split; [|split; [|split]].
  - intros new Ht Hlookup. simpl in *.
    destruct (bundle_create_throws_before_lookups event c st) as (new' & Ht' & HQ).
    rewrite Ht' in Ht. apply app_inv_head in Ht as ->.
    destruct (is_thrown _); [|done]. exfalso.
    apply Exists_exists in Hlookup as (cmd & Hin & Hcmd).
    specialize (HQ eq_refl). rewrite Forall_forall in HQ.
    specialize (HQ cmd Hin). simpl in HQ. congruence.
  - intros H Hp. by apply (create_returns DeviceIdentityBundle).
  - intros result st' Hr. by apply (endpoint_outputs event c st result st').
  - intros c' Hc. pose proof (endpoint_independence event c c' st Hc) as Hsame.
    simpl. unfold same_but_endpoints in Hsame.
    destruct (ThingCertPolicyFn.onCreate event c st) as [[r|e] s];
      destruct (ThingCertPolicyFn.onCreate event c' st) as [[r'|e'] s']; simpl in *;
      try done.
    split; [done|]. by intros ? ? ? ? [= <- _] [= <- _].
Qed.

(** An instance: both endpoint lookups fail, where they succeed for another
    client. *)
Lemma endpoint_lookup_failure_is_not_fatal_witness :
  force_fail bundle_event = false ∧
  all_printable (create_interpolates DeviceIdentityBundle bundle_event no_endpoints (trace init))
    = true ∧
  agree_except_endpoints no_endpoints healthy ∧
  failed (no_endpoints
            (BundleCreate.first_calls bundle_event no_endpoints (trace init)
             ++ BundleCreate.put_calls bundle_event no_endpoints (trace init))
            (DescribeEndpointCommand "iot:Data-ATS")) = true ∧
  is_thrown (create DeviceIdentityBundle bundle_event no_endpoints init).1 = false ∧
  is_thrown (create DeviceIdentityBundle bundle_event healthy init).1
    = is_thrown (create DeviceIdentityBundle bundle_event no_endpoints init).1.
Proof.
  split; [reflexivity|]. split; [reflexivity|].
  assert (Hc : agree_except_endpoints no_endpoints healthy).
  { intros h cmd Hcmd. by destruct cmd. }
  split; [exact Hc|]. split; [reflexivity|].
  destruct (endpoint_lookup_failure_is_not_fatal bundle_event no_endpoints init)
    as (Hlookup & Hreturns & _ & Hsame).
  split; [apply Hreturns; reflexivity|].
  by destruct (Hsame healthy Hc) as [-> _].
Defined.

(** ** [addComponent] *)

Section AddComponentFacts.
Import GreengrassV2Deployment.

Lemma fold_keeps component l this k e :
  componentList this !! k = Some e →
  componentList (foldl (addComponent_key component) this l) !! k = Some e.
Proof.
  revert this. induction l as [|key l IH]; intros this Hk; simpl; [done|].
  apply IH. unfold addComponent_key.
  destruct (js_in key (componentList this)) eqn:Hin; simpl; [done|].
  unfold js_in in Hin. apply orb_false_elim in Hin as [Hown _].
  apply bool_decide_eq_false in Hown.
  rewrite lookup_insert_ne; [done|]. intros ->. apply Hown. by eexists.
Qed.

(** An entry of the component list is never overwritten. *)
Lemma addComponent_keeps this component k e :
  componentList this !! k = Some e →
  componentList (addComponent this component) !! k = Some e.
Proof. apply fold_keeps. Qed.

Lemma fold_adds component l this k e :
  k ∈ l → k ∉ object_prototype_keys →
  componentList this !! k = None → component !! k = Some e →
  componentList (foldl (addComponent_key component) this l) !! k = Some e.
Proof.
  intros Hl Hp. revert this.
  induction l as [|key l IH]; intros this Hk He; simpl; [by apply elem_of_nil in Hl|].
  destruct (decide (key = k)) as [->|Hne].
  - apply fold_keeps. unfold addComponent_key.
    assert (js_in k (componentList this) = false) as ->.
    { unfold js_in. rewrite Hk.
      rewrite (bool_decide_eq_false_2 (is_Some None)) by (by intros [? ?]).
      by rewrite bool_decide_eq_false_2. }
    simpl. rewrite He. apply lookup_insert_eq.
  - apply IH; [|unfold addComponent_key|done].
    + apply elem_of_cons in Hl as [->|]; done.
    + destruct (js_in key (componentList this)); simpl; [done|].
      by rewrite lookup_insert_ne.
Qed.

(** A new component is added, unless its name is one that every object
    inherits. *)
Lemma addComponent_adds this component k e :
  k ∉ object_prototype_keys →
  componentList this !! k = None → component !! k = Some e →
  componentList (addComponent this component) !! k = Some e.
Proof.
  intros Hp Hk He. apply fold_adds; try done.
  unfold Object_keys. apply list_elem_of_fmap. exists (k, e). split; [done|].
  by apply elem_of_map_to_list.
Qed.
End AddComponentFacts.

(** C10 fails on the code: a component whose name is a property every object
    inherits (here ["toString"]) is in no component list, yet [addComponent]
    rejects it as a duplicate, flags the process as failed and does not add
    it. *)
Theorem addComponent_rejects_inherited_name :
  let deployment := GreengrassV2Deployment.mk ∅ None in
  let component : gmap string JsVal :=
    {[ "toString" := JObj {[ "componentVersion" := JStr "1.0.0" ]} ]} in
  GreengrassV2Deployment.componentList deployment !! "toString" = None ∧
  GreengrassV2Deployment.componentList
    (GreengrassV2Deployment.addComponent deployment component) !! "toString" = None ∧
  GreengrassV2Deployment.process_exitCode
    (GreengrassV2Deployment.addComponent deployment component) = Some 1.
Proof. by vm_compute. Qed.

(** * Further properties of the handlers and the constructs *)

(** ** Delete of a device identity bundle: order and targets *)

(** X1: the unwind order of a device identity bundle.  When the properties
    a Delete converts to strings can be, then whatever the client answers,
    it returns the prior identity and sends, in this order: the deletion of
    the two SSM parameters; the listing of the policy's versions and
    deletions of versions of that policy; the listing of the policy's
    targets and detachments from that policy; the deletion of the policy;
    the listing of the certificate's things and the detachments from the
    certificate; the revocation of the certificate and at most its
    deletion; the listing of the thing's principals and detachments from
    that thing; the deletion of the thing. *)
Theorem bundle_delete_unwind_order props prior c st :
  let event := CfnEvent.mk "Delete" props prior in
  let thing_name := prop event "ThingName" in
  let policy_name := prop event "IotPolicyName" in
  let certificate_arn := prop event "CertificateArn" in
  all_printable (delete_interpolates DeviceIdentityBundle event) = true →
  ∃ st' vs ts ds dc ps,
    handle DeviceIdentityBundle event c st = (Ret (CfnResult.mk prior ∅), st') ∧
    trace st' = trace st
      ++ [DeleteParametersCommand (parameter_names event);
          ListPolicyVersionsCommand policy_name] ++ vs
      ++ [ListTargetsForPolicyCommand policy_name] ++ ts
      ++ [DeletePolicyCommand policy_name;
          ListPrincipalThingsCommand certificate_arn] ++ ds
      ++ [UpdateCertificateCommand prior "REVOKED"] ++ dc
      ++ [ListThingPrincipalsCommand thing_name] ++ ps
      ++ [DeleteThingCommand thing_name] ∧
    Forall (λ cmd, ∃ v, cmd = DeletePolicyVersionCommand policy_name v) vs ∧
    Forall (detaches_target policy_name) ts ∧
    Forall (detaches_certificate thing_name certificate_arn) ds ∧
    (dc = [] ∨ dc = [DeleteCertificateCommand prior]) ∧
    Forall (detaches_principal thing_name) ps.
Proof.
  intros event thing_name policy_name certificate_arn Hp.
  destruct (bundle_unwind event c st Hp)
    as (st' & vs & ts & ds & ps & Hr & Ht & Qv & Qt & Qd & Qp).
  subst event. rewrite handle_Delete. simpl in *.
  eexists st', vs, ts, ds, _, ps. split; [exact Hr|]. split.
  { rewrite Ht. simplify_list_eq. reflexivity. }
  split.
  { eapply Forall_impl; [exact Qv|]. intros cmd (? & ? & _ & _ & _ & ->). by eexists. }
  repeat split; try done.
  match goal with |- context [failed ?o] => destruct (failed o) end; by eauto.
Qed.

(** An instance: the sample bundle, every call of which fails. *)
Lemma bundle_delete_unwind_order_witness :
  all_printable (delete_interpolates DeviceIdentityBundle bundle_delete_event) = true ∧
  ∃ st' vs ts ds dc ps,
    handle DeviceIdentityBundle bundle_delete_event unavailable init
      = (Ret (CfnResult.mk (JStr "c1") ∅), st') ∧
    trace st' = trace init
      ++ [DeleteParametersCommand (parameter_names bundle_delete_event);
          ListPolicyVersionsCommand (prop bundle_delete_event "IotPolicyName")] ++ vs
      ++ [ListTargetsForPolicyCommand (prop bundle_delete_event "IotPolicyName")] ++ ts
      ++ [DeletePolicyCommand (prop bundle_delete_event "IotPolicyName");
          ListPrincipalThingsCommand (prop bundle_delete_event "CertificateArn")] ++ ds
      ++ [UpdateCertificateCommand (JStr "c1") "REVOKED"] ++ dc
      ++ [ListThingPrincipalsCommand (prop bundle_delete_event "ThingName")] ++ ps
      ++ [DeleteThingCommand (prop bundle_delete_event "ThingName")] ∧
    Forall (λ cmd, ∃ v, cmd = DeletePolicyVersionCommand
                                (prop bundle_delete_event "IotPolicyName") v) vs ∧
    Forall (detaches_target (prop bundle_delete_event "IotPolicyName")) ts ∧
    Forall (detaches_certificate (prop bundle_delete_event "ThingName")
              (prop bundle_delete_event "CertificateArn")) ds ∧
    (dc = [] ∨ dc = [DeleteCertificateCommand (JStr "c1")]) ∧
    Forall (detaches_principal (prop bundle_delete_event "ThingName")) ps.
Proof.
  split; [reflexivity|].
  apply (bundle_delete_unwind_order
           (CfnEvent.ResourceProperties bundle_delete_event) (JStr "c1") unavailable init).
  reflexivity.
Defined.

(** X2: pruning spares the default version.  Every [DeletePolicyVersion]
    call a Delete sends is for the policy of the resource and for a version
    that the [ListPolicyVersions] call of this Delete returned with an
    [isDefaultVersion] that is not truthy. *)
Theorem pruning_spares_the_default_version props prior c st :
  let event := CfnEvent.mk "Delete" props prior in
  let policy_name := prop event "IotPolicyName" in
  ∃ new,
    trace (handle DeviceIdentityBundle event c st).2 = trace st ++ new ∧
    ∀ p v, DeletePolicyVersionCommand p v ∈ new →
      p = policy_name ∧
      ∃ response version,
        c (trace st ++ [DeleteParametersCommand (parameter_names event)])
          (ListPolicyVersionsCommand policy_name) = Ok response ∧
        version ∈ elements (field response "policyVersions") ∧
        truthy (member_of version "isDefaultVersion") = false ∧
        v = member_of version "versionId".
Proof.
  intros event policy_name.
  destruct (bundle_delete_prunes event c st) as (new & Ht & Hnew).
  subst event. rewrite handle_Delete. simpl in *.
  exists new. split; [exact Ht|].
  intros p v Hin.
  destruct (Hnew _ Hin) as (r & ver & Ho & Hv & Hd & Heq); [by eexists _, _|].
  injection Heq as -> ->. split; [done|]. exists r, ver.
  repeat split; try done. unfold is_non_default in Hd. by apply negb_true_iff.
Qed.

(** X3: the certificate is deleted only once it is revoked.  When the
    properties a Delete converts to strings can be, it revokes the
    certificate named by the prior identity exactly once, and sends its
    deletion right after the revocation if and only if the revocation
    succeeded; no other call of the Delete updates or deletes a
    certificate. *)
Theorem certificate_deleted_only_after_revoke props prior c st :
  let event := CfnEvent.mk "Delete" props prior in
  let revoke := UpdateCertificateCommand prior "REVOKED" in
  all_printable (delete_interpolates DeviceIdentityBundle event) = true →
  ∃ before after,
    trace (handle DeviceIdentityBundle event c st).2
      = trace st ++ before ++ revoke ::
          (if failed (c (trace st ++ before) revoke) then []
           else [DeleteCertificateCommand prior]) ++ after ∧
    Forall (λ cmd, touches_certificate cmd = false) before ∧
    Forall (λ cmd, touches_certificate cmd = false) after.
Proof.
  intros event revoke Hp.
  destruct (bundle_unwind event c st Hp)
    as (st' & vs & ts & ds & ps & Hr & Ht & Qv & Qt & Qd & Qp).
  subst event. rewrite handle_Delete. simpl in *. rewrite Hr. simpl.
  eexists (_ :: _ :: vs ++ _ :: ts ++ _ :: _ :: ds), (_ :: ps ++ [_]). split.
  { rewrite Ht. fold revoke. simplify_list_eq. reflexivity. }
  split.
  - repeat first [apply Forall_cons; split; [done|] | apply Forall_app; split].
    + eapply Forall_impl; [exact Qv|]. by intros cmd (? & ? & _ & _ & _ & ->).
    + eapply Forall_impl; [exact Qt|]. by intros cmd [? ->].
    + eapply Forall_impl; [exact Qd|]. by intros cmd [->|[->|[? ->]]].
  - repeat first [apply Forall_cons; split; [done|] | apply Forall_app; split].
    + eapply Forall_impl; [exact Qp|]. by intros cmd [? ->].
    + by repeat constructor.
Qed.

(** An instance: the sample bundle, every call of which succeeds. *)
Lemma certificate_deleted_only_after_revoke_witness :
  all_printable (delete_interpolates DeviceIdentityBundle bundle_delete_event) = true ∧
  ∃ before after,
    trace (handle DeviceIdentityBundle bundle_delete_event healthy init).2
      = trace init ++ before ++ UpdateCertificateCommand (JStr "c1") "REVOKED" ::
          (if failed (healthy (trace init ++ before)
                        (UpdateCertificateCommand (JStr "c1") "REVOKED")) then []
           else [DeleteCertificateCommand (JStr "c1")]) ++ after ∧
    Forall (λ cmd, touches_certificate cmd = false) before ∧
    Forall (λ cmd, touches_certificate cmd = false) after.
Proof.
  split; [reflexivity|].
  apply (certificate_deleted_only_after_revoke
           (CfnEvent.ResourceProperties bundle_delete_event) (JStr "c1") healthy init).
  reflexivity.
Defined.

(** X4: the SSM parameters round trip.  For a thing and a stack whose names,
    with the other values Create converts to strings, can be converted, the
    parameters a Create stores are among the two names
    [/<stack>/<thing>/private_key] and [/<stack>/<thing>/certificate_pem],
    these are the names its outputs report, and they are exactly the names
    the first call of a Delete with the same [StackName] and [ThingName]
    removes. *)
Theorem parameter_names_round_trip created deleted prior c st c' st' :
  force_fail created = false →
  all_printable (create_interpolates DeviceIdentityBundle created c (trace st)) = true →
  prop deleted "ThingName" = prop created "ThingName" →
  prop deleted "StackName" = prop created "StackName" →
  ∃ result st1 new rest,
    create DeviceIdentityBundle created c st = (Ret result, st1) ∧
    trace st1 = trace st ++ new ∧
    (∀ name description value type tier,
       PutParameterCommand name description value type tier ∈ new →
       name ∈ parameter_names created) ∧
    [CfnResult.Data result !! "PrivateKeySecretParameter";
     CfnResult.Data result !! "CertificatePemParameter"]
      = (λ name, Some (JStr name)) <$> parameter_names created ∧
    trace (delete DeviceIdentityBundle
             (CfnEvent.mk "Delete" (CfnEvent.ResourceProperties deleted) prior) c' st').2
      = trace st' ++ DeleteParametersCommand (parameter_names created) :: rest.
Proof.
  intros Hff Hp Ht Hs. simpl.
  rewrite (bundle_onCreate_run created c st Hff Hp).
  assert (Hnames : all_printable [prop created "StackName"; prop created "ThingName"] = true).
  { unfold all_printable, create_interpolates in *. cbn [forallb] in *.
    apply andb_prop in Hp as [H1 Hp]. apply andb_prop in Hp as [H2 _].
    by rewrite H1, H2. }
  set (event := CfnEvent.mk "Delete" (CfnEvent.ResourceProperties deleted) prior).
  assert (Hrest : ∃ rest,
    trace (ThingCertPolicyFn.onDelete event c' st').2
    = trace st' ++ DeleteParametersCommand (parameter_names created) :: rest).
  { rewrite bundle_onDelete_unfold.
    assert (Hprops : ∀ name, prop event name = prop deleted name) by done.
    rewrite !Hprops, Ht, Hs, Hnames.
    unfold call, ThingCertPolicyFn.delete_blocks.
    match goal with |- context [bind _ _ c' ?s] =>
      destruct (delete_parameters_run c' s (private_key_parameter event)
                  (certificate_pem_parameter event)) as (st1 & R1 & T1) end.
    rewrite (bind_Ret _ _ _ _ _ _ R1).
    match goal with |- context [bind ?m ?f c' st1] =>
      assert (Hm : sends_only (λ _, True) (bind m f)) end.
    { unfold ThingCertPolicyFn.delete_policy_versions, ThingCertPolicyFn.detach_targets,
        ThingCertPolicyFn.delete_policy, ThingCertPolicyFn.detach_certificate,
        ThingCertPolicyFn.delete_certificate, ThingCertPolicyFn.detach_thing_principals,
        ThingCertPolicyFn.delete_thing.
      solve_sends ltac:(exact I). }
    destruct (Hm c' st1) as (rest & Hr & _).
    destruct (bind _ _ c' st1) as [r st2]. simpl in *.
    exists rest. rewrite Hr, T1.
    assert (private_key_parameter event = private_key_parameter created) as ->.
    { unfold private_key_parameter. by rewrite !Hprops, Ht, Hs. }
    assert (certificate_pem_parameter event = certificate_pem_parameter created) as ->.
    { unfold certificate_pem_parameter. by rewrite !Hprops, Ht, Hs. }
    by rewrite <- (assoc_L (++)). }
  destruct Hrest as [rest Hrest].
  eexists _, _, _, rest. split; [reflexivity|]. split; [reflexivity|].
  split; [|split].
  - intros name description value type tier Hin.
    unfold BundleCreate.create_calls, BundleCreate.first_calls, BundleCreate.put_calls in Hin.
    unfold parameter_names.
    repeat (first [apply elem_of_app in Hin as [Hin|Hin]
                  |apply elem_of_cons in Hin as [Hin|Hin]]);
      try discriminate; try (by apply elem_of_nil in Hin).
    + injection Hin as -> _ _ _ _. by left.
    + match type of Hin with context [failed ?o] => destruct (failed o) end;
        [by apply elem_of_nil in Hin|].
      apply list_elem_of_singleton in Hin. injection Hin as -> _ _ _ _.
      right. by left.
  - unfold BundleCreate.create_outputs, parameter_names; simpl. by simplify_map_eq.
  - exact Hrest.
Qed.

(** An instance: the sample bundle, created and deleted. *)
Lemma parameter_names_round_trip_witness :
  force_fail bundle_event = false ∧
  all_printable (create_interpolates DeviceIdentityBundle bundle_event healthy (trace init))
    = true ∧
  prop bundle_delete_event "ThingName" = prop bundle_event "ThingName" ∧
  prop bundle_delete_event "StackName" = prop bundle_event "StackName" ∧
  ∃ result st1 new rest,
    create DeviceIdentityBundle bundle_event healthy init = (Ret result, st1) ∧
    trace st1 = trace init ++ new ∧
    (∀ name description value type tier,
       PutParameterCommand name description value type tier ∈ new →
       name ∈ parameter_names bundle_event) ∧
    [CfnResult.Data result !! "PrivateKeySecretParameter";
     CfnResult.Data result !! "CertificatePemParameter"]
      = (λ name, Some (JStr name)) <$> parameter_names bundle_event ∧
    trace (delete DeviceIdentityBundle
             (CfnEvent.mk "Delete" (CfnEvent.ResourceProperties bundle_delete_event)
                (JStr "c1")) healthy init).2
      = trace init ++ DeleteParametersCommand (parameter_names bundle_event) :: rest.
Proof.
  split; [reflexivity|]. split; [reflexivity|]. split; [reflexivity|].
  split; [reflexivity|].
  apply (parameter_names_round_trip bundle_event bundle_delete_event (JStr "c1")
           healthy init healthy init); reflexivity.
Defined.

(** ** What Delete leaves alone *)

(** X5: a Delete never flags a failure.  For every resource kind and every
    client, a Delete leaves [process.exitCode] and the caller's variables as
    they were, and only extends the trace of calls. *)
Theorem delete_never_flags_failure k props prior c st :
  let event := CfnEvent.mk "Delete" props prior in
  exitCode (handle k event c st).2 = exitCode st ∧
  vars (handle k event c st).2 = vars st ∧
  trace st `prefix_of` trace (handle k event c st).2.
Proof.
  intros event. subst event. rewrite handle_Delete.
  split; [apply delete_keeps_exitCode|]. split.
  - destruct k; apply call_vars.
  - destruct (delete_extends_trace k (CfnEvent.mk "Delete" props prior) c st)
      as (new & -> & _).
    by eexists.
Qed.

(** ** The handlers and the constructs that declare them *)

(** X6: the handler's role lists the action of every call the handler
    sends.  For every resource kind, event and client, the IAM action named
    after each command the handler sends is one of the actions of the policy
    statements that the construct of that kind adds to the handler's role
    (the resources of the statements are not looked at). *)
Theorem every_call_is_granted k event c st :
  ∃ new,
    trace (handle k event c st).2 = trace st ++ new ∧
    Forall (λ cmd, iam_action cmd ∈ granted_actions k) new.
Proof.
  assert (H : sends_only (λ cmd, iam_action cmd ∈ granted_actions k) (handle k event));
    [|exact (H c st)].
  destruct k; simpl.
  - unfold RoleAliasFn.handler, RoleAliasFn.onCreate, RoleAliasFn.onUpdate,
      RoleAliasFn.onDelete.
    solve_sends ltac:(solve_elem).
  - unfold ThingCertPolicyFn.handler, ThingCertPolicyFn.onCreate, ThingCertPolicyFn.onUpdate,
      ThingCertPolicyFn.onDelete, ThingCertPolicyFn.create_blocks,
      ThingCertPolicyFn.delete_blocks.
    unfold ThingCertPolicyFn.create_thing, ThingCertPolicyFn.create_keys_and_certificate,
      ThingCertPolicyFn.create_policy, ThingCertPolicyFn.attach_policy,
      ThingCertPolicyFn.attach_thing_principal, ThingCertPolicyFn.put_parameters,
      ThingCertPolicyFn.data_ats_endpoint, ThingCertPolicyFn.credential_provider_endpoint,
      ThingCertPolicyFn.create_result,
      ThingCertPolicyFn.delete_parameters,
      ThingCertPolicyFn.delete_policy_versions, ThingCertPolicyFn.detach_targets,
      ThingCertPolicyFn.delete_policy, ThingCertPolicyFn.detach_certificate,
      ThingCertPolicyFn.delete_certificate, ThingCertPolicyFn.detach_thing_principals,
      ThingCertPolicyFn.delete_thing.
    solve_sends ltac:(solve_elem).
  - unfold ThingGroupFn.handler, ThingGroupFn.onCreate, ThingGroupFn.onUpdate,
      ThingGroupFn.onDelete.
    solve_sends ltac:(solve_elem).
  - unfold GreengrassV2DeploymentFn.handler, GreengrassV2DeploymentFn.onCreate,
      GreengrassV2DeploymentFn.onUpdate, GreengrassV2DeploymentFn.onDelete.
    solve_sends ltac:(solve_elem).
Qed.

(** X7: the attributes a construct reads are outputs of its handler.  For
    every resource kind, whenever Create returns, every name the construct
    passes to [getAttString] is a key of the [Data] it returns (with the
    value [undefined] when the call that yields it failed). *)
Theorem attributes_read_are_outputs k event c st result st' :
  create k event c st = (Ret result, st') →
  Forall (λ name, is_Some (CfnResult.Data result !! name)) (attributes_read k).
Proof.
  assert (Hr : returns_only
    (λ result, Forall (λ name, is_Some (CfnResult.Data result !! name)) (attributes_read k))
    (create k event)); [|apply Hr].
  destruct k; simpl.
  - unfold RoleAliasFn.onCreate. solve_returns.
    apply returns_only_ret. repeat constructor; simpl; by simplify_map_eq.
  - unfold ThingCertPolicyFn.onCreate, ThingCertPolicyFn.create_blocks,
      ThingCertPolicyFn.create_result.
    solve_returns.
    apply returns_only_ret. repeat constructor; simpl; by simplify_map_eq.
  - unfold ThingGroupFn.onCreate. solve_returns.
    apply returns_only_ret. repeat constructor; simpl; by simplify_map_eq.
  - unfold GreengrassV2DeploymentFn.onCreate. solve_returns.
    apply returns_only_ret. repeat constructor; simpl; by simplify_map_eq.
Qed.

(** An instance: the sample bundle, every call of which fails. *)
Lemma attributes_read_are_outputs_witness :
  ∃ result st',
    create DeviceIdentityBundle bundle_event unavailable init = (Ret result, st') ∧
    Forall (λ name, is_Some (CfnResult.Data result !! name))
      (attributes_read DeviceIdentityBundle).
Proof.
  eexists _, _. split; [vm_compute; reflexivity|].
  eapply (attributes_read_are_outputs DeviceIdentityBundle bundle_event unavailable init).
  vm_compute; reflexivity.
Defined.

(** X8: what a Delete of the single-call kinds names.  Delete of a role
    alias, of a thing group and of a deployment sends exactly one call, and
    that call names the resource by a property of the event
    ([IotRoleAliasName], [ThingGroupName], [DeploymentId]), never by the
    prior identity. *)
Theorem delete_names_the_resource_by_a_property props prior c st :
  let event := CfnEvent.mk "Delete" props prior in
  trace (handle CredentialExchangeBinding event c st).2
    = trace st ++ [DeleteRoleAliasCommand (prop event "IotRoleAliasName")] ∧
  trace (handle DeviceGroupMembership event c st).2
    = trace st ++ [DeleteThingGroupCommand (prop event "ThingGroupName")] ∧
  trace (handle FleetDeployment event c st).2
    = trace st ++ [CancelDeploymentCommand (prop event "DeploymentId")].
Proof.
  intros event. subst event. rewrite !handle_Delete. simpl.
  repeat split.
  - by destruct (role_alias_onDelete_run (CfnEvent.mk "Delete" props prior) c st)
      as (st' & -> & Ht).
  - by destruct (group_onDelete_run (CfnEvent.mk "Delete" props prior) c st)
      as (r & st' & -> & Ht & _).
  - by destruct (deployment_onDelete_run (CfnEvent.mk "Delete" props prior) c st)
      as (r & st' & -> & Ht & _).
Qed.

(** X9: the deployment construct passes no [DeploymentId].  For the
    properties the [GreengrassV2Deployment] construct gives its custom
    resource, whatever its props and components, a Delete sends
    [CancelDeployment] with an undefined [deploymentId], whatever the prior
    identity (the deployment id that Create returned) is. *)
Theorem deployment_delete_cancels_no_deployment
    serviceToken stackName targetArn deploymentName
    iotJobConfiguration deploymentPolicies tags this prior c st :
  let event :=
    CfnEvent.mk "Delete"
      (resource_properties serviceToken
         (GreengrassV2DeploymentConstruct.properties stackName targetArn deploymentName
            iotJobConfiguration deploymentPolicies tags this)) prior in
  trace (handle FleetDeployment event c st).2
    = trace st ++ [CancelDeploymentCommand JUndefined].
Proof.
  intros event.
  assert (Hid : prop event "DeploymentId" = JUndefined).
  { unfold event, prop, resource_properties, GreengrassV2DeploymentConstruct.properties; simpl.
    by simplify_map_eq. }
  unfold event at 1. rewrite handle_Delete. fold event. simpl.
  destruct (deployment_onDelete_run event c st) as (r & st' & -> & Ht & _).
  simpl. by rewrite Ht, Hid.
Qed.

(** X10: the bundle construct passes no [CertificateArn].  For the
    properties the [IotThingCertPolicy] construct gives its custom resource,
    a Delete looks for the things of an undefined principal: the listing
    that is meant to discover what the certificate is attached to never
    names the certificate, and neither do the detachments that follow
    it. *)
Theorem bundle_delete_discovers_with_no_certificate
    serviceToken stackName thingName iotPolicy iotPolicyName prior c st :
  let event :=
    CfnEvent.mk "Delete"
      (resource_properties serviceToken
         (IotThingCertPolicy.properties stackName thingName iotPolicy iotPolicyName)) prior in
  ∃ before ds after,
    trace (handle DeviceIdentityBundle event c st).2
      = trace st ++ before ++ ListPrincipalThingsCommand JUndefined :: ds
          ++ UpdateCertificateCommand prior "REVOKED" :: after ∧
    Forall (detaches_certificate (JStr thingName) JUndefined) ds.
Proof.
  intros event.
  assert (Hca : prop event "CertificateArn" = JUndefined).
  { unfold event, prop, resource_properties, IotThingCertPolicy.properties; simpl.
    by simplify_map_eq. }
  assert (Htn : prop event "ThingName" = JStr thingName).
  { unfold event, prop, resource_properties, IotThingCertPolicy.properties; simpl.
    by simplify_map_eq. }
  assert (Hsn : prop event "StackName" = JStr stackName).
  { unfold event, prop, resource_properties, IotThingCertPolicy.properties; simpl.
    by simplify_map_eq. }
  assert (Hpn : prop event "IotPolicyName" = JStr iotPolicyName).
  { unfold event, prop, resource_properties, IotThingCertPolicy.properties; simpl.
    by simplify_map_eq. }
  assert (Hp : all_printable (delete_interpolates DeviceIdentityBundle event) = true).
  { unfold delete_interpolates. by rewrite Hca, Htn, Hsn, Hpn. }
  destruct (bundle_unwind event c st Hp)
    as (st' & vs & ts & ds & ps & Hr & Ht & _ & _ & Qd & _).
  rewrite Hca, Htn in *. clear Hca Htn.
  subst event. rewrite handle_Delete. simpl in *. rewrite Hr. simpl.
  eexists (_ :: _ :: vs ++ _ :: ts ++ [_]), ds, _. split; [|exact Qd].
  rewrite Ht. simplify_list_eq. reflexivity.
Qed.

Lemma thingArnList_addThing (arns : list string) this :
  IotThingGroup.thingArnList (foldl IotThingGroup.addThing this arns)
  = IotThingGroup.thingArnList this ++ arns.
Proof.
  revert this. induction arns as [|a arns IH]; intros this; simpl.
  - by rewrite app_nil_r.
  - rewrite IH. simpl. by rewrite <- (assoc_L (++)).
Qed.

(** X11: things join the group in the order they were added.  For a thing
    group declared with the [IotThingGroup] construct, Create is never
    force-failed, it creates the group with the given description, or with
    ["CloudFormation generated group"] when none or an empty one is given,
    and it then adds the things in the order [addThing] was called, up to
    and including the first addition that fails. *)
Theorem group_things_are_added_in_order
    serviceToken stackName name description (arns : list string) prior c st :
  let this := foldl IotThingGroup.addThing IotThingGroup.new arns in
  let event :=
    CfnEvent.mk "Create"
      (resource_properties serviceToken
         (IotThingGroup.properties stackName name description this)) prior in
  let create_group :=
    CreateThingGroupCommand (JStr name)
      (if truthy description then description else JStr "CloudFormation generated group") in
  force_fail event = false ∧
  trace (handle DeviceGroupMembership event c st).2
    = trace st ++ create_group ::
        until_failure c (trace st ++ [create_group])
          (AddThingToThingGroupCommand (JStr name)) (JStr <$> arns).
Proof.
  intros this event create_group.
  assert (Hff : force_fail event = false).
  { unfold force_fail, event, prop, resource_properties, IotThingGroup.properties; simpl.
    by simplify_map_eq. }
  split; [done|].
  destruct (group_onCreate_run event c st Hff) as (r & ec & Hrun & _).
  unfold event at 1. rewrite handle_Create. fold event. simpl. rewrite Hrun. simpl.
  assert (group_create_command event = create_group) as ->.
  { unfold group_create_command, event, prop, resource_properties,
      IotThingGroup.properties, create_group, js_or; simpl. by simplify_map_eq. }
  assert (elements (prop event "ThingArnList") = JStr <$> arns) as ->.
  { unfold event, prop, resource_properties, IotThingGroup.properties; simpl.
    simplify_map_eq. unfold this. by rewrite thingArnList_addThing. }
  assert (group_add_command event = AddThingToThingGroupCommand (JStr name)) as ->; [|done].
  unfold group_add_command, event, prop, resource_properties, IotThingGroup.properties; simpl.
  by simplify_map_eq.
Qed.

(** ** [addComponent], as a whole *)

Section AddComponentClosedForm.
Import GreengrassV2Deployment.

Lemma fold_skips component l this k :
  componentList this !! k = None →
  k ∉ l ∨ k ∈ object_prototype_keys →
  componentList (foldl (addComponent_key component) this l) !! k = None.
Proof.
  revert this. induction l as [|key l IH]; intros this Hk Hor; simpl; [done|].
  apply IH.
  - unfold addComponent_key. destruct (js_in key (componentList this)) eqn:Hin; simpl; [done|].
    destruct (decide (key = k)) as [->|Hne]; [|by rewrite lookup_insert_ne].
    destruct Hor as [Hnot|Hp]; [by destruct Hnot; left|].
    unfold js_in in Hin. apply orb_false_elim in Hin as [_ Hin].
    by apply bool_decide_eq_false in Hin.
  - destruct Hor as [Hnot|Hp]; [left|by right].
    intros Hin. apply Hnot. by right.
Qed.

Lemma Object_keys_spec (component : gmap string JsVal) k :
  k ∈ Object_keys component ↔ is_Some (component !! k).
Proof.
  unfold Object_keys. rewrite list_elem_of_fmap. split.
  - intros ([k' e] & -> & Hin). apply elem_of_map_to_list in Hin. by exists e.
  - intros [e He]. exists (k, e). split; [done|]. by apply elem_of_map_to_list.
Qed.

Lemma fold_flags component l this :
  NoDup l →
  process_exitCode (foldl (addComponent_key component) this l)
  = if existsb (λ key, js_in key (componentList this)) l then Some 1
    else process_exitCode this.
Proof.
  revert this. induction l as [|key l IH]; intros this Hnd; simpl; [done|].
  apply NoDup_cons in Hnd as [Hkey Hnd]. rewrite IH by done.
  unfold addComponent_key.
  destruct (js_in key (componentList this)) eqn:Hin; simpl.
  - by destruct (existsb _ l).
  - assert (existsb (λ key0, js_in key0 (<[key:=default JUndefined (component !! key)]>
                                          (componentList this))) l
            = existsb (λ key0, js_in key0 (componentList this)) l) as ->; [|done].
    clear IH Hnd. induction l as [|k l IH]; simpl; [done|].
    rewrite IH by (intros ?; apply Hkey; by right). f_equal.
    unfold js_in. rewrite lookup_insert_ne; [done|].
    intros ->. apply Hkey. by left.
Qed.

(** The component list after [addComponent]: an existing entry wins, and a
    name that every object inherits is never added. *)
Lemma addComponent_componentList this component :
  componentList (addComponent this component)
  = componentList this ∪ filter own_name component.
Proof.
  apply map_eq. intros k. rewrite lookup_union.
  destruct (componentList this !! k) as [e|] eqn:Hk.
  { rewrite (addComponent_keeps _ _ _ _ Hk). by destruct (filter _ _ !! k). }
  destruct (component !! k) as [e|] eqn:He.
  - destruct (decide (k ∈ object_prototype_keys)) as [Hp|Hp].
    + unfold addComponent. rewrite fold_skips by (done || by right).
      assert (filter own_name component !! k = None) as ->; [|done].
      apply map_lookup_filter_None. right. intros e' _ Hown. by apply Hown.
    + rewrite (addComponent_adds _ _ _ _ Hp Hk He).
      assert (filter own_name component !! k = Some e) as ->; [|done].
      by apply map_lookup_filter_Some.
  - unfold addComponent. rewrite fold_skips; [|done|].
    + assert (filter own_name component !! k = None) as ->; [|done].
      apply map_lookup_filter_None. by left.
    + left. rewrite Object_keys_spec, He. by intros [? ?].
Qed.

(** X12: [addComponent] is a guarded union.  The component list after
    [addComponent] is the list before, to which the entries of the argument
    are added whose name is neither in the list already nor a name every
    object inherits: an existing entry always wins.  The process is flagged
    as failed exactly when some name of the argument is rejected. *)
Theorem addComponent_is_a_guarded_union this component :
  componentList (addComponent this component)
    = componentList this ∪ filter own_name component ∧
  process_exitCode (addComponent this component)
    = if existsb (λ key, js_in key (componentList this)) (Object_keys component)
      then Some 1 else process_exitCode this.
Proof.
  split; [apply addComponent_componentList|].
  apply fold_flags, NoDup_fst_map_to_list.
Qed.

(** X13: adding the same components again changes nothing but the flag.  A
    second [addComponent] with the same argument leaves the component list
    as the first one made it, and, unless the argument is empty, flags the
    process as failed. *)
Theorem addComponent_twice this component :
  componentList (addComponent (addComponent this component) component)
    = componentList (addComponent this component) ∧
  (component ≠ ∅ →
   process_exitCode (addComponent (addComponent this component) component) = Some 1).
Proof.
  split.
  - rewrite !addComponent_componentList.
    rewrite <- (assoc_L (∪)). by rewrite (idemp_L (∪)).
  - intros Hne. unfold addComponent at 1.
    rewrite fold_flags by apply NoDup_fst_map_to_list.
    apply map_choose in Hne as (k & e & He).
    assert (existsb (λ key, js_in key (componentList (addComponent this component)))
              (Object_keys component) = true) as ->; [|done].
    apply existsb_exists. exists k. split.
    { apply list_elem_of_In, Object_keys_spec. by exists e. }
    unfold js_in. apply orb_true_iff.
    destruct (decide (k ∈ object_prototype_keys)) as [Hp|Hp].
    { right. by apply bool_decide_eq_true. }
    left. apply bool_decide_eq_true.
    destruct (componentList this !! k) as [e'|] eqn:Hk.
    + exists e'. by apply addComponent_keeps.
    + exists e. by apply addComponent_adds.
Qed.

(** An instance: one component, added twice to an empty deployment. *)
Lemma addComponent_twice_witness :
  publisher_component ≠ ∅ ∧
  GreengrassV2Deployment.componentList
    (GreengrassV2Deployment.addComponent
       (GreengrassV2Deployment.addComponent empty_deployment publisher_component)
       publisher_component)
    = GreengrassV2Deployment.componentList
        (GreengrassV2Deployment.addComponent empty_deployment publisher_component) ∧
  GreengrassV2Deployment.process_exitCode
    (GreengrassV2Deployment.addComponent
       (GreengrassV2Deployment.addComponent empty_deployment publisher_component)
       publisher_component) = Some 1.
Proof.
  split; [apply map_non_empty_singleton|].
  destruct (addComponent_twice empty_deployment publisher_component) as [Hl Hf].
  split; [exact Hl | apply Hf, map_non_empty_singleton].
Defined.
End AddComponentClosedForm.

(** ** Create: the force-fail flag and the failure flag *)

Lemma force_fail_truthy event : force_fail event = truthy (prop event "FailCreate").
Proof. unfold force_fail. by destruct (prop event "FailCreate"). Qed.

(** A state whose trace has grown is another state. *)
Lemma longer_trace_differs (st st' : State) cmd new :
  trace st' = trace st ++ cmd :: new → st' ≠ st.
Proof.
  intros Ht ->. apply (f_equal length) in Ht.
  rewrite length_app in Ht. simpl in Ht. lia.
Qed.

(** X14: the force-fail flag is a truthiness test.  For every resource
    kind, a Create raises ["Create failure requested, logging"] exactly when
    the [FailCreate] property is truthy: present, and neither [null],
    [false] nor the empty string.  Any non-empty string forces the failure,
    the string ["false"] too. *)
Theorem force_fail_is_a_truthiness_test k props prior c st :
  let event := CfnEvent.mk "Create" props prior in
  handle k event c st = (Thrown (Error "Create failure requested, logging"), st)
  ↔ truthy (prop event "FailCreate") = true.
Proof.
  intros event. subst event. rewrite handle_Create, <- force_fail_truthy.
  split; [|apply create_force_fail].
  intros Hr. destruct (force_fail _) eqn:Hff; [done|]. exfalso.
  destruct k; simpl in Hr.
  - rewrite role_alias_onCreate_run in Hr by done. discriminate.
  - destruct (all_printable [prop (CfnEvent.mk "Create" props prior) "StackName";
                             prop (CfnEvent.mk "Create" props prior) "ThingName"]) eqn:Hp.
    + destruct (bundle_onCreate_first_call _ c st Hff Hp) as [rest Ht].
      rewrite Hr in Ht. by eapply longer_trace_differs.
    + rewrite bundle_onCreate_unfold in Hr by done. rewrite Hp in Hr. discriminate.
  - destruct (group_onCreate_run _ c st Hff) as (r & ec & Hrun & _).
    rewrite Hrun in Hr. injection Hr as _ Hst.
    eapply longer_trace_differs; [|exact Hst]. reflexivity.
  - rewrite deployment_onCreate_run in Hr by done. injection Hr as _ Hst.
    eapply longer_trace_differs; [|exact Hst]. reflexivity.
Qed.

(** X15: what a Create flags.  Create of a role alias returns, and sets
    [process.exitCode] to 1 exactly when its call fails.  Create of a thing
    group whose group name and list of things can be converted to strings
    returns, and sets [process.exitCode] to 1 exactly when one of its calls
    fails or [ThingArnList] cannot be iterated (it is missing, say).
    Otherwise [process.exitCode] is left as it was. *)
Theorem create_flags_exactly_its_failures event c st :
  force_fail event = false →
  (is_thrown (create CredentialExchangeBinding event c st).1 = false ∧
   exitCode (create CredentialExchangeBinding event c st).2
   = if some_call_failed c (trace st) [role_alias_create_command event]
     then Some 1 else exitCode st) ∧
  (all_printable (create_interpolates DeviceGroupMembership event c (trace st)) = true →
   is_thrown (create DeviceGroupMembership event c st).1 = false ∧
   ∃ new,
     trace (create DeviceGroupMembership event c st).2 = trace st ++ new ∧
     exitCode (create DeviceGroupMembership event c st).2
     = if some_call_failed c (trace st) new
          || negb (bool_decide (is_Some (iterate (prop event "ThingArnList"))))
       then Some 1 else exitCode st).
Proof.
  intros H. split; simpl.
  - rewrite role_alias_onCreate_run by done. simpl. by rewrite orb_false_r.
  - intros Hp.
    destruct (group_onCreate_run event c st H) as (r & ec & -> & Hr).
    destruct (Hr Hp) as [-> ->]. simpl. split; [done|]. by eexists.
Qed.

(** An instance: the sample thing group, every call of which fails. *)
Lemma create_flags_exactly_its_failures_witness :
  force_fail group_event = false ∧
  all_printable (create_interpolates DeviceGroupMembership group_event unavailable
                   (trace init)) = true ∧
  is_thrown (create DeviceGroupMembership group_event unavailable init).1 = false ∧
  ∃ new,
    trace (create DeviceGroupMembership group_event unavailable init).2 = trace init ++ new ∧
    exitCode (create DeviceGroupMembership group_event unavailable init).2
    = if some_call_failed unavailable (trace init) new
         || negb (bool_decide (is_Some (iterate (prop group_event "ThingArnList"))))
      then Some 1 else exitCode init.
Proof.
  split; [reflexivity|]. split; [reflexivity|].
  apply (create_flags_exactly_its_failures group_event unavailable init); reflexivity.
Defined.

(** X16: an endpoint lookup that fails is not flagged.  Create of a device
    identity bundle whose names, and the certificate it is given, can be
    converted to strings sets [process.exitCode] to 1 exactly when one of
    the calls of its first six blocks fails or the keys it created come
    without a [keyPair]; otherwise it leaves [process.exitCode] as it was,
    whatever the two endpoint lookups do. *)
Theorem bundle_create_flags_provisioning_failures_only event c st :
  force_fail event = false →
  all_printable (create_interpolates DeviceIdentityBundle event c (trace st)) = true →
  ∃ provisioning,
    trace (create DeviceIdentityBundle event c st).2
      = trace st ++ provisioning
          ++ [ DescribeEndpointCommand "iot:Data-ATS";
               DescribeEndpointCommand "iot:CredentialProvider" ] ∧
    exitCode (create DeviceIdentityBundle event c st).2
      = if some_call_failed c (trace st) provisioning
           || keyPair_missing
                (c (trace st ++ [CreateThingCommand (prop event "ThingName")])
                   (CreateKeysAndCertificateCommand true))
        then Some 1 else exitCode st.
Proof.
  intros H Hp. simpl. rewrite (bundle_onCreate_run event c st H Hp). simpl.
  exists (BundleCreate.first_calls event c (trace st)
          ++ BundleCreate.put_calls event c (trace st)).
  split; [|done].
  unfold BundleCreate.create_calls. by rewrite <- !(assoc_L (++)).
Qed.

(** An instance: the endpoint lookups fail and nothing else does. *)
Lemma bundle_create_flags_provisioning_failures_only_witness :
  force_fail bundle_event = false ∧
  all_printable (create_interpolates DeviceIdentityBundle bundle_event no_endpoints
                   (trace init)) = true ∧
  ∃ provisioning,
    trace (create DeviceIdentityBundle bundle_event no_endpoints init).2
      = trace init ++ provisioning
          ++ [ DescribeEndpointCommand "iot:Data-ATS";
               DescribeEndpointCommand "iot:CredentialProvider" ] ∧
    exitCode (create DeviceIdentityBundle bundle_event no_endpoints init).2
      = if some_call_failed no_endpoints (trace init) provisioning
           || keyPair_missing
                (no_endpoints
                   (trace init ++ [CreateThingCommand (prop bundle_event "ThingName")])
                   (CreateKeysAndCertificateCommand true))
        then Some 1 else exitCode init.
Proof.
  split; [reflexivity|]. split; [reflexivity|].
  apply (bundle_create_flags_provisioning_failures_only bundle_event no_endpoints init);
    reflexivity.
Defined.

(** ** Delete of a device identity bundle: what pruning deletes *)

Section Pruning.
Import ThingCertPolicyFn.

#[local, warnings="-notation-for-abbreviation"]
Notation prune policy_name :=
  (fun version =>
     isDefaultVersion <- member version "isDefaultVersion" ;;
     if negb (truthy isDefaultVersion) then
       versionId <- member version "versionId" ;;
       _ <- send (DeletePolicyVersionCommand policy_name versionId) ;;
       ret tt
     else ret tt).

(** One turn of the pruning loop on a version that is neither [undefined]
    nor [null]. *)
Lemma prune_run policy_name version c st :
  is_nullish version = false →
  let cmd := DeletePolicyVersionCommand policy_name (member_of version "versionId") in
  prune policy_name version c st
  = if is_non_default version
    then (match c (trace st) cmd with
          | Ok _ => Ret tt
          | Fail n m => Thrown (ServiceException n m)
          end, mkState (vars st) (trace st ++ [cmd]) (exitCode st))
    else (Ret tt, st).
Proof.
  intros Hn cmd. subst cmd. unfold is_non_default.
  destruct version; try discriminate; unfold member, member_of, field, bind, ret, send; simpl;
    try (by destruct (c (trace st) _)).
  match goal with |- context [truthy ?v] => destruct (truthy v) end; simpl;
    [done | by destruct (c (trace st) _)].
Qed.

(** The pruning loop over versions none of which is [undefined] or [null]:
    one deletion for each version that is not the default one, in list
    order, up to and including the first deletion that fails. *)
Lemma prune_loop_run policy_name versions c st :
  Forall (λ version, is_nullish version = false) versions →
  ∃ r,
    for_each versions (prune policy_name) c st
    = (r, mkState (vars st)
            (trace st ++ until_failure c (trace st)
               (λ version, DeletePolicyVersionCommand policy_name
                             (member_of version "versionId"))
               (List.filter is_non_default versions))
            (exitCode st)).
Proof.
  intros Hv. revert st. induction Hv as [|version versions Hn _ IH]; intros st.
  - exists (Ret tt). simpl. unfold ret. rewrite app_nil_r. by destruct st.
  - cbn [for_each List.filter].
    pose proof (prune_run policy_name version c st Hn) as Hb. cbv zeta in Hb.
    destruct (is_non_default version).
    + cbn [until_failure].
      destruct (c (trace st) _) as [response|n msg].
      * rewrite (bind_Ret _ _ _ _ _ _ Hb).
        match goal with |- context [for_each versions _ c ?s] =>
          destruct (IH s) as [r Hr] end.
        exists r. rewrite Hr. simpl. by rewrite <- (assoc_L (++)).
      * rewrite (bind_Thrown _ _ _ _ _ _ Hb). simpl. by eexists.
    + rewrite (bind_Ret _ _ _ _ _ _ Hb). apply IH.
Qed.

Lemma delete_policy_versions_exact policy_name c st response versions :
  let list := ListPolicyVersionsCommand policy_name in
  printable policy_name = true →
  c (trace st) list = Ok response →
  iterate (field response "policyVersions") = Some versions →
  Forall (λ version, is_nullish version = false) versions →
  ∃ st',
    delete_policy_versions policy_name c st = (Ret tt, st') ∧
    trace st' = trace st ++ list ::
                  until_failure c (trace st ++ [list])
                    (λ version, DeletePolicyVersionCommand policy_name
                                  (member_of version "versionId"))
                    (List.filter is_non_default versions).
Proof.
  intros list Hp Ho Hi Hv.
  unfold delete_policy_versions, try_catch. unfold bind at 1. unfold send at 1.
  fold list. rewrite Ho. simpl. unfold bind at 1, ret at 1. unfold for_of.
  fold (field response "policyVersions"). rewrite Hi.
  match goal with |- context [for_each versions ?b c ?s] =>
    destruct (prune_loop_run policy_name versions c s Hv) as [r Hr] end.
  rewrite Hr. simpl. rewrite <- (assoc_L (++)). simpl.
  destruct r as [[]|e].
  - eexists; split; [reflexivity|done].
  - rewrite log_run by solve_printable. eexists; split; [reflexivity|done].
Qed.

(** X17: pruning deletes every version but the default one.  When the stack,
    thing and policy names can be converted to strings and the
    [ListPolicyVersions] call of a Delete returns a list of versions, the
    Delete sends, right after it, one [DeletePolicyVersion] for each
    version whose [isDefaultVersion] is not truthy, in list order, up to
    and including the first one that fails; then it goes on to list the
    targets of the policy. *)
Theorem pruning_deletes_every_other_version props prior c st response versions :
  let event := CfnEvent.mk "Delete" props prior in
  let policy_name := prop event "IotPolicyName" in
  let h1 := trace st ++ [DeleteParametersCommand (parameter_names event)] in
  let list := ListPolicyVersionsCommand policy_name in
  all_printable [prop event "StackName"; prop event "ThingName"; policy_name] = true →
  c h1 list = Ok response →
  iterate (field response "policyVersions") = Some versions →
  Forall (λ version, is_nullish version = false) versions →
  ∃ rest,
    trace (handle DeviceIdentityBundle event c st).2
      = h1 ++ list ::
          until_failure c (h1 ++ [list])
            (λ version, DeletePolicyVersionCommand policy_name
                          (member_of version "versionId"))
            (List.filter is_non_default versions)
          ++ ListTargetsForPolicyCommand policy_name :: rest.
Proof.
  intros event policy_name h1 list Hp Ho Hi Hv.
  split_printable Hp.
  unfold event at 1. rewrite handle_Delete. fold event. simpl.
  rewrite bundle_onDelete_unfold.
  assert (all_printable [prop event "StackName"; prop event "ThingName"] = true) as ->
    by solve_printable.
  unfold call, delete_blocks. fold policy_name.
  set (st0 := mkState ∅ (trace st) (exitCode st)).
  destruct (delete_parameters_run c st0 (private_key_parameter event)
              (certificate_pem_parameter event)) as (st1 & R1 & T1).
  rewrite (bind_Ret _ _ _ _ _ _ R1).
  change (trace st0) with (trace st) in T1.
  change (DeleteParametersCommand _) with (DeleteParametersCommand (parameter_names event))
    in T1.
  fold h1 in T1. rewrite <- T1 in Ho.
  destruct (delete_policy_versions_exact policy_name c st1 response versions
              ltac:(assumption) Ho Hi Hv) as (st2 & R2 & T2).
  rewrite (bind_Ret _ _ _ _ _ _ R2).
  destruct (detach_targets_run policy_name c st2) as (r3 & st3 & ts & R3 & T3 & _ & H3).
  rewrite (H3 ltac:(assumption)) in R3. rewrite (bind_Ret _ _ _ _ _ _ R3).
  match goal with |- context [bind ?m ?f c st3] =>
    assert (Hrest : sends_only (λ _, True) (bind m f)) end.
  { unfold delete_policy, detach_certificate, delete_certificate,
      detach_thing_principals, delete_thing.
    solve_sends ltac:(exact I). }
  destruct (Hrest c st3) as (new & Hnew & _).
  destruct (bind _ _ c st3) as [r st4]. simpl in *.
  exists (ts ++ new). rewrite Hnew, T3, T2, T1. fold list. by simplify_list_eq.
Qed.

(** An instance: the policy has a default version and an older one. *)
Lemma pruning_deletes_every_other_version_witness :
  all_printable [prop bundle_delete_event "StackName"; prop bundle_delete_event "ThingName";
                 prop bundle_delete_event "IotPolicyName"] = true ∧
  two_versions (trace init ++ [DeleteParametersCommand (parameter_names bundle_delete_event)])
    (ListPolicyVersionsCommand (prop bundle_delete_event "IotPolicyName"))
    = Ok {[ "policyVersions" := JList two_policy_versions ]} ∧
  iterate (field {[ "policyVersions" := JList two_policy_versions ]} "policyVersions")
    = Some two_policy_versions ∧
  Forall (λ version, is_nullish version = false) two_policy_versions ∧
  ∃ rest,
    trace (handle DeviceIdentityBundle bundle_delete_event two_versions init).2
      = (trace init ++ [DeleteParametersCommand (parameter_names bundle_delete_event)])
          ++ ListPolicyVersionsCommand (prop bundle_delete_event "IotPolicyName") ::
          until_failure two_versions
            ((trace init ++ [DeleteParametersCommand (parameter_names bundle_delete_event)])
               ++ [ListPolicyVersionsCommand (prop bundle_delete_event "IotPolicyName")])
            (λ version, DeletePolicyVersionCommand (prop bundle_delete_event "IotPolicyName")
                          (member_of version "versionId"))
            (List.filter is_non_default two_policy_versions)
          ++ ListTargetsForPolicyCommand (prop bundle_delete_event "IotPolicyName") :: rest.
Proof.
  split; [reflexivity|]. split; [reflexivity|]. split; [reflexivity|].
  split; [by repeat constructor|].
  apply (pruning_deletes_every_other_version
           (CfnEvent.ResourceProperties bundle_delete_event) (JStr "c1") two_versions init
           {[ "policyVersions" := JList two_policy_versions ]} two_policy_versions);
    [reflexivity|reflexivity|reflexivity|by repeat constructor].
Defined.
End Pruning.
